(** * EPAC workflow engine: stores, slicers, splitters and estimator wrappers

    A shallow embedding of the parts of [epac/stores.py],
    [epac/workflow/splitters.py], [epac/workflow/estimators.py] and
    [epac/workflow/wrappers.py] that the specification speaks about, and of
    the code around them, followed by the properties established on them.
    Python objects are embedded as data, exceptions as values, and in-place
    mutation as explicit state passing. *)

From Stdlib Require Import ZArith Ascii String List Lia.
From stdpp Require Import base option list gmap strings pretty fin_maps.
From Equations Require Import Equations.
From Equations.Prop Require Import Logic.

Set Warnings "-register-all".

(** ** Python values and exceptions *)

Module Py.

(** The exceptions the embedded code can raise.  [ValueError] carries the
    leading words of its message, which is how the call sites differ. *)
Inductive exn :=
| ValueError (msg : string)
| TypeError
| KeyError
| IndexError
| AttributeError
| UnboundLocalError.

(** The outcome of a call that returns a value or raises. *)
Inductive result (A : Type) :=
| Ok (a : A)
| Raise (e : exn).
Arguments Ok {A} a.
Arguments Raise {A} e.

Definition bind {A B} (r : result A) (k : A -> result B) : result B :=
  match r with
  | Ok a => k a
  | Raise e => Raise e
  end.

Notation "x <- r ;; k" := (bind r (fun x => k))
  (at level 100, r at next level, right associativity).

Fixpoint mapM {A B} (f : A -> result B) (l : list A) : result (list B) :=
  match l with
  | [] => Ok []
  | a :: l' => b <- f a ;; bs <- mapM f l' ;; Ok (b :: bs)
  end.

(** Code that changes a state of type [S] and may raise: the state as the
    code leaves it, with the value returned or the exception raised. *)
Definition ST (S A : Type) : Type := S -> S * result A.

Definition ret {S A} (a : A) : ST S A := fun s => (s, Ok a).

Definition lift {S A} (r : result A) : ST S A := fun s => (s, r).

Definition get {S} : ST S S := fun s => (s, Ok s).

Definition put {S} (s : S) : ST S unit := fun _ => (s, Ok ()).

Definition mbind {S A B} (m : ST S A) (k : A -> ST S B) : ST S B :=
  fun s =>
    match m s with
    | (s', Ok a) => k a s'
    | (s', Raise e) => (s', Raise e)
    end.

Notation "x <~ m ;; k" := (mbind m (fun x => k))
  (at level 100, m at next level, right associativity).

(** Hashable scalars: [None], integers and strings. *)
Inductive atom :=
| ANone
| AInt (z : Z)
| AStr (s : string).

#[global] Instance atom_eq_dec : EqDecision atom.
Proof. solve_decision. Defined.

#[global] Instance atom_countable : Countable atom.
Proof.
  refine (inj_countable'
    (fun a => match a with
              | ANone => inl ()
              | AInt z => inr (inl z)
              | AStr s => inr (inr s)
              end)
    (fun x => match x with
              | inl _ => ANone
              | inr (inl z) => AInt z
              | inr (inr s) => AStr s
              end) _).
  by intros [].
Defined.

(** Objects a store can hold: scalars, lists and dicts (keyed by hashable
    scalars).  [isinstance(v, dict)] is [PyDict], [isinstance(v, list)] is
    [PyList]; everything else is a [PyAtom]. *)
Inductive pyobj :=
| PyAtom (a : atom)
| PyList (l : list pyobj)
| PyDict (m : gmap atom pyobj).

Definition PyNone : pyobj := PyAtom ANone.

(** Iterating a [str] yields its one-character strings. *)
Definition str_chars (s : string) : list pyobj :=
  map (fun c => PyAtom (AStr (String c EmptyString))) (list_ascii_of_string s).

(** Exceptions and outcomes can be compared. *)
#[global] Instance exn_eq_dec : EqDecision exn.
Proof. solve_decision. Defined.

#[global] Instance result_eq_dec `{EqDecision A} : EqDecision (result A).
Proof. solve_decision. Defined.

End Py.

(** ** [epac/stores.py]: the in-memory store *)

Module Stores.
Import Py.

Section DictUpdate.

(** The order in which CPython enumerates the keys of a dict (hash-table
    order); it only matters when a dict is itself used as a key/value pair. *)
Variable dict_iter : gmap atom pyobj -> list atom.

(** [dict.update] on a non-mapping reads each element as a sequence of
    length two. *)
Definition as_pair (item : pyobj) : result (pyobj * pyobj) :=
  match item with
  | PyAtom ANone | PyAtom (AInt _) => Raise TypeError
  | PyAtom (AStr s) =>
      match str_chars s with
      | [k; v] => Ok (k, v)
      | _ => Raise (ValueError "dictionary update sequence element")
      end
  | PyList [k; v] => Ok (k, v)
  | PyList _ => Raise (ValueError "dictionary update sequence element")
  | PyDict m =>
      match dict_iter m with
      | [k; v] => Ok (PyAtom k, PyAtom v)
      | _ => Raise (ValueError "dictionary update sequence element")
      end
  end.

(** Only scalars are hashable. *)
Definition hashable (k : pyobj) : result atom :=
  match k with
  | PyAtom a => Ok a
  | _ => Raise TypeError
  end.

(** Insert the pairs one by one; an element that is no pair stops the loop
    with the earlier insertions kept. *)
Fixpoint merge_from_seq2 (d : gmap atom pyobj) (items : list pyobj)
  : gmap atom pyobj * option exn :=
  match items with
  | [] => (d, None)
  | item :: rest =>
      match (kv <- as_pair item ;; a <- hashable (fst kv) ;; Ok (a, snd kv)) with
      | Ok (a, v) => merge_from_seq2 (<[a := v]> d) rest
      | Raise e => (d, Some e)
      end
  end.

(** [d.update(obj)]: the entries of a mapping [obj] override those of [d]
    (stdpp's union is left-biased, so [obj] stands on the left). *)
Definition dict_update (d : gmap atom pyobj) (obj : pyobj)
  : gmap atom pyobj * option exn :=
  match obj with
  | PyDict m => (m ∪ d, None)
  | PyList l => merge_from_seq2 d l
  | PyAtom (AStr s) => merge_from_seq2 d (str_chars s)
  | PyAtom _ => (d, Some TypeError)
  end.

(** [class StoreMem]: [self.dict] maps keys to objects.  The objects are
    held by value: updating the object bound to a key in place is
    rebinding the key to the updated object.  The model so stands for a
    store in which no object is bound to two keys; what an update in place
    does to an object shared between keys is outside it. *)
Record StoreMem := { dict : gmap string pyobj }.

(** [StoreMem.__init__] *)
Definition StoreMem_init : StoreMem := {| dict := ∅ |}.

(** [StoreMem.save(key, obj, merge=False)]: the store afterwards and the
    exception raised, if any. *)
Definition save (self : StoreMem) (key : string) (obj : pyobj) (merge : bool)
  : StoreMem * option exn :=
  if negb merge || negb (bool_decide (is_Some (dict self !! key))) then
    ({| dict := <[key := obj]> (dict self) |}, None)
  else
    match dict self !! key with
    | None => (self, Some KeyError)
    | Some (PyDict v) =>
        let '(v', e) := dict_update v obj in
        ({| dict := <[key := PyDict v']> (dict self) |}, e)
    | Some (PyList v) =>
        ({| dict := <[key := PyList (v ++ [obj])]> (dict self) |}, None)
    | Some (PyAtom _) => (self, None)
    end.

(** [StoreMem.load(key)]: a missing key gives [None]. *)
Definition load (self : StoreMem) (key : string) : pyobj :=
  match dict self !! key with
  | Some v => v
  | None => PyNone
  end.

End DictUpdate.

(** One enumeration order, for running the model on examples. *)
Definition map_order (m : gmap atom pyobj) : list atom := (map_to_list m).*1.

End Stores.

(** ** [epac/stores.py]: conversion between objects and dicts *)

Module Conversion.
Import Py.

(** The objects the conversion tells apart: instances of classes (with
    their [__dict__]), functions, dicts, lists, tuples, arrays, and
    everything else.  An array is known by what its [tolist()] returns, an
    instance by its class (name and module) and its attributes. *)
Inductive pyval :=
| VScalar (a : atom)
| VList (l : list pyval)
| VTuple (l : list pyval)
| VDict (d : gmap atom pyval)
| VArray (tolist : pyval)
| VFunction (func_name module : string)
| VInstance (class_name module : string) (attrs : gmap atom pyval).

Definition KClassName : atom := AStr "__class_name__".
Definition KClassModule : atom := AStr "__class_module__".
Definition KFuncName : atom := AStr "__func_name__".
Definition KArray : atom := AStr "__array__".

(** [obj_to_dict(obj)] *)
Fixpoint obj_to_dict (obj : pyval) : pyval :=
  match obj with
  | VInstance class_name module attrs =>
      let obj_dict := obj_to_dict <$> attrs in
      let obj_dict := <[KClassName := VScalar (AStr class_name)]> obj_dict in
      let obj_dict := <[KClassModule := VScalar (AStr module)]> obj_dict in
      VDict obj_dict
  | VFunction func_name module =>
      VDict (<[KClassModule := VScalar (AStr module)]>
               {[ KFuncName := VScalar (AStr func_name) ]})
  | VDict d => VDict (obj_to_dict <$> d)
  | VList l | VTuple l => VList (map obj_to_dict l)
  | VArray tolist => VDict {[ KArray := tolist ]}
  | VScalar a => VScalar a
  end.

Section DictToObj.

(** The order in which a dict enumerates its keys. *)
Variable dict_iter : gmap atom pyval -> list atom.

(** [mod = __import__(module, fromlist=[name]); eval("mod." + name)]: the
    exception it raises, if any.  What it finds under a name is taken to
    be the class or function of that name. *)
Variable import_eval : pyval -> pyval -> option exn.

(** [object.__new__(cls)] for the class found under [name] in [module]: the
    exception it raises, if any.  In Python 2, for which these sources are
    written, it is a [TypeError] for an old-style class (one that does not
    derive from [object]) and for a class derived from a built-in type. *)
Variable object_new : string -> string -> option exn.

(** [{k: f(d[k]) for k in d}], given the calls [f(d[k])] by key: the calls
    are made in the order of the keys, and the first that raises ends the
    comprehension. *)
Definition comprehension (keys : list atom) (calls : gmap atom (result pyval))
  : result (gmap atom pyval) :=
  items <- mapM (fun k => match calls !! k with
                          | Some r => v <- r ;; Ok (k, v)
                          | None => Raise KeyError
                          end) keys ;;
  Ok (list_to_map items).

(** The object imported under [name] from [module]; a module and a name
    that [import_eval] has accepted are strings. *)
Definition named (name module : pyval) (make : string -> string -> result pyval)
  : result pyval :=
  match import_eval module name with
  | Some e => Raise e
  | None =>
      match name, module with
      | VScalar (AStr n), VScalar (AStr m) => make n m
      | _, _ => Raise TypeError
      end
  end.

(** [obj = object.__new__(cls); obj.__dict__.update(obj_dict)] for the
    class [name] of [module]: a new instance with these attributes, when
    [object.__new__] accepts the class. *)
Definition new_instance (attrs : gmap atom pyval) (name module : string)
  : result pyval :=
  match object_new name module with
  | Some e => Raise e
  | None => Ok (VInstance name module attrs)
  end.

(** [dict_to_obj(obj_dict)]; [d.pop(k)] is the lookup, then the dict
    without [k].  The new instance gets the converted entries as its
    [__dict__]. *)
Fixpoint dict_to_obj (obj_dict : pyval) : result pyval :=
  match obj_dict with
  | VDict d =>
      let calls := dict_to_obj <$> d in
      match d !! KClassName with
      | Some cls_name =>
          let d := delete KClassName d in
          match d !! KClassModule with
          | None => Raise KeyError
          | Some cls_module =>
              let d := delete KClassModule d in
              attrs <- comprehension (dict_iter d) calls ;;
              named cls_name cls_module (new_instance attrs)
          end
      | None =>
          match d !! KFuncName with
          | Some func_name =>
              let d := delete KFuncName d in
              match d !! KClassModule with
              | None => Raise KeyError
              | Some func_module =>
                  named func_name func_module (fun n m => Ok (VFunction n m))
              end
          | None =>
              match d !! KArray with
              | Some tolist => Ok (VArray tolist)
              | None =>
                  items <- comprehension (dict_iter d) calls ;;
                  Ok (VDict items)
              end
          end
      end
  | VList l | VTuple l =>
      items <- mapM id (map dict_to_obj l) ;;
      Ok (VList items)
  | VScalar _ | VArray _ | VFunction _ _ | VInstance _ _ _ => Ok obj_dict
  end.

(** The objects that the properties below show to survive
    [dict_to_obj(obj_to_dict(obj))]: no tuple, no dict that holds one of
    the keys by which [dict_to_obj] recognises an object, a function or an
    array, no attribute named as one of the two keys that [obj_to_dict]
    adds, classes and functions that can be imported under their names,
    and classes of which [object.__new__] makes instances. *)
Fixpoint portable (v : pyval) : bool :=
  match v with
  | VScalar _ | VArray _ => true
  | VTuple _ => false
  | VList l => forallb portable l
  | VDict d =>
      bool_decide (d !! KClassName = None /\ d !! KFuncName = None /\ d !! KArray = None)
      && bool_decide (map_Forall (fun _ b => b = true) (portable <$> d))
  | VFunction func_name module =>
      bool_decide (import_eval (VScalar (AStr module)) (VScalar (AStr func_name)) = None)
  | VInstance class_name module attrs =>
      bool_decide (import_eval (VScalar (AStr module)) (VScalar (AStr class_name)) = None)
      && bool_decide (object_new class_name module = None)
      && bool_decide (attrs !! KClassName = None /\ attrs !! KClassModule = None)
      && bool_decide (map_Forall (fun _ b => b = true) (portable <$> attrs))
  end.

End DictToObj.

(** The number of constructors of a value, on which the properties are
    proved by induction. *)
Fixpoint size (v : pyval) : nat :=
  match v with
  | VScalar _ | VFunction _ _ => 1
  | VList l | VTuple l => S (list_sum (map size l))
  | VDict d | VInstance _ _ d => S (map_fold (fun _ x acc => size x + acc)%nat 0%nat d)
  | VArray t => S (size t)
  end.

(** *** Sample objects, for running the model *)

(** One enumeration order of the keys of a dict. *)
Definition key_order (d : gmap atom pyval) : list atom := (map_to_list d).*1.

(** An environment in which every name can be imported. *)
Definition importable (module name : pyval) : option exn := None.

(** An environment in which the classes are those of [epac.stores], which
    derive from [object], and every other class is an old-style class. *)
Definition new_style (name module : string) : option exn :=
  if decide (module = "epac.stores") then None else Some TypeError.

(** A [StoreMem] (a class that derives from [object]) whose [dict] binds
    one key to a list. *)
Definition sample_instance : pyval :=
  VInstance "StoreMem" "epac.stores"
    {[ AStr "dict" :=
         VDict {[ AStr "k" := VList [VScalar (AInt 2); VScalar ANone] ]} ]}.

(** An instance of the class [Node2Wrap] of the example in [wrappers.py],
    which is an old-style class. *)
Definition old_style_instance : pyval :=
  VInstance "Node2Wrap" "wrappers" {[ AStr "a" := VScalar (AInt 1) ]}.

End Conversion.

(** ** [epac/workflow/splitters.py]: slicers and splitters *)

Module Splitters.
Import Py.

(** *** The data flow *)

(** An array is the list of its sub-arrays along the first axis, so
    [shape[0]] is the length of that list.  An array without a first axis
    (one whose [shape] is empty) is not a value of this model. *)
Definition row := list Z.

(** A value of the flow: an array (it has a [shape]) or any other object. *)
Inductive value :=
| Array (rows : list row)
| NonArray (o : pyobj).

(** The keyword arguments [**Xy]: a dict, kept in the order in which
    [Xy.keys()] lists it. *)
Definition DataFlow := list (string * value).

Definition flow_keys (Xy : DataFlow) : list string := map fst Xy.

(** [Xy[k]] *)
Fixpoint flow_get (Xy : DataFlow) (k : string) : result value :=
  match Xy with
  | [] => Raise KeyError
  | (k', v) :: rest => if decide (k = k') then Ok v else flow_get rest k
  end.

(** [k in Xy] *)
Definition flow_contains (Xy : DataFlow) (k : string) : bool :=
  bool_decide (k ∈ flow_keys Xy).

(** [Xy[k] = v] *)
Fixpoint flow_set (Xy : DataFlow) (k : string) (v : value) : DataFlow :=
  match Xy with
  | [] => [(k, v)]
  | (k', v') :: rest =>
      if decide (k = k') then (k', v) :: rest else (k', v') :: flow_set rest k v
  end.

(** [a[i]] on the first axis, with Python's negative indices. *)
Definition row_at (rows : list row) (i : Z) : result row :=
  let m := Z.of_nat (length rows) in
  let j := if (i <? 0)%Z then (i + m)%Z else i in
  if ((0 <=? j)%Z && (j <? m)%Z)%bool then
    match rows !! Z.to_nat j with
    | Some r => Ok r
    | None => Raise IndexError
    end
  else Raise IndexError.

(** [a[indices]] for a list of integers: the rows at these indices. *)
Fixpoint take_rows (rows : list row) (indices : list Z) : result (list row) :=
  match indices with
  | [] => Ok []
  | i :: rest =>
      r <- row_at rows i ;;
      rs <- take_rows rows rest ;;
      Ok (r :: rs)
  end.

(** [v[indices]]: only arrays can be indexed by a list. *)
Definition fancy_index (v : value) (indices : list Z) : result value :=
  match v with
  | Array rows => rs <- take_rows rows indices ;; Ok (Array rs)
  | NonArray _ => Raise TypeError
  end.

(** *** [class RowSlicer] *)

(** [self.slices]: unset, one index list, or index lists by role. *)
Inductive slices_t :=
| SlicesNone
| SlicesList (l : list Z)
| SlicesDict (d : gmap string (list Z)).

(** [self.apply_on]: [None], one name, or a list of names. *)
Inductive apply_on_t :=
| ApplyNone
| ApplyStr (s : string)
| ApplyList (l : list string).

(** References to other nodes of the tree. *)
Definition loc := positive.

Record RowSlicer := {
  signature_name : string;
  nb : Z;                   (* signature_args["nb"] *)
  slices : slices_t;
  n : nat;
  apply_on : apply_on_t;
  children : list loc
}.

(** [RowSlicer.__init__(signature_name, nb, apply_on)] *)
Definition RowSlicer_init (signature_name : string) (nb : Z)
    (apply_on : apply_on_t) : RowSlicer :=
  {| signature_name := signature_name; nb := nb; slices := SlicesNone;
     n := 0; apply_on := apply_on; children := [] |}.

(** [Slicer.set_nb] *)
Definition set_nb (self : RowSlicer) (nb : Z) : RowSlicer :=
  {| signature_name := signature_name self; nb := nb; slices := slices self;
     n := n self; apply_on := apply_on self; children := children self |}.

(** [RowSlicer.set_sclices]: index arrays are stored as lists, and [n] is
    the number of indices.  [len(None)] is a [TypeError]. *)
Definition set_sclices (self : RowSlicer) (slices : slices_t) : result RowSlicer :=
  match slices with
  | SlicesNone => Raise TypeError
  | SlicesDict d =>
      Ok {| signature_name := signature_name self; nb := nb self;
            slices := SlicesDict d;
            n := map_fold (fun _ v acc => (length v + acc)%nat) 0%nat d;
            apply_on := apply_on self; children := children self |}
  | SlicesList l =>
      Ok {| signature_name := signature_name self; nb := nb self;
            slices := SlicesList l; n := length l;
            apply_on := apply_on self; children := children self |}
  end.

(** [not self.slices]: [None], an empty list and an empty dict are false. *)
Definition slices_unset (s : slices_t) : bool :=
  match s with
  | SlicesNone => true
  | SlicesList l => bool_decide (l = [])
  | SlicesDict d => bool_decide (d = ∅)
  end.

(** [not sample_set] *)
Definition no_sample_set (sample_set : option string) : bool :=
  match sample_set with
  | None => true
  | Some s => bool_decide (s = EmptyString)
  end.

(** [data_keys]: a list (that of [apply_on] itself, or a fresh one made by
    [Xy.keys()]) or a [str], whose items are its characters. *)
Inductive data_keys_t :=
| KeysOwn (l : list string)     (* self.apply_on, a list *)
| KeysStr (s : string)          (* self.apply_on, a str *)
| KeysFresh (l : list string).  (* Xy.keys() *)

(** [self.apply_on if self.apply_on else Xy.keys()] *)
Definition data_keys_of (self : RowSlicer) (Xy : DataFlow) : data_keys_t :=
  match apply_on self with
  | ApplyNone | ApplyStr EmptyString | ApplyList [] => KeysFresh (flow_keys Xy)
  | ApplyStr s => KeysStr s
  | ApplyList l => KeysOwn l
  end.

Definition chars (s : string) : list string :=
  map (fun c => String c EmptyString) (list_ascii_of_string s).

(** [not hasattr(Xy[k], "shape") or Xy[k].shape[0] != self.n] *)
Definition wrong_dimension (self : RowSlicer) (Xy : DataFlow) (k : string)
  : result bool :=
  v <- flow_get Xy k ;;
  Ok (match v with
      | Array rows => negb (length rows =? n self)%nat
      | NonArray _ => true
      end).

(** [list.remove(x)]: drops the first occurrence, [None] when there is none. *)
Fixpoint list_remove (x : string) (l : list string) : option (list string) :=
  match l with
  | [] => None
  | y :: l' => if decide (x = y) then Some l' else (y ::.) <$> list_remove x l'
  end.

Lemma list_remove_length x l l' :
  list_remove x l = Some l' -> length l = S (length l').
Proof.
  revert l'. induction l as [|y l IH]; intros l'; simpl; [done|].
  case_decide; [by intros [= <-]|].
  destruct (list_remove x l) eqn:E; simpl; [|done].
  intros [= <-]. simpl. f_equal. by apply IH.
Qed.

(** The first loop of [transform] over a list:
    [[
      for k in data_keys:
          if not hasattr(Xy[k], "shape") or Xy[k].shape[0] != self.n:
              data_keys.remove(k)
    ]]
    The list iterator holds the index [i] of the next item and reads the
    list as it is at that moment; the loop ends when [i] is past the end.
    The result is the list as the loop leaves it and the exception that
    stopped it, if any. *)
Equations? filter_loop (self : RowSlicer) (Xy : DataFlow) (i : nat)
    (data_keys : list string) : list string * option exn
  by wf (length data_keys - i)%nat lt :=
  filter_loop self Xy i data_keys with inspect (data_keys !! i) => {
    | exist _ None _ => (data_keys, None)
    | exist _ (Some k) Hk with wrong_dimension self Xy k => {
      | Raise e => (data_keys, Some e)
      | Ok false => filter_loop self Xy (S i) data_keys
      | Ok true with inspect (list_remove k data_keys) => {
        | exist _ None _ => (data_keys, Some (ValueError "list.remove(x): x not in list"))
        | exist _ (Some l') Hl => filter_loop self Xy (S i) l' } } }.
Proof.
  - apply lookup_lt_Some in Hk. apply list_remove_length in Hl. lia.
  - apply lookup_lt_Some in Hk. lia.
Qed.

(** The same loop over a [str]: a [str] has no [remove]. *)
Fixpoint filter_str (self : RowSlicer) (Xy : DataFlow) (ks : list string)
  : option exn :=
  match ks with
  | [] => None
  | k :: rest =>
      match wrong_dimension self Xy k with
      | Raise e => Some e
      | Ok true => Some AttributeError
      | Ok false => filter_str self Xy rest
      end
  end.

(** The indices one pass of the second loop uses. *)
Definition indices_of (self : RowSlicer) (sample_set : option string)
  : result (list Z) :=
  match slices self with
  | SlicesDict d =>
      if no_sample_set sample_set then
        Raise (ValueError "sample_set should be provided")
      else
        match d !! default EmptyString sample_set with
        | Some indices => Ok indices
        | None => Raise KeyError
        end
  | SlicesList l => Ok l
  | SlicesNone => Raise TypeError   (* not reached: transform stops before *)
  end.

(** The second loop of [transform]:
    [[
      for data_key in data_keys:
          if not data_key in Xy: continue
          ...
          Xy[data_key] = Xy[data_key][indices]
    ]] *)
Fixpoint slice_loop (self : RowSlicer) (sample_set : option string)
    (data_keys : list string) (Xy : DataFlow) : result DataFlow :=
  match data_keys with
  | [] => Ok Xy
  | data_key :: rest =>
      if negb (flow_contains Xy data_key) then
        slice_loop self sample_set rest Xy
      else
        indices <- indices_of self sample_set ;;
        v <- flow_get Xy data_key ;;
        v' <- fancy_index v indices ;;
        slice_loop self sample_set rest (flow_set Xy data_key v')
  end.

Definition set_apply_on (self : RowSlicer) (a : apply_on_t) : RowSlicer :=
  {| signature_name := signature_name self; nb := nb self;
     slices := slices self; n := n self; apply_on := a;
     children := children self |}.

(** The first loop of [transform] on whatever [data_keys] is: the slicer
    afterwards (removing from [data_keys] changes [self.apply_on] when the
    two are the same list) and the names the second loop will visit. *)
Definition select_keys (self : RowSlicer) (Xy : DataFlow)
  : RowSlicer * result (list string) :=
  match data_keys_of self Xy with
  | KeysStr s =>
      match filter_str self Xy (chars s) with
      | Some e => (self, Raise e)
      | None => (self, Ok (chars s))
      end
  | KeysOwn l =>
      let '(l', e) := filter_loop self Xy 0 l in
      let self' := set_apply_on self (ApplyList l') in
      match e with
      | Some e => (self', Raise e)
      | None => (self', Ok l')
      end
  | KeysFresh l =>
      let '(l', e) := filter_loop self Xy 0 l in
      match e with
      | Some e => (self, Raise e)
      | None => (self, Ok l')
      end
  end.

Section RowSlicerMethods.

(** [BaseNode.top_down(func_name, recursion, **Xy)], which runs the named
    method on the node and then on its children, is not part of these
    sources. *)
Variable top_down :
  RowSlicer -> string -> bool -> DataFlow -> RowSlicer * result DataFlow.

(** [RowSlicer.transform(recursion=True, sample_set=None, **Xy)]: the
    slicer afterwards and the flow returned. *)
Definition transform (self : RowSlicer) (recursion : bool)
    (sample_set : option string) (Xy : DataFlow) : RowSlicer * result DataFlow :=
  if slices_unset (slices self) then
    (self, Raise (ValueError "Slicing hasn't been initialized"))
  else if recursion then
    top_down self "transform" recursion Xy
  else
    match select_keys self Xy with
    | (self', Raise e) => (self', Raise e)
    | (self', Ok data_keys) => (self', slice_loop self' sample_set data_keys Xy)
    end.

(** [RowSlicer.fit]: [transform] with [sample_set="train"]. *)
Definition fit (self : RowSlicer) (recursion : bool) (Xy : DataFlow)
  : RowSlicer * result DataFlow :=
  if recursion then top_down self "fit" recursion Xy
  else transform self false (Some "train") Xy.

(** [RowSlicer.predict]: [transform] with [sample_set="test"]. *)
Definition predict (self : RowSlicer) (recursion : bool) (Xy : DataFlow)
  : RowSlicer * result DataFlow :=
  if recursion then top_down self "predict" recursion Xy
  else transform self false (Some "test") Xy.

End RowSlicerMethods.

(** *** [class SlicerVirtualList] and [class CV] *)

(** The nodes live in a heap; only the slicers' own state is kept in it,
    other nodes are known by their address. *)
Abbreviation heap := (gmap loc RowSlicer).

(** [SlicerVirtualList]: [__init__] stores the slicer as [self.sclicer];
    [self.slicer], which [__getitem__] reads, exists once [append] has
    been called.  The parent is the [CV] that owns the list. *)
Record SlicerVirtualList := {
  size : Z;
  sclicer : loc;
  slicer : option loc
}.

Definition SlicerVirtualList_init (size : Z) (slicer : loc) : SlicerVirtualList :=
  {| size := size; sclicer := slicer; slicer := None |}.

(** [SlicerVirtualList.append] *)
Definition append (self : SlicerVirtualList) (slicer : loc) : SlicerVirtualList :=
  {| size := size self; sclicer := sclicer self; slicer := Some slicer |}.

(** [len(children)]: [__len__] returns [self.size]; Python refuses a
    negative length. *)
Definition len (self : SlicerVirtualList) : result Z :=
  if (size self <? 0)%Z then Raise (ValueError "__len__() should return >= 0")
  else Ok (size self).

(** [class CV]; [_sclices] is the fold generator that [CV.transform] stores
    once it has seen [y], listed as its (train, test) index pairs. *)
Record CV := {
  n_folds : Z;
  random_state : option Z;
  cv_type : string;
  cv_children : SlicerVirtualList;
  _sclices : option (list (list Z * list Z))
}.

(** Modelled from the spec: [BaseNode.add_child] is not in these sources; a
    node "attaches" a child by appending it to its [children] (and
    becoming its parent). *)
Definition add_child (self : RowSlicer) (child : loc) : RowSlicer :=
  {| signature_name := signature_name self; nb := nb self;
     slices := slices self; n := n self; apply_on := apply_on self;
     children := children self ++ [child] |}.

(** [CV.__init__(node, n_folds, random_state, cv_type)]: one [RowSlicer] is
    allocated, and the subtree (the node, wrapped in an [Estimator] when it
    is no [BaseNode]) is attached below it. *)
Definition CV_init (subtree : loc) (n_folds : Z) (random_state : option Z)
    (cv_type : string) (h : heap) : CV * heap :=
  let l := fresh (dom h) in
  let slicer := RowSlicer_init "CV" 0 ApplyNone in
  let children := SlicerVirtualList_init n_folds l in
  let children := append children l in          (* self.add_child(slicer) *)
  let slicer := add_child slicer subtree in
  ({| n_folds := n_folds; random_state := random_state; cv_type := cv_type;
      cv_children := children; _sclices := None |},
   <[l := slicer]> h).

(** [self._sclices = ...], the one effect of [CV.transform] on the [CV]
    (the fold generators themselves are scikit-learn's). *)
Definition set__sclices (self : CV) (folds : option (list (list Z * list Z))) : CV :=
  {| n_folds := n_folds self; random_state := random_state self;
     cv_type := cv_type self; cv_children := cv_children self;
     _sclices := folds |}.

(** The loop of [move_to_child]:
    [[
      cpt = 0
      for train, test in self._sclices:
          if cpt == nb: break
          cpt += 1
    ]]
    It gives the pair that [train, test] hold after the loop, if they were
    ever bound. *)
Fixpoint fold_at (cpt nb : Z) (folds : list (list Z * list Z))
    (bound : option (list Z * list Z)) : option (list Z * list Z) :=
  match folds with
  | [] => bound
  | f :: rest => if (cpt =? nb)%Z then Some f else fold_at (cpt + 1) nb rest (Some f)
  end.

(** [CV.move_to_child(nb, slicer)]: the slicer object is changed in place
    and its address is returned. *)
Definition move_to_child (self : CV) (nb : Z) (slicer : loc) (h : heap)
  : heap * result loc :=
  match h !! slicer with
  | None => (h, Raise AttributeError)    (* no such object *)
  | Some s =>
      let s := set_nb s nb in
      match _sclices self with
      | None => (<[slicer := s]> h, Ok slicer)
      | Some folds =>
          match fold_at 0 nb folds None with
          | None => (<[slicer := s]> h, Raise UnboundLocalError)
          | Some (train, test) =>
              match set_sclices s (SlicesDict {[ "train" := train; "test" := test ]}) with
              | Ok s' => (<[slicer := s']> h, Ok slicer)
              | Raise e => (<[slicer := s]> h, Raise e)
              end
          end
      end
  end.

(** [self.children[i]], that is [SlicerVirtualList.__getitem__(i)] with the
    [CV] as parent. *)
Definition getitem (self : CV) (i : Z) (h : heap) : heap * result loc :=
  if (size (cv_children self) <=? i)%Z then (h, Raise IndexError)
  else
    match slicer (cv_children self) with
    | None => (h, Raise AttributeError)
    | Some l => move_to_child self i l h
    end.

(** *** Signatures of a slicer *)

(** The text [( * )] without the blank. *)
Definition star : string :=
  String "("%char (String "*"%char (String ")"%char EmptyString)).

(** [Slicer.get_signature(nb=1)]: the primary signature ([nb is 1]) shows
    the number of the fold, the secondary one does not.  [str] of an
    integer is its decimal notation. *)
Definition get_signature (self : RowSlicer) : Z -> string :=
  let self_nb := nb self in
  fun nb =>
    if (nb =? 1)%Z then
      signature_name self +:+ "(nb=" +:+ pretty self_nb +:+ ")"
    else signature_name self +:+ star.

(** *** Iterating over the children of a [CV] *)

(** [SlicerVirtualList.__iter__], run to its end as [list(children)] does:
    [[
      for i in xrange(self.size):
          yield self.__getitem__(i)
    ]]
    from [i] on, for [count] more items. *)
Fixpoint iter_from (self : CV) (i : Z) (count : nat) (h : heap)
  : heap * result (list loc) :=
  match count with
  | O => (h, Ok [])
  | S count =>
      match getitem self i h with
      | (h, Raise e) => (h, Raise e)
      | (h, Ok item) =>
          match iter_from self (i + 1) count h with
          | (h, Raise e) => (h, Raise e)
          | (h, Ok items) => (h, Ok (item :: items))
          end
      end
  end.

Definition iter (self : CV) (h : heap) : heap * result (list loc) :=
  iter_from self 0 (Z.to_nat (size (cv_children self))) h.

(** *** [class CV]: the node's own step *)

Section Folds.

(** The fold generators of scikit-learn, listed as their (train, test)
    pairs; a constructor may refuse its arguments. *)
Variable StratifiedKFold : value -> Z -> result (list (list Z * list Z)).
Variable KFold : nat -> Z -> option Z -> result (list (list Z * list Z)).
Variable LeaveOneOut : nat -> result (list (list Z * list Z)).

(** [BaseNode.top_down] on a [CV], which goes through its children. *)
Variable CV_top_down :
  CV -> string -> bool -> DataFlow -> heap -> (CV * heap) * result DataFlow.

(** [v.shape[0]] *)
Definition shape0 (v : value) : result nat :=
  match v with
  | Array rows => Ok (length rows)
  | NonArray _ => Raise AttributeError
  end.

(** The folds that [CV.transform] stores: none for a [cv_type] it does not
    know. *)
Definition make_folds (self : CV) (Xy : DataFlow)
  : result (option (list (list Z * list Z))) :=
  if decide (cv_type self = "stratified") then
    if (n_folds self =? 0)%Z then Raise (ValueError "n_folds should be set")
    else
      y <- flow_get Xy "y" ;;
      folds <- StratifiedKFold y (n_folds self) ;;
      Ok (Some folds)
  else if decide (cv_type self = "random") then
    if (n_folds self =? 0)%Z then Raise (ValueError "n_folds should be set")
    else
      y <- flow_get Xy "y" ;;
      n <- shape0 y ;;
      folds <- KFold n (n_folds self) (random_state self) ;;
      Ok (Some folds)
  else if decide (cv_type self = "loo") then
    y <- flow_get Xy "y" ;;
    n <- shape0 y ;;
    folds <- LeaveOneOut n ;;
    Ok (Some folds)
  else Ok None.

(** [CV.transform(recursion=True, Xy)] *)
Definition CV_transform (self : CV) (recursion : bool) (Xy : DataFlow) (h : heap)
  : (CV * heap) * result DataFlow :=
  if recursion then CV_top_down self "transform" recursion Xy h
  else if negb (flow_contains Xy "y") then
    ((self, h), Raise (ValueError "y should be provided"))
  else
    match make_folds self Xy with
    | Raise e => ((self, h), Raise e)
    | Ok None => ((self, h), Ok Xy)
    | Ok (Some folds) => ((set__sclices self (Some folds), h), Ok Xy)
    end.

(** [CV.fit(recursion=True, Xy)] *)
Definition CV_fit (self : CV) (recursion : bool) (Xy : DataFlow) (h : heap)
  : (CV * heap) * result DataFlow :=
  if recursion then CV_top_down self "fit" recursion Xy h
  else CV_transform self false Xy h.

End Folds.

(** *** [class Perms] *)

(** [_sclices] is the permutation generator that [Perms.transform] stores,
    listed as its permutations. *)
Record Perms := {
  n_perms : Z;
  permute : string;
  perms_random_state : option Z;
  perms_children : SlicerVirtualList;
  perms__sclices : option (list (list Z))
}.

(** [Perms.__init__(node, n_perms, permute, random_state)]: as for [CV],
    with a slicer that applies to [permute]. *)
Definition Perms_init (subtree : loc) (n_perms : Z) (permute : string)
    (random_state : option Z) (h : heap) : Perms * heap :=
  let l := fresh (dom h) in
  let slicer := RowSlicer_init "Perm" 0 (ApplyStr permute) in
  let children := SlicerVirtualList_init n_perms l in
  let children := append children l in
  let slicer := add_child slicer subtree in
  ({| n_perms := n_perms; permute := permute; perms_random_state := random_state;
      perms_children := children; perms__sclices := None |},
   <[l := slicer]> h).

(** The loop of [Perms.move_to_child]:
    [[
      cpt = 0
      for perm in self._sclices:
          if cpt == nb: break
          cpt += 1
    ]] *)
Fixpoint perm_at (cpt nb : Z) (perms : list (list Z)) (bound : option (list Z))
  : option (list Z) :=
  match perms with
  | [] => bound
  | p :: rest => if (cpt =? nb)%Z then Some p else perm_at (cpt + 1) nb rest (Some p)
  end.

(** [Perms.move_to_child(nb, slicer)] *)
Definition Perms_move_to_child (self : Perms) (nb : Z) (slicer : loc) (h : heap)
  : heap * result loc :=
  match h !! slicer with
  | None => (h, Raise AttributeError)
  | Some s =>
      let s := set_nb s nb in
      match perms__sclices self with
      | None => (<[slicer := s]> h, Ok slicer)
      | Some perms =>
          match perm_at 0 nb perms None with
          | None => (<[slicer := s]> h, Raise UnboundLocalError)
          | Some perm =>
              match set_sclices s (SlicesList perm) with
              | Ok s' => (<[slicer := s']> h, Ok slicer)
              | Raise e => (<[slicer := s]> h, Raise e)
              end
          end
      end
  end.

(** [self.children[i]] of a [Perms]. *)
Definition Perms_getitem (self : Perms) (i : Z) (h : heap) : heap * result loc :=
  if (size (perms_children self) <=? i)%Z then (h, Raise IndexError)
  else
    match slicer (perms_children self) with
    | None => (h, Raise AttributeError)
    | Some l => Perms_move_to_child self i l h
    end.

(** *** Sample objects, for running the model *)

(** A [top_down] for a node that has no children and no step of its own. *)
Definition no_recursion (self : RowSlicer) (func_name : string)
    (recursion : bool) (Xy : DataFlow) : RowSlicer * result DataFlow :=
  (self, Ok Xy).

(** A slicer set to the rows [0] and [1]. *)
Definition two_rows : RowSlicer :=
  {| signature_name := "Perm"; nb := 0; slices := SlicesList [0; 1]%Z; n := 2;
     apply_on := ApplyNone; children := [] |}.


(** A slicer of two rows that applies to the entry named [target]. *)
Definition target_rows : RowSlicer :=
  {| signature_name := "Perm"; nb := 0; slices := SlicesList [1; 0]%Z; n := 2;
     apply_on := ApplyStr "target"; children := [] |}.

(** A slicer of two rows that applies to the entries listed, here [X]. *)
Definition listed_rows : RowSlicer :=
  {| signature_name := "Perm"; nb := 0; slices := SlicesList [1; 0]%Z; n := 2;
     apply_on := ApplyList ["X"]; children := [] |}.

(** Leave-one-out on [n] rows: fold [i] tests row [i] and trains on the
    others. *)
Definition leave_one_out (n : nat) : result (list (list Z * list Z)) :=
  let rows := map Z.of_nat (seq 0 n) in
  Ok (map (fun i => (filter (fun j => j <> i) rows, [i])) rows).

(** A [CV] of three folds over the subtree at address [1], in an empty
    heap, and the same once two folds are cached. *)
Definition sample_cv : CV := (CV_init 1%positive 3 None "loo" ∅).1.

Definition sample_heap : heap := (CV_init 1%positive 3 None "loo" ∅).2.

Definition sample_cv_cached : CV :=
  set__sclices sample_cv (Some [([1], [0]); ([0], [1])]%Z).

(** A [Perms] of two permutations of [y], both cached. *)
Definition sample_perms : Perms :=
  {| n_perms := 2; permute := "y"; perms_random_state := None;
     perms_children := perms_children (Perms_init 1%positive 2 "y" None ∅).1;
     perms__sclices := Some [[1; 0]; [0; 1]]%Z |}.

(** A [top_down] for a [CV] whose children do nothing. *)
Definition no_recursion_CV (self : CV) (func_name : string) (recursion : bool)
    (Xy : DataFlow) (h : heap) : (CV * heap) * result DataFlow :=
  ((self, h), Ok Xy).

(** Fold generators that refuse every input, for the examples that do not
    reach them. *)
Definition no_StratifiedKFold (y : value) (n_folds : Z)
  : result (list (list Z * list Z)) := Raise TypeError.

Definition no_KFold (n : nat) (n_folds : Z) (random_state : option Z)
  : result (list (list Z * list Z)) := Raise TypeError.

End Splitters.

(** ** [epac/workflow/estimators.py]: estimator wrappers *)

Module Estimators.
Import Py.
Import Splitters (value, Array, NonArray, DataFlow, flow_get, flow_set, flow_contains).

(** Modelled from the spec: [epac.utils.train_test_merge] is not in these
    sources; the example in [epac/workflow/wrappers.py] shows it:
    [train_test_merge(dict(x=1, y=2), dict(x=33, y=44))] is
    [{'x/train': 1, 'y/train': 2, 'x/test': 33, 'y/test': 44}]. *)
Definition train_test_merge (Xy_train Xy_test : DataFlow) : DataFlow :=
  map (fun kv => (kv.1 +:+ "/train", kv.2)) Xy_train ++
  map (fun kv => (kv.1 +:+ "/test", kv.2)) Xy_test.

(** [Xy.update(Xy_out)] *)
Definition flow_update (Xy Xy_out : DataFlow) : DataFlow :=
  fold_left (fun acc kv => flow_set acc kv.1 kv.2) Xy_out Xy.

Section Wrappers.

(** The wrapped estimator is any object with [fit], [predict] and
    [transform]: its state, what its methods return and what they do to it
    are left open.  A call returns the estimator as the call leaves it. *)
Variable estimator : Type.
Variable prediction : Type.
Variable est_fit : estimator -> DataFlow -> estimator * option exn.
Variable est_predict : estimator -> DataFlow -> estimator * result prediction.
Variable est_transform : estimator -> DataFlow -> estimator * result prediction.

(** [conf.KW_SPLIT_TRAIN_TEST] and the helpers of [epac.utils] are not in
    these sources. *)
Variable KW_SPLIT_TRAIN_TEST : string.
Variable train_test_split : DataFlow -> result (DataFlow * DataFlow).
Variable _sub_dict : DataFlow -> list string -> result DataFlow.
Variable _as_dict : prediction -> list string -> result DataFlow.

(** The calls made on the wrapped estimator, with their keyword arguments. *)
Inductive call :=
| Fit (kwargs : DataFlow)
| Predict (kwargs : DataFlow)
| Transform (kwargs : DataFlow).

(** The estimator and the calls it has received so far. *)
Record world := { wrapped : estimator; calls : list call }.

(** Code that calls the estimator and may raise. *)
Definition M (A : Type) : Type := ST world A.

(** [self.estimator.fit(kwargs)] *)
Definition call_fit (kwargs : DataFlow) : M unit :=
  fun w =>
    let '(e, r) := est_fit (wrapped w) kwargs in
    ({| wrapped := e; calls := calls w ++ [Fit kwargs] |},
     match r with Some x => Raise x | None => Ok () end).

(** [self.estimator.predict(kwargs)] *)
Definition call_predict (kwargs : DataFlow) : M prediction :=
  fun w =>
    let '(e, r) := est_predict (wrapped w) kwargs in
    ({| wrapped := e; calls := calls w ++ [Predict kwargs] |}, r).

(** [self.estimator.transform(kwargs)] *)
Definition call_transform (kwargs : DataFlow) : M prediction :=
  fun w =>
    let '(e, r) := est_transform (wrapped w) kwargs in
    ({| wrapped := e; calls := calls w ++ [Transform kwargs] |}, r).

(** [class LeafEstimator]: the argument names fixed by [__init__]. *)
Record LeafEstimator := {
  in_args_fit : list string;
  in_args_predict : list string;
  out_args_predict : list string
}.

(** [LeafEstimator.transform(Xy)] *)
Definition transform (self : LeafEstimator) (Xy : DataFlow) : M DataFlow :=
  if flow_contains Xy KW_SPLIT_TRAIN_TEST then
    split <~ lift (train_test_split Xy) ;;
    let '(Xy_train, Xy_test) := split in
    kw <~ lift (_sub_dict Xy_train (in_args_fit self)) ;;
    _ <~ call_fit kw ;;
    kw <~ lift (_sub_dict Xy_train (in_args_predict self)) ;;
    y <~ call_predict kw ;;
    Xy_out_tr <~ lift (_as_dict y (out_args_predict self)) ;;
    kw <~ lift (_sub_dict Xy_test (in_args_predict self)) ;;
    y <~ call_predict kw ;;
    Xy_out_te <~ lift (_as_dict y (out_args_predict self)) ;;
    ret (train_test_merge Xy_out_tr Xy_out_te)
  else
    kw <~ lift (_sub_dict Xy (in_args_fit self)) ;;
    _ <~ call_fit kw ;;
    kw <~ lift (_sub_dict Xy (in_args_predict self)) ;;
    y <~ call_predict kw ;;
    Xy_out <~ lift (_as_dict y (out_args_predict self)) ;;
    ret Xy_out.

(** [class InternalEstimator] *)
Record InternalEstimator := {
  internal_in_args_fit : list string;
  in_args_transform : list string
}.

(** [InternalEstimator.transform(Xy)]: the outputs are written back into
    the flow. *)
Definition internal_transform (self : InternalEstimator) (Xy : DataFlow)
  : M DataFlow :=
  if flow_contains Xy KW_SPLIT_TRAIN_TEST then
    split <~ lift (train_test_split Xy) ;;
    let '(Xy_train, Xy_test) := split in
    kw <~ lift (_sub_dict Xy_train (internal_in_args_fit self)) ;;
    _ <~ call_fit kw ;;
    kw <~ lift (_sub_dict Xy_train (in_args_transform self)) ;;
    y <~ call_transform kw ;;
    Xy_out_tr <~ lift (_as_dict y (in_args_transform self)) ;;
    kw <~ lift (_sub_dict Xy_test (in_args_transform self)) ;;
    y <~ call_transform kw ;;
    Xy_out_te <~ lift (_as_dict y (in_args_transform self)) ;;
    ret (flow_update Xy (train_test_merge Xy_out_tr Xy_out_te))
  else
    kw <~ lift (_sub_dict Xy (internal_in_args_fit self)) ;;
    _ <~ call_fit kw ;;
    kw <~ lift (_sub_dict Xy (in_args_transform self)) ;;
    y <~ call_transform kw ;;
    Xy_out <~ lift (_as_dict y (in_args_transform self)) ;;
    ret (flow_update Xy Xy_out).

End Wrappers.

(** *** [class CVBestSearchRefit] *)

Section BestSearchRefit.

(** The scores of the branches, with their order (scores are floats; the
    order is that of the numbers among them). *)
Variable score : Type.
Context `{EqDecision score}.
Variable score_le : score -> score -> bool.

(** The nodes below: the [CV] that holds the search subtree, a [Pipe] of
    estimators, or something else. *)
Variable estimator : Type.
Variable cv_t : Type.
Variable pipe_t : Type.
Variable result_set : Type.

Inductive node :=
| NodeCV (cv : cv_t)
| NodePipe (p : pipe_t)
| NodeOther.

(** What [fit] calls and these sources do not hold:
    - [search cv score Xy]: [cv.fit_predict(recursion=True, Xy)] on a new
      [StoreMem], then [cv.reduce(store_results=False)], read as the list
      of [(result.key(), result[score])];
    - [key_split], from [epac.workflow.base];
    - [find_estimator nodes k]: [nodes_dict[k].estimator], the dict being
      built from [self.walk_true_nodes()];
    - [Pipe], from [epac.workflow.pipeline];
    - [pipe_fit]: [refited.fit(recursion=True, Xy)] on a new [StoreMem];
    - [summarize refited best_key]: the result set of [refited.reduce],
      with its ["key"] and ["best_params"]. *)
Variable search : cv_t -> string -> DataFlow -> result (cv_t * list (string * score)).
Variable key_split : string -> list string.
Variable find_estimator : list node -> string -> result estimator.
Variable Pipe : list estimator -> pipe_t.
Variable pipe_fit : pipe_t -> DataFlow -> result pipe_t.
Variable summarize : pipe_t -> string -> result result_set.

Record CVBestSearchRefit := {
  children : list node;
  score_name : string;            (* self.score *)
  arg_max : bool;
  saved_result_set : option result_set
}.

Definition set_children (self : CVBestSearchRefit) (children : list node)
  : CVBestSearchRefit :=
  {| children := children; score_name := score_name self;
     arg_max := arg_max self; saved_result_set := saved_result_set self |}.

(** [self.save_state(result_set, name="result_set")] *)
Definition save_state (self : CVBestSearchRefit) (rs : result_set)
  : CVBestSearchRefit :=
  {| children := children self; score_name := score_name self;
     arg_max := arg_max self; saved_result_set := Some rs |}.

(** [np.max] and [np.min] of a non-empty array. *)
Definition np_max (a : list score) : result score :=
  match a with
  | [] => Raise (ValueError "zero-size array")
  | x :: a' => Ok (fold_left (fun m y => if score_le m y then y else m) a' x)
  end.

Definition np_min (a : list score) : result score :=
  match a with
  | [] => Raise (ValueError "zero-size array")
  | x :: a' => Ok (fold_left (fun m y => if score_le y m then y else m) a' x)
  end.

(** [np.where(a == x)[0][0]]: the first index at which [a] holds [x]. *)
Definition np_where_first (a : list score) (x : score) : result nat :=
  match list_find (fun y => y = x) a with
  | Some (i, _) => Ok i
  | None => Raise IndexError
  end.

(** The choice of the best branch in [fit]:
    [[
      mean_cv = np.asarray(zip( *key_val)[1])
      mean_cv_opt = np.max(mean_cv) if self.arg_max else np.min(mean_cv)
      idx_best = np.where(mean_cv == mean_cv_opt)[0][0]
      best_key = key_val[idx_best][0]
    ]]
    [zip()] of nothing is empty, so no branch is an [IndexError]. *)
Definition best_branch (arg_max : bool) (key_val : list (string * score))
  : result (nat * string) :=
  mean_cv <- (match key_val with
              | [] => Raise IndexError
              | _ => Ok (map snd key_val)
              end) ;;
  mean_cv_opt <- (if arg_max then np_max mean_cv else np_min mean_cv) ;;
  idx_best <- np_where_first mean_cv mean_cv_opt ;;
  match key_val !! idx_best with
  | Some kv => Ok (idx_best, kv.1)
  | None => Raise IndexError
  end.

(** [CVBestSearchRefit.fit(recursion=True, Xy)] *)
Definition fit (Xy : DataFlow) : ST CVBestSearchRefit unit :=
  self <~ get ;;
  cv <~ lift (match children self with
              | [] => Raise IndexError
              | cv :: _ => Ok cv
              end) ;;
  cv <~ lift (match cv with
              | NodeCV cv => Ok cv
              | _ => Raise (ValueError "Child is not a CV")
              end) ;;
  found <~ lift (search cv (score_name self) Xy) ;;
  let '(cv, key_val) := found in
  _ <~ put (set_children self (NodeCV cv :: tail (children self))) ;;
  best <~ lift (best_branch (arg_max self) key_val) ;;
  let best_key := best.2 in
  self <~ get ;;
  estimators <~ lift (mapM (find_estimator (children self)) (key_split best_key)) ;;
  let refited := Pipe estimators in
  _ <~ put (set_children self (take 1 (children self) ++ [NodePipe refited])) ;;
  refited <~ lift (pipe_fit refited Xy) ;;
  self <~ get ;;
  _ <~ put (set_children self (take 1 (children self) ++ [NodePipe refited])) ;;
  rs <~ lift (summarize refited best_key) ;;
  self <~ get ;;
  put (save_state self rs).

End BestSearchRefit.

(** *** The constructors of the wrappers *)

Section WrapperInit.

(** What [__init__] asks of the estimator: whether it has the methods
    ([hasattr]), and the argument names of [fit] and [predict]
    ([_func_get_args_names], from [epac.utils]). *)
Variable estimator : Type.
Variable has_fit has_predict : estimator -> bool.
Variable fit_args predict_args : estimator -> list string.

(** [list(set(a).difference(b))]: the names of [a] that are not in [b],
    each once, in the order in which Python enumerates the set. *)
Variable set_difference : list string -> list string -> list string.

(** [LeafEstimator.__init__(estimator, in_args_fit=None,
    in_args_predict=None, out_args_predict=None)] *)
Definition LeafEstimator_init (e : estimator)
    (in_args_fit in_args_predict out_args_predict : option (list string))
  : result LeafEstimator :=
  if negb (has_fit e) || negb (has_predict e) then
    Raise (ValueError "estimator should implement fit and predict")
  else
    let in_args_fit := default (fit_args e) in_args_fit in
    let in_args_predict := default (predict_args e) in_args_predict in
    Ok {| in_args_fit := in_args_fit;
          in_args_predict := in_args_predict;
          out_args_predict :=
            match out_args_predict with
            | None =>
                let fit_predict_diff := set_difference in_args_fit in_args_predict in
                if (0 <? length fit_predict_diff)%nat then fit_predict_diff
                else in_args_predict
            | Some out_args_predict => out_args_predict
            end |}.

End WrapperInit.

(** *** [class CVBestSearchRefit]: construction and prediction *)

Section BestSearchPredict.

Variable cv_t : Type.
Variable pipe_t : Type.
Variable result_set : Type.

(** What [predict] calls and these sources do not hold:
    - [node_predict refited Xy]: [refited.predict(recursion=True, Xy)], the
      node afterwards and the prediction;
    - [refit_payload refited]:
      [refited.reduce(store_results=False).values()[0].payload()];
    - [load_state_unset]: what [self.load_state(name="result_set")] followed
      by [.values()[0]] comes to when no state was saved;
    - [update_result rs payload]: the saved result set once its first
      result has been updated with the payload (the result is updated in
      place, so what is saved is taken to change with it, as it does in an
      in-memory store). *)
Variable payload_t : Type.
Variable node_predict :
  node cv_t pipe_t -> DataFlow -> result (node cv_t pipe_t * DataFlow).
Variable refit_payload : node cv_t pipe_t -> result payload_t.
Variable load_state_unset : result result_set.
Variable update_result : result_set -> payload_t -> result_set.

(** [CVBestSearchRefit.__init__(node, kwargs)]: [score] and [arg_max] are
    taken out of the keyword arguments, the others go to the [CV] that
    becomes the first child. *)
Definition CVBestSearchRefit_init (cv : cv_t) (score : option string)
    (arg_max : option bool) : CVBestSearchRefit cv_t pipe_t result_set :=
  {| children := [NodeCV cv_t pipe_t cv];
     score_name := default "mean_score_te" score;
     arg_max := default true arg_max;
     saved_result_set := None |}.

(** [CVBestSearchRefit.predict(recursion=True, Xy)] *)
Definition predict (Xy : DataFlow)
  : ST (CVBestSearchRefit cv_t pipe_t result_set) DataFlow :=
  self <~ get ;;
  refited <~ lift (match children _ _ _ self !! 1%nat with
                   | Some refited => Ok refited
                   | None => Raise IndexError
                   end) ;;
  r <~ lift (node_predict refited Xy) ;;
  let '(refited, pred) := r in
  _ <~ put (set_children _ _ _ self (<[1%nat := refited]> (children _ _ _ self))) ;;
  refited_result <~ lift (refit_payload refited) ;;
  self <~ get ;;
  rs <~ lift (match saved_result_set _ _ _ self with
              | Some rs => Ok rs
              | None => load_state_unset
              end) ;;
  _ <~ put (save_state _ _ _ self (update_result rs refited_result)) ;;
  ret pred.

End BestSearchPredict.

(** *** Sample objects, for running the model *)

(** An estimator that counts its fits and predicts a constant. *)
Definition counting_fit (e : nat) (kwargs : DataFlow) : nat * option exn :=
  (S e, None).

Definition constant_predict (e : nat) (kwargs : DataFlow) : nat * result DataFlow :=
  (e, Ok [("y", Array [[Z.of_nat e]])]).

(** Helpers for the flow [merged_flow] below. *)
Definition sample_split (Xy : DataFlow) : result (DataFlow * DataFlow) :=
  Ok ([("X", Array [[1]; [2]]%Z)], [("X", Array [[3]]%Z)]).

Definition sample_sub_dict (Xy : DataFlow) (names : list string) : result DataFlow :=
  Ok (filter (fun kv => kv.1 ∈ names) Xy).

Definition sample_as_dict (y : DataFlow) (names : list string) : result DataFlow :=
  Ok y.

Definition merged_flow : DataFlow :=
  [("X/train", Array [[1]; [2]]%Z); ("X/test", Array [[3]]%Z);
   ("split_train_test", NonArray (PyAtom (AInt 1)))].

Definition sample_leaf : LeafEstimator :=
  {| in_args_fit := ["X"; "y"]; in_args_predict := ["X"];
     out_args_predict := ["y"] |}.

(** A search over three branches, the last two of equal score; estimators
    are known by their signature. *)
Definition sample_search (cv : unit) (score : string) (Xy : DataFlow)
  : result (unit * list (string * Z)) :=
  Ok (cv, [("A", 3%Z); ("B", 5%Z); ("C", 5%Z)]).

Definition sample_find (nodes : list (node unit (list string))) (k : string)
  : result string := Ok k.

Definition sample_refit : CVBestSearchRefit unit (list string) string :=
  {| children := [NodeCV unit (list string) ()]; score_name := "mean_score_te";
     arg_max := true; saved_result_set := None |}.

(** An estimator whose [fit] always raises. *)
Definition failing_fit (e : nat) (kwargs : DataFlow) : nat * option exn :=
  (e, Some (ValueError "fit failed")).

Definition sample_internal : InternalEstimator :=
  {| internal_in_args_fit := ["X"; "y"]; in_args_transform := ["X"] |}.

(** [list(set(a).difference(b))], in the order of [a]. *)
Definition ordered_difference (a b : list string) : list string :=
  remove_dups (list_difference a b).

(** A search that finds no branch. *)
Definition empty_search (cv : unit) (score : string) (Xy : DataFlow)
  : result (unit * list (string * Z)) :=
  Ok (cv, []).

(** A refit pipeline that predicts its own flow. *)
Definition sample_node_predict (refited : node unit (list string)) (Xy : DataFlow)
  : result (node unit (list string) * DataFlow) :=
  Ok (refited, Xy).

End Estimators.

(** ** [epac/workflow/wrappers.py]: nodes that wrap any object *)

Module Wrappers.
Import Py.
Import Splitters (value, Array, NonArray, DataFlow, flow_get, flow_set, flow_contains).
Import Estimators.

(** What the [transform] of a wrapped object returns: a dict
    ([type(x) is dict]) or something else. *)
Inductive output :=
| OutDict (d : DataFlow)
| OutOther (o : pyobj).

Section TransformNode.

(** The wrapped object is any object with a [transform]; a call returns the
    object as the call leaves it. *)
Variable wrapped_node : Type.
Variable node_transform : wrapped_node -> DataFlow -> wrapped_node * result output.

(** [conf.KW_SPLIT_TRAIN_TEST] and the helpers of [epac.utils] are not in
    these sources. *)
Variable KW_SPLIT_TRAIN_TEST : string.
Variable train_test_split : DataFlow -> result (DataFlow * DataFlow).
Variable _sub_dict : DataFlow -> list string -> result DataFlow.

(** [class TransformNode] *)
Record TransformNode := { in_args_transform : list string }.

(** [self.wrapped_node.transform(kwargs)], logged as a call. *)
Definition call_wrapped (kwargs : DataFlow) : ST (world wrapped_node) output :=
  call_transform wrapped_node output node_transform kwargs.

(** [TransformNode.transform(Xy)] *)
Definition transform (self : TransformNode) (Xy : DataFlow)
  : ST (world wrapped_node) DataFlow :=
  if flow_contains Xy KW_SPLIT_TRAIN_TEST then
    split <~ lift (train_test_split Xy) ;;
    let '(Xy_train, Xy_test) := split in
    kw <~ lift (_sub_dict Xy_train (in_args_transform self)) ;;
    Xy_out_tr <~ call_wrapped kw ;;
    kw <~ lift (_sub_dict Xy_test (in_args_transform self)) ;;
    Xy_out_te <~ call_wrapped kw ;;
    match Xy_out_tr, Xy_out_te with
    | OutDict Xy_out_tr, OutDict Xy_out_te =>
        ret (train_test_merge Xy_out_tr Xy_out_te)
    | _, _ => lift (Raise (ValueError "transform should return a dictionary"))
    end
  else
    kw <~ lift (_sub_dict Xy (in_args_transform self)) ;;
    Xy_out <~ call_wrapped kw ;;
    match Xy_out with
    | OutDict Xy_out => ret Xy_out
    | OutOther _ => lift (Raise (ValueError "transform should return a dictionary"))
    end.

End TransformNode.

(** *** Sample objects, for running the model *)

(** The object of the example in [wrappers.py]: [transform(x, y)] returns
    [dict(res = x * a + y * b)] with [a = 1] and [b = 2], on one-number
    arrays. *)
Definition sample_node_transform (node : unit) (kwargs : DataFlow)
  : unit * result output :=
  (node,
   match flow_get kwargs "x", flow_get kwargs "y" with
   | Ok (Array [[x]]), Ok (Array [[y]]) => Ok (OutDict [("res", Array [[x * 1 + y * 2]%Z])])
   | _, _ => Raise TypeError
   end).

(** [train_test_split] on a flow made by [train_test_merge] of two flows
    with [x] and [y]. *)
Definition sample_train_test_split (Xy : DataFlow) : result (DataFlow * DataFlow) :=
  xtr <- flow_get Xy "x/train" ;; ytr <- flow_get Xy "y/train" ;;
  xte <- flow_get Xy "x/test" ;; yte <- flow_get Xy "y/test" ;;
  Ok ([("x", xtr); ("y", ytr)], [("x", xte); ("y", yte)]).

End Wrappers.

(** ** [epac/workflow/splitters.py]: [Methods] and the keys of its tree *)

Module MethodsSplitter.
Import Py.

(** A node of the tree is known by the child indices that lead to it from
    the root. *)
Definition path := list nat.

Section Tree.

(** The dict of constructor arguments that [get_parameters()] returns, and
    of which [signature_args] holds a part. *)
Variable params : Type.

(** Modelled from the spec: [BaseNode] ([epac/workflow/base.py]) is not in
    these sources.  A node has the class of what it wraps, its parameters,
    the arguments its signature shows (none at first) and its children,
    which it owns.  These are the nodes as they are handed to [Methods]. *)
Inductive node := Node {
  cls : string;
  parameters : params;
  signature_args : option params;
  children : list node
}.

Fixpoint node_at (t : node) (p : path) : option node :=
  match p with
  | [] => Some t
  | c :: p' =>
      match children t !! c with
      | Some t' => node_at t' p'
      | None => None
      end
  end.

(** The number of levels of a tree; it bounds the passes of the loop of
    [Methods.__init__], which goes down one level at each pass. *)
Fixpoint height (t : node) : nat :=
  match t with
  | Node _ _ _ cs => S (max_list (map height cs))
  end.

(** What [Methods.__init__] calls and these sources do not hold:
    - [get_signature cls args]: the signature of a node, ["ClassName"] or
      ["ClassName(arg=val,...)"];
    - [dict_diff_keys dicts]: [dict_diff( *dicts).keys()], the names of the
      arguments that differ among the dicts ([epac.utils]);
    - [_sub_dict d keys] ([epac.utils]).
    [set_iter l] is the order in which Python enumerates [set(l)]. *)
Variable get_signature : string -> option params -> string.
Variable dict_diff_keys : list params -> list string.
Variable _sub_dict : params -> list string -> params.
Variable set_iter : list string -> list string.

(** The tree under construction: the nodes as given, and the
    [signature_args] that the constructor has assigned since, by node.
    [curr_nodes] holds references into the tree, so an assignment through
    it is seen from the root; here a reference is a path. *)
Record tree := {
  root : node;
  assigned : gmap path params
}.

(** [node.signature_args] as it is now. *)
Definition args_at (self : tree) (p : path) (t : node) : option params :=
  match assigned self !! p with
  | Some a => Some a
  | None => signature_args t
  end.

(** Modelled from the spec: [key_push], the key of a child from the key of
    its parent: the signatures joined by the separator. *)
Definition key_push (key : option string) (signature : string) : string :=
  match key with
  | None => signature
  | Some k => k +:+ "/" +:+ signature
  end.

(** Modelled from the spec: [BaseNode.get_key], the signatures from the
    root down to the node, for the node that [p'] leads to from [t] (itself
    at [p], below the key [prefix]). *)
Fixpoint get_key_from (self : tree) (prefix : option string) (p : path)
    (t : node) (p' : path) : string :=
  let k := key_push prefix (get_signature (cls t) (args_at self p t)) in
  match p' with
  | [] => k
  | c :: p'' =>
      match children t !! c with
      | Some t' => get_key_from self (Some k) (p ++ [c]) t' p''
      | None => k
      end
  end.

Definition get_key (self : tree) (p : path) : string :=
  get_key_from self None [] (root self) p.

(** The walk over the children [cs] of the node at [p], the first of them
    being child number [i]. *)
Fixpoint walk_children (visit : path -> node -> list string) (p : path)
    (i : nat) (cs : list node) : list string :=
  match cs with
  | [] => []
  | t' :: cs' => visit (p ++ [i]) t' ++ walk_children visit p (S i) cs'
  end.

(** Modelled from the spec: the keys of [BaseNode.walk_leaves()], the nodes
    without children, from left to right. *)
Fixpoint leaves_key_from (self : tree) (prefix : option string) (p : path)
    (t : node) : list string :=
  match t with
  | Node c _ _ cs =>
      let k := key_push prefix (get_signature c (args_at self p t)) in
      match cs with
      | [] => [k]
      | _ => walk_children (leaves_key_from self (Some k)) p 0 cs
      end
  end.

Definition leaves_key (self : tree) : list string :=
  leaves_key_from self None [] (root self).

(** [len(l) != len(set(l))] *)
Definition has_duplicates (l : list string) : bool :=
  negb (bool_decide (NoDup l)).

(** Modelled from the spec: [_list_indices(l, val)] ([epac.utils]), the
    positions of [val] in [l]. *)
Definition _list_indices (l : list string) (val : string) : list nat :=
  filter (fun i => l !! i = Some val) (seq 0 (length l)).

(** [c.get_parameters()] of the node at [p]. *)
Definition get_parameters (self : tree) (p : path) : option params :=
  parameters <$> node_at (root self) p.

(** [node.children] of the node at [p], as references. *)
Definition children_of (self : tree) (p : path) : list path :=
  match node_at (root self) p with
  | Some t => map (fun c => p ++ [c]) (seq 0 (length (children t)))
  | None => []
  end.

(** [node.signature_args = args] *)
Definition set_signature_args (self : tree) (p : path) (args : params) : tree :=
  {| root := root self; assigned := <[p := args]> (assigned self) |}.

(** The body of [for curr_node_idx in collision_indices], on the tree and
    [curr_nodes_next]. *)
Definition collide_node (curr_nodes : list path) (curr_nodes_state : list params)
    (diff_arg_keys : list string) (st : tree * list path) (curr_node_idx : nat)
  : tree * list path :=
  match curr_nodes !! curr_node_idx, curr_nodes_state !! curr_node_idx with
  | Some p, Some state =>
      let self :=
        if bool_decide (diff_arg_keys = []) then st.1
        else set_signature_args st.1 p (_sub_dict state diff_arg_keys) in
      (self, st.2 ++ children_of self p)
  | _, _ => st
  end.

(** The body of [for key in set(curr_nodes_key)]. *)
Definition collide_key (curr_nodes : list path) (curr_nodes_key : list string)
    (curr_nodes_state : list params) (st : tree * list path) (key : string)
  : tree * list path :=
  let collision_indices := _list_indices curr_nodes_key key in
  if (length collision_indices =? 1)%nat then st
  else
    let diff_arg_keys :=
      dict_diff_keys (omap (fun i => curr_nodes_state !! i) collision_indices) in
    fold_left (collide_node curr_nodes curr_nodes_state diff_arg_keys)
      collision_indices st.

(** One pass of the [while] loop: the tree and the next [curr_nodes]. *)
Definition resolve_level (self : tree) (curr_nodes : list path)
    (curr_nodes_key : list string) : tree * list path :=
  let curr_nodes_state := omap (get_parameters self) curr_nodes in
  fold_left (collide_key curr_nodes curr_nodes_key curr_nodes_state)
    (set_iter curr_nodes_key) (self, []).

(** The loop
    [[
      while len(leaves_key) != len(set(leaves_key)) and curr_nodes:
    ]]
    with at most [passes] passes; [None] when they do not suffice. *)
Fixpoint resolve (passes : nat) (self : tree) (curr_nodes : list path)
  : option tree :=
  if has_duplicates (leaves_key self) && negb (bool_decide (curr_nodes = [])) then
    match passes with
    | O => None
    | S passes =>
        let '(self, curr_nodes) :=
          resolve_level self curr_nodes (map (get_key self) curr_nodes) in
        resolve passes self curr_nodes
    end
  else Some self.

(** [Methods.__init__( *nodes)]: each node is copied (and wrapped in an
    [Estimator] when it is no [BaseNode]) and added as a child; then the
    colliding signatures are told apart level by level.  The loop is given
    as many passes as the tree has levels. *)
Definition Methods_init (parameters : params) (nodes : list node)
  : option (result tree) :=
  let self := {| root := Node "Methods" parameters None nodes; assigned := ∅ |} in
  let curr_nodes := children_of self [] in
  self ← resolve (height (root self)) self curr_nodes;
  Some (if has_duplicates (leaves_key self) then
          Raise (ValueError "Some methods are identical")
        else Ok self).

End Tree.

(** *** Sample objects, for running the model *)

(** Arguments as a list of names and integers; the signature shows the
    class, and the arguments when there are any. *)
Definition show_signature (cls : string) (args : option (list (string * Z))) : string :=
  match args with
  | None | Some [] => cls
  | Some l =>
      cls +:+ "(" +:+
      String.concat "," (map (fun kv => kv.1 +:+ "=" +:+ pretty kv.2) l) +:+ ")"
  end.

(** The names bound to different integers in two of the dicts. *)
Definition differing (dicts : list (list (string * Z))) : list string :=
  remove_dups
    (filter (fun k =>
               existsb (fun d => existsb (fun d' =>
                 negb (bool_decide ((list_to_map d : gmap string Z) !! k
                                    = (list_to_map d' : gmap string Z) !! k)))
                 dicts) dicts)
            (concat (map (map fst) dicts))).

Definition restrict (d : list (string * Z)) (keys : list string) : list (string * Z) :=
  filter (fun kv => kv.1 ∈ keys) d.

(** Two estimators of the same class with the same arguments. *)
Definition svc (C : Z) : node (list (string * Z)) :=
  Node _ "SVC" [("C", C)] None [].


End MethodsSplitter.

(** * Properties *)

(** ** The in-memory store *)

Module StoresSpec.
Import Py Stores.

Section Store.

Variable dict_iter : gmap atom pyobj -> list atom.

#[local] Abbreviation save := (Stores.save dict_iter).

Lemma save_unbound (s : StoreMem) (k : string) (obj : pyobj) (merge : bool) :
  dict s !! k = None ->
  save s k obj merge = ({| dict := <[k := obj]> (dict s) |}, None).
Proof.
  intros Hk. unfold Stores.save. rewrite Hk.
  rewrite bool_decide_eq_false_2; [|by intros [? ?]].
  by rewrite orb_true_r.
Qed.

Lemma save_merge_dict (s : StoreMem) (k : string) (v m : gmap atom pyobj) :
  dict s !! k = Some (PyDict v) ->
  save s k (PyDict m) true = ({| dict := <[k := PyDict (m ∪ v)]> (dict s) |}, None).
Proof.
  intros Hk. unfold Stores.save. rewrite Hk.
  by rewrite bool_decide_eq_true_2.
Qed.

Lemma save_merge_list (s : StoreMem) (k : string) (l : list pyobj) (obj : pyobj) :
  dict s !! k = Some (PyList l) ->
  save s k obj true = ({| dict := <[k := PyList (l ++ [obj])]> (dict s) |}, None).
Proof.
  intros Hk. unfold Stores.save. rewrite Hk.
  by rewrite bool_decide_eq_true_2.
Qed.

Lemma load_insert (s : gmap string pyobj) (k : string) (v : pyobj) :
  load {| dict := <[k := v]> s |} k = v.
Proof. unfold load; simpl. by rewrite lookup_insert_eq. Qed.

(** C1, as the code has it: on a store where [k] is unbound, two merging
    saves of one-entry mappings under the same sub-key raise nothing, and
    the second value replaces the first ([dict.update]). *)
Theorem save_merge_same_subkey_overwrites
    (s : StoreMem) (k : string) (sub : atom) (a b : pyobj) :
  dict s !! k = None ->
  exists s1 s2,
    save s k (PyDict {[ sub := a ]}) true = (s1, None) /\
    save s1 k (PyDict {[ sub := b ]}) true = (s2, None) /\
    load s2 k = PyDict {[ sub := b ]}.
Proof.
  intros Hk. eexists _, _. split; [by apply save_unbound|].
  split.
  - apply save_merge_dict. simpl. apply lookup_insert_eq.
  - rewrite load_insert. f_equal.
    apply map_eq. intros i. rewrite lookup_union.
    destruct (decide (i = sub)) as [->|Hne].
    + by rewrite !lookup_singleton_eq.
    + by rewrite !lookup_singleton_ne.
Qed.

(** C2: on a store where [k] is unbound, merging saves of two mappings
    with disjoint sub-keys leave their union under [k]; and a merging save
    on a key bound to a list appends the object to that list. *)
Theorem save_merge_union_and_append (k : string) :
  (forall (s : StoreMem) (m1 m2 : gmap atom pyobj),
     dict s !! k = None ->
     m1 ##ₘ m2 ->
     exists s1 s2,
       save s k (PyDict m1) true = (s1, None) /\
       save s1 k (PyDict m2) true = (s2, None) /\
       load s2 k = PyDict (m1 ∪ m2) /\
       forall (j : atom) (v : pyobj),
         (m1 ∪ m2) !! j = Some v <-> m1 !! j = Some v \/ m2 !! j = Some v) /\
  (forall (s : StoreMem) (l : list pyobj) (obj : pyobj),
     dict s !! k = Some (PyList l) ->
     exists s1,
       save s k obj true = (s1, None) /\
       load s1 k = PyList (l ++ [obj])).
Proof.
  split.
  - intros s m1 m2 Hk Hdisj. eexists _, _.
    split; [by apply save_unbound|]. split.
    + apply save_merge_dict. simpl. apply lookup_insert_eq.
    + split.
      * rewrite load_insert. f_equal. by apply map_union_comm.
      * intros j v. by apply lookup_union_Some.
  - intros s l obj Hk. eexists. split; [by apply save_merge_list|].
    by rewrite load_insert.
Qed.

(** C10: a merging save on a key bound to an object that is neither a dict
    nor a list changes nothing and raises nothing; the new object is lost. *)
Theorem save_merge_scalar_noop
    (s : StoreMem) (k : string) (a : atom) (obj : pyobj) :
  dict s !! k = Some (PyAtom a) ->
  save s k obj true = (s, None) /\
  load (fst (save s k obj true)) k = PyAtom a.
Proof.
  intros Hk.
  assert (save s k obj true = (s, None)) as ->.
  { unfold Stores.save. rewrite Hk. by rewrite bool_decide_eq_true_2. }
  split; [done|]. unfold load; simpl. by rewrite Hk.
Qed.

End Store.

(** C1 fails as stated: the second save raises nothing and [a] is
    overwritten. *)
Example save_merge_conflict_not_raised :
  exists s1 s2,
    save map_order StoreMem_init "k" (PyDict {[ AStr "a" := PyAtom (AInt 1) ]}) true
      = (s1, None) /\
    save map_order s1 "k" (PyDict {[ AStr "a" := PyAtom (AInt 2) ]}) true
      = (s2, None) /\
    load s2 "k" = PyDict {[ AStr "a" := PyAtom (AInt 2) ]}.
Proof. eexists _, _. repeat split; vm_compute; reflexivity. Qed.

Lemma save_merge_same_subkey_overwrites_witness :
  dict StoreMem_init !! "k" = None /\
  exists s1 s2,
    save map_order StoreMem_init "k" (PyDict {[ AStr "sub" := PyAtom (AInt 1) ]}) true
      = (s1, None) /\
    save map_order s1 "k" (PyDict {[ AStr "sub" := PyAtom (AInt 2) ]}) true
      = (s2, None) /\
    load s2 "k" = PyDict {[ AStr "sub" := PyAtom (AInt 2) ]}.
Proof.
  split; [reflexivity|].
  apply (save_merge_same_subkey_overwrites map_order StoreMem_init "k"
           (AStr "sub") (PyAtom (AInt 1)) (PyAtom (AInt 2))).
  reflexivity.
Defined.

Lemma save_merge_union_and_append_witness :
  exists s1 s2,
    save map_order StoreMem_init "k" (PyDict {[ AStr "a" := PyAtom (AInt 1) ]}) true
      = (s1, None) /\
    save map_order s1 "k" (PyDict {[ AStr "b" := PyAtom (AInt 2) ]}) true
      = (s2, None) /\
    load s2 "k"
      = PyDict ({[ AStr "a" := PyAtom (AInt 1) ]} ∪ {[ AStr "b" := PyAtom (AInt 2) ]}) /\
    forall (j : atom) (v : pyobj),
      (({[ AStr "a" := PyAtom (AInt 1) ]} : gmap atom pyobj)
         ∪ {[ AStr "b" := PyAtom (AInt 2) ]}) !! j = Some v <->
      ({[ AStr "a" := PyAtom (AInt 1) ]} : gmap atom pyobj) !! j = Some v \/
      ({[ AStr "b" := PyAtom (AInt 2) ]} : gmap atom pyobj) !! j = Some v.
Proof.
  apply (proj1 (save_merge_union_and_append map_order "k") StoreMem_init
           {[ AStr "a" := PyAtom (AInt 1) ]} {[ AStr "b" := PyAtom (AInt 2) ]}).
  - reflexivity.
  - apply map_disjoint_singleton_l_2. reflexivity.
Defined.

Lemma save_merge_scalar_noop_witness :
  let s := {| dict := {[ "k" := PyAtom (AInt 7) ]} |} in
  save map_order s "k" (PyDict {[ AStr "a" := PyAtom (AInt 1) ]}) true = (s, None) /\
  load (fst (save map_order s "k" (PyDict {[ AStr "a" := PyAtom (AInt 1) ]}) true)) "k"
    = PyAtom (AInt 7).
Proof.
  apply (save_merge_scalar_noop map_order {| dict := {[ "k" := PyAtom (AInt 7) ]} |}
           "k" (AInt 7) (PyDict {[ AStr "a" := PyAtom (AInt 1) ]})).
  reflexivity.
Defined.

End StoresSpec.

(** ** Slicers and the virtual children of [CV] *)

Module SplittersSpec.
Import Py Splitters.

Lemma filter_loop_unfold self Xy i l :
  filter_loop self Xy i l =
  match l !! i with
  | None => (l, None)
  | Some k =>
      match wrong_dimension self Xy k with
      | Raise e => (l, Some e)
      | Ok false => filter_loop self Xy (S i) l
      | Ok true =>
          match list_remove k l with
          | None => (l, Some (ValueError "list.remove(x): x not in list"))
          | Some l' => filter_loop self Xy (S i) l'
          end
      end
  end.
Proof.
  funelim (filter_loop self Xy i l);
    repeat match goal with
    | H : ?x = _ |- context [match ?x with _ => _ end] => rewrite H
    end; reflexivity.
Qed.

Lemma elem_of_list_remove x y l l' :
  list_remove x l = Some l' -> y ∈ l' -> y ∈ l.
Proof.
  revert l'. induction l as [|z l IH]; intros l'; simpl; [done|].
  case_decide as Hxz.
  - intros [= <-] ?. apply elem_of_cons. by right.
  - destruct (list_remove x l) eqn:E; simpl; [|done].
    intros [= <-]. rewrite !elem_of_cons. intros [->|?]; [by left|].
    right. by eapply IH.
Qed.

Lemma elem_of_list_remove_ne x y l l' :
  list_remove x l = Some l' -> y ∈ l -> x <> y -> y ∈ l'.
Proof.
  revert l'. induction l as [|z l IH]; intros l'; simpl; [done|].
  case_decide as Hxz.
  - intros [= <-]. rewrite elem_of_cons. intros [->|?]; [congruence|done].
  - destruct (list_remove x l) eqn:E; simpl; [|done].
    intros [= <-]. rewrite !elem_of_cons. intros [->|?] ?; [by left|].
    right. by eapply IH.
Qed.

Lemma list_remove_is_Some x l : x ∈ l -> is_Some (list_remove x l).
Proof.
  induction l as [|z l IH]; simpl.
  - by intros ?%elem_of_nil.
  - case_decide; [by eauto|]. rewrite elem_of_cons. intros [?|Hin]; [done|].
    destruct (IH Hin) as [l' ->]. by eexists.
Qed.

(** The loop only ever drops names: what it keeps was there before. *)
Lemma filter_loop_subset self Xy i l k :
  k ∈ (filter_loop self Xy i l).1 -> k ∈ l.
Proof.
  remember (length l - i)%nat as m eqn:Hm.
  revert i l Hm. induction (lt_wf m) as [m _ IH]. intros i l ->.
  rewrite filter_loop_unfold.
  destruct (l !! i) as [k'|] eqn:Hi; [|done].
  apply lookup_lt_Some in Hi as Hlt.
  destruct (wrong_dimension self Xy k') as [[]|]; [|..|done].
  - destruct (list_remove k' l) as [l'|] eqn:Hrm; [|done].
    intros Hin. eapply elem_of_list_remove; [done|].
    apply list_remove_length in Hrm as Hlen.
    eapply (IH (length l' - S i)%nat); [lia|done|done].
  - apply (IH (length l - S i)%nat); [lia|done].
Qed.


Lemma flow_get_Ok Xy k : flow_contains Xy k = true <-> exists v, flow_get Xy k = Ok v.
Proof.
  unfold flow_contains, flow_keys. rewrite bool_decide_eq_true.
  induction Xy as [|[k' v'] Xy IH]; simpl.
  - rewrite elem_of_nil. split; [done|]. by intros [? ?].
  - rewrite elem_of_cons. case_decide as Hk.
    + split; [by eauto|]. by left.
    + rewrite <- IH. split; [by intros [?|?]|by right].
Qed.

Lemma flow_get_Raise Xy k : flow_contains Xy k = false -> flow_get Xy k = Raise KeyError.
Proof.
  unfold flow_contains, flow_keys. rewrite bool_decide_eq_false.
  induction Xy as [|[k' v'] Xy IH]; simpl; [done|].
  rewrite elem_of_cons. intros Hn. case_decide; [by destruct Hn; left|].
  apply IH. intros ?. apply Hn. by right.
Qed.

Lemma wrong_dimension_contains self Xy k :
  flow_contains Xy k = true -> exists b, wrong_dimension self Xy k = Ok b.
Proof.
  intros [v Hv]%flow_get_Ok. unfold wrong_dimension. rewrite Hv. simpl. by eexists.
Qed.

(** On names that are all entries of the flow the loop raises nothing. *)
Lemma filter_loop_no_error self Xy i l :
  (forall k, k ∈ l -> flow_contains Xy k = true) ->
  (filter_loop self Xy i l).2 = None.
Proof.
  remember (length l - i)%nat as m eqn:Hm.
  revert i l Hm. induction (lt_wf m) as [m _ IH]. intros i l -> Hall.
  rewrite filter_loop_unfold.
  destruct (l !! i) as [k'|] eqn:Hi; [|done].
  apply lookup_lt_Some in Hi as Hlt.
  apply list_elem_of_lookup_2 in Hi as Hin.
  destruct (wrong_dimension_contains self Xy k' (Hall _ Hin)) as [b ->].
  destruct b.
  - destruct (list_remove_is_Some _ _ Hin) as [l' Hrm]. rewrite Hrm.
    apply list_remove_length in Hrm as Hlen.
    apply (IH (length l' - S i)%nat); [lia|done|].
    intros k Hk. apply Hall. by eapply elem_of_list_remove.
  - apply (IH (length l - S i)%nat); [lia|done|done].
Qed.

(** A name whose entry has the expected length is never dropped. *)
Lemma filter_loop_keeps self Xy i l k :
  k ∈ l -> wrong_dimension self Xy k = Ok false ->
  k ∈ (filter_loop self Xy i l).1.
Proof.
  remember (length l - i)%nat as m eqn:Hm.
  revert i l Hm. induction (lt_wf m) as [m _ IH]. intros i l -> Hin Hk.
  rewrite filter_loop_unfold.
  destruct (l !! i) as [k'|] eqn:Hi; [|done].
  apply lookup_lt_Some in Hi as Hlt.
  destruct (wrong_dimension self Xy k') as [[]|] eqn:Hk'; [|..|done].
  - destruct (list_remove k' l) as [l'|] eqn:Hrm; [|done].
    apply list_remove_length in Hrm as Hlen.
    apply (IH (length l' - S i)%nat); [lia|done| |done].
    eapply elem_of_list_remove_ne; [done..|]. intros ->. congruence.
  - apply (IH (length l - S i)%nat); [lia|done..].
Qed.


Lemma flow_get_set Xy k v k' :
  flow_get (flow_set Xy k v) k' = if decide (k' = k) then Ok v else flow_get Xy k'.
Proof.
  induction Xy as [|[k0 v0] Xy IH]; simpl.
  - by repeat case_decide.
  - destruct (decide (k = k0)) as [->|Hne]; simpl.
    + by repeat case_decide.
    + rewrite IH. repeat case_decide; congruence.
Qed.

Lemma flow_contains_set Xy k v k' :
  flow_contains Xy k' = true -> flow_contains (flow_set Xy k v) k' = true.
Proof.
  rewrite !flow_get_Ok. intros [v' Hv']. rewrite flow_get_set.
  case_decide; by eauto.
Qed.


Lemma select_keys_fresh self Xy :
  apply_on self = ApplyNone ->
  select_keys self Xy = (self, Ok (filter_loop self Xy 0 (flow_keys Xy)).1).
Proof.
  intros Ha. unfold select_keys, data_keys_of. rewrite Ha.
  pose proof (filter_loop_no_error self Xy 0 (flow_keys Xy)) as Hne.
  destruct (filter_loop self Xy 0 (flow_keys Xy)) as [l' e]; simpl in *.
  rewrite Hne; [done|]. intros k Hk. unfold flow_contains. by apply bool_decide_eq_true.
Qed.

Lemma list_remove_NoDup x l l' : list_remove x l = Some l' -> NoDup l -> NoDup l'.
Proof.
  revert l'. induction l as [|z l IH]; intros l'; simpl; [done|].
  rewrite NoDup_cons. case_decide.
  - by intros [= <-] [? ?].
  - destruct (list_remove x l) eqn:E; simpl; [|done].
    intros [= <-] [Hz Hl]. apply NoDup_cons. split; [|by apply IH].
    intros Hin. apply Hz. by eapply elem_of_list_remove.
Qed.

Lemma filter_loop_NoDup self Xy i l : NoDup l -> NoDup (filter_loop self Xy i l).1.
Proof.
  remember (length l - i)%nat as m eqn:Hm.
  revert i l Hm. induction (lt_wf m) as [m _ IH]. intros i l -> Hnd.
  rewrite filter_loop_unfold.
  destruct (l !! i) as [k'|] eqn:Hi; [|done].
  apply lookup_lt_Some in Hi as Hlt.
  destruct (wrong_dimension self Xy k') as [[]|]; [|..|done].
  - destruct (list_remove k' l) as [l'|] eqn:Hrm; [|done].
    apply list_remove_length in Hrm as Hlen.
    apply (IH (length l' - S i)%nat); [lia|done|]. by eapply list_remove_NoDup.
  - apply (IH (length l - S i)%nat); [lia|done..].
Qed.

(** What the second loop does with fixed indices, on distinct names. *)
Lemma slice_loop_get self sample_set idx l Xy Xy' :
  indices_of self sample_set = Ok idx ->
  NoDup l ->
  slice_loop self sample_set l Xy = Ok Xy' ->
  forall k,
    (k ∈ l -> flow_contains Xy k = true ->
     exists v v', flow_get Xy k = Ok v /\ fancy_index v idx = Ok v' /\
                  flow_get Xy' k = Ok v') /\
    (k ∉ l -> flow_get Xy' k = flow_get Xy k).
Proof.
  intros Hidx. revert Xy. induction l as [|k0 l IH]; intros Xy Hnd; simpl.
  - intros [= <-] k. split; [by intros ?%elem_of_nil|done].
  - apply NoDup_cons in Hnd as [Hk0 Hnd].
    destruct (flow_contains Xy k0) eqn:Hc; simpl.
    + rewrite Hidx; simpl.
      destruct (flow_get Xy k0) as [v0|] eqn:Hg0; simpl; [|done].
      destruct (fancy_index v0 idx) as [v0'|] eqn:Hf0; simpl; [|done].
      intros Hloop k. destruct (IH _ Hnd Hloop k) as [IH1 IH2].
      rewrite flow_get_set in IH1, IH2. split.
      * intros [->|Hin]%elem_of_cons Hk.
        -- exists v0, v0'. rewrite IH2 by done. by rewrite decide_True.
        -- assert (k <> k0) by (intros ->; done).
           rewrite decide_False in IH1 by done. apply IH1; [done|].
           by apply flow_contains_set.
      * intros Hn. apply not_elem_of_cons in Hn as [? ?].
        rewrite IH2 by done. by rewrite decide_False.
    + intros Hloop k. destruct (IH _ Hnd Hloop k) as [IH1 IH2]. split.
      * intros [->|Hin]%elem_of_cons Hk; [congruence|by apply IH1].
      * intros Hn. apply not_elem_of_cons in Hn as [? ?]. by apply IH2.
Qed.

Lemma slice_loop_total self sample_set idx l Xy :
  indices_of self sample_set = Ok idx ->
  NoDup l ->
  (forall k, k ∈ l -> flow_contains Xy k = true ->
     exists v v', flow_get Xy k = Ok v /\ fancy_index v idx = Ok v') ->
  exists Xy', slice_loop self sample_set l Xy = Ok Xy'.
Proof.
  intros Hidx. revert Xy. induction l as [|k0 l IH]; intros Xy Hnd Hall; simpl.
  - by eexists.
  - apply NoDup_cons in Hnd as [Hk0 Hnd].
    destruct (flow_contains Xy k0) eqn:Hc; simpl.
    + rewrite Hidx; simpl.
      destruct (Hall k0) as (v0 & v0' & Hg0 & Hf0); [by left|done|].
      rewrite Hg0; simpl. rewrite Hf0; simpl.
      apply IH; [done|]. intros k Hin Hk.
      assert (k <> k0) by (intros ->; done).
      rewrite flow_get_set, decide_False by done.
      apply Hall; [by right|].
      apply flow_get_Ok in Hk as [v Hv]. rewrite flow_get_set, decide_False in Hv by done.
      apply flow_get_Ok. by eexists.
    + apply IH; [done|]. intros k Hin Hk. apply Hall; [by right|done].
Qed.

Lemma row_at_total rows i :
  (- Z.of_nat (length rows) <= i < Z.of_nat (length rows))%Z ->
  exists r, row_at rows i = Ok r.
Proof.
  intros Hi. unfold row_at.
  destruct (i <? 0)%Z eqn:Hneg.
  - apply Z.ltb_lt in Hneg.
    rewrite (proj2 (Z.leb_le _ _)), (proj2 (Z.ltb_lt _ _)) by lia. simpl.
    destruct (lookup_lt_is_Some_2 rows (Z.to_nat (i + Z.of_nat (length rows)))) as [r ->]; [lia|].
    by eexists.
  - apply Z.ltb_ge in Hneg.
    rewrite (proj2 (Z.leb_le _ _)), (proj2 (Z.ltb_lt _ _)) by lia. simpl.
    destruct (lookup_lt_is_Some_2 rows (Z.to_nat i)) as [r ->]; [lia|].
    by eexists.
Qed.

Lemma take_rows_total rows idx :
  (forall i, i ∈ idx -> (- Z.of_nat (length rows) <= i < Z.of_nat (length rows))%Z) ->
  exists rs, take_rows rows idx = Ok rs.
Proof.
  induction idx as [|i idx IH]; intros Hall; simpl; [by eexists|].
  destruct (row_at_total rows i) as [r ->]; [apply Hall; by left|]. simpl.
  destruct IH as [rs ->]; [intros; apply Hall; by right|]. simpl. by eexists.
Qed.

Section Slicer.

Variable top_down :
  RowSlicer -> string -> bool -> DataFlow -> RowSlicer * result DataFlow.

#[local] Abbreviation transform := (Splitters.transform top_down).

(** C6: [transform] on a slicer whose slices were never set raises the
    "slicing not initialized" error, whatever the flow, the role and the
    recursion flag. *)
Theorem transform_uninitialized
    (self : RowSlicer) (recursion : bool) (sample_set : option string)
    (Xy : DataFlow) :
  slices self = SlicesNone ->
  transform self recursion sample_set Xy
    = (self, Raise (ValueError "Slicing hasn't been initialized")).
Proof. intros Hs. unfold Splitters.transform. by rewrite Hs. Qed.



End Slicer.

Lemma fold_at_lookup (cpt nb : Z) (folds : list (list Z * list Z)) bound f :
  (cpt <= nb)%Z ->
  folds !! Z.to_nat (nb - cpt) = Some f ->
  fold_at cpt nb folds bound = Some f.
Proof.
  revert cpt bound. induction folds as [|f0 folds IH]; intros cpt bound Hle; simpl; [done|].
  destruct (cpt =? nb)%Z eqn:Heq.
  - apply Z.eqb_eq in Heq as ->. rewrite Z.sub_diag. simpl. congruence.
  - apply Z.eqb_neq in Heq. intros Hl. apply IH; [lia|].
    replace (Z.to_nat (nb - cpt)) with (S (Z.to_nat (nb - (cpt + 1)))) in Hl by lia.
    done.
Qed.

Lemma fold_at_is_Some (cpt nb : Z) (folds : list (list Z * list Z)) bound :
  folds <> [] \/ is_Some bound -> is_Some (fold_at cpt nb folds bound).
Proof.
  revert cpt bound. induction folds as [|f0 folds IH]; intros cpt bound H; simpl.
  - by destruct H.
  - destruct (cpt =? nb)%Z; [by eexists|]. apply IH. right. by eexists.
Qed.

(** C5: [CV(node, n_folds=k)] with [k >= 1] has a child sequence of length
    [k] backed by one newly allocated slicer.  Indexing it at any [i] below
    [k], in any later heap and whatever folds have been cached (an empty
    fold generator apart), returns the address of that one slicer, leaves
    the heap changed at that address only, and sets the slicer's [nb] to
    [i] (and its slices to fold [i], once folds are cached). *)
Theorem CV_children_virtual
    (subtree : loc) (k : Z) (random_state : option Z) (cv_type : string)
    (h : heap) :
  (1 <= k)%Z ->
  let cv := (CV_init subtree k random_state cv_type h).1 in
  let h0 := (CV_init subtree k random_state cv_type h).2 in
  len (cv_children cv) = Ok k /\
  exists l : loc,
    h !! l = None /\ is_Some (h0 !! l) /\
    forall (i : Z) (folds : option (list (list Z * list Z))) (h1 : heap),
      (0 <= i < k)%Z ->
      folds <> Some [] ->
      is_Some (h1 !! l) ->
      exists s : RowSlicer,
        getitem (set__sclices cv folds) i h1 = (<[l := s]> h1, Ok l) /\
        nb s = i /\
        forall fs train test,
          folds = Some fs -> fs !! Z.to_nat i = Some (train, test) ->
          slices s = SlicesDict {[ "train" := train; "test" := test ]}.
Proof.
  intros Hk cv h0. subst cv h0. unfold CV_init. simpl. split.
  - unfold len. simpl. by rewrite (proj2 (Z.ltb_ge _ _)) by lia.
  - exists (fresh (dom h)). split; [|split].
    + apply not_elem_of_dom. apply is_fresh.
    + rewrite lookup_insert_eq. by eexists.
    + intros i folds h1 Hi Hfolds [s0 Hs0].
      unfold getitem. simpl. rewrite (proj2 (Z.leb_gt _ _)) by lia.
      unfold move_to_child. rewrite Hs0. simpl.
      destruct folds as [fs|].
      * destruct (fold_at_is_Some 0 i fs None) as [[train test] Hf].
        { left. congruence. }
        rewrite Hf. simpl. eexists. split; [done|]. split; [done|].
        intros fs' train' test' [= <-] Hl. simpl.
        rewrite (fold_at_lookup 0 i fs None (train', test')) in Hf;
          [by injection Hf as <- <-|lia|by rewrite Z.sub_0_r].
      * eexists. split; [done|]. split; [done|]. intros; discriminate.
Qed.

(** C3 fails on the code: two entries of three rows meet a slicer that
    was set to the rows [0] and [1], so expects two.  Removing the first
    name from the list being iterated makes the loop skip the second, which
    is then sliced although its length differs; this holds in both orders
    of the two keys. *)
Example transform_slices_skipped_mismatch :
  set_sclices (RowSlicer_init "Perm" 0 ApplyNone) (SlicesList [0; 1]%Z) = Ok two_rows /\
  transform no_recursion two_rows false None
    [("a", Array [[1]; [2]; [3]]%Z); ("b", Array [[4]; [5]; [6]]%Z)]
  = (two_rows, Ok [("a", Array [[1]; [2]; [3]]%Z); ("b", Array [[4]; [5]]%Z)]) /\
  transform no_recursion two_rows false None
    [("b", Array [[4]; [5]; [6]]%Z); ("a", Array [[1]; [2]; [3]]%Z)]
  = (two_rows, Ok [("b", Array [[4]; [5]; [6]]%Z); ("a", Array [[1]; [2]]%Z)]).
Proof. repeat split; vm_compute; reflexivity. Qed.

Lemma transform_uninitialized_witness :
  transform no_recursion (RowSlicer_init "CV" 0 ApplyNone) false (Some "train")
    [("X", Array [[1]; [2]]%Z)]
  = (RowSlicer_init "CV" 0 ApplyNone,
     Raise (ValueError "Slicing hasn't been initialized")).
Proof.
  apply (transform_uninitialized no_recursion (RowSlicer_init "CV" 0 ApplyNone)).
  reflexivity.
Defined.



Lemma CV_children_virtual_witness :
  let cv := (CV_init 1%positive 3 None "stratified" ∅).1 in
  let h0 := (CV_init 1%positive 3 None "stratified" ∅).2 in
  len (cv_children cv) = Ok 3%Z /\
  exists l : loc,
    (∅ : heap) !! l = None /\ is_Some (h0 !! l) /\
    forall (i : Z) (folds : option (list (list Z * list Z))) (h1 : heap),
      (0 <= i < 3)%Z ->
      folds <> Some [] ->
      is_Some (h1 !! l) ->
      exists s : RowSlicer,
        getitem (set__sclices cv folds) i h1 = (<[l := s]> h1, Ok l) /\
        nb s = i /\
        forall fs train test,
          folds = Some fs -> fs !! Z.to_nat i = Some (train, test) ->
          slices s = SlicesDict {[ "train" := train; "test" := test ]}.
Proof.
  apply (CV_children_virtual 1%positive 3 None "stratified" ∅). lia.
Defined.

End SplittersSpec.

(** ** Estimator wrappers *)

Module EstimatorsSpec.
Import Py.
Import Splitters (value, Array, NonArray, DataFlow, flow_get, flow_set, flow_contains).
Import Estimators.

Lemma chars_app (s1 s2 : string) :
  list_ascii_of_string (s1 +:+ s2) = list_ascii_of_string s1 ++ list_ascii_of_string s2.
Proof. induction s1 as [|c s1 IH]; simpl; [done|]. by rewrite IH. Qed.

Lemma chars_inj (s1 s2 : string) :
  list_ascii_of_string s1 = list_ascii_of_string s2 -> s1 = s2.
Proof.
  intros H. rewrite <- (string_of_list_ascii_of_string s1),
    <- (string_of_list_ascii_of_string s2). by rewrite H.
Qed.

Lemma suffix_inj (suffix k k' : string) : k +:+ suffix = k' +:+ suffix -> k = k'.
Proof.
  intros H. apply chars_inj. apply (f_equal list_ascii_of_string) in H.
  rewrite !chars_app in H. by apply app_inv_tail in H.
Qed.

Lemma train_is_not_test (k k' : string) : k +:+ "/train" <> k' +:+ "/test".
Proof.
  intros H. apply (f_equal list_ascii_of_string) in H.
  rewrite !chars_app in H. apply (f_equal last) in H.
  change (list_ascii_of_string "/train")
    with (list_ascii_of_string "/trai" ++ ["n"%char]) in H.
  change (list_ascii_of_string "/test")
    with (list_ascii_of_string "/tes" ++ ["t"%char]) in H.
  rewrite !app_assoc, !last_snoc in H. discriminate.
Qed.

Lemma flow_get_app_l (Xy1 Xy2 : DataFlow) k v :
  flow_get Xy1 k = Ok v -> flow_get (Xy1 ++ Xy2) k = Ok v.
Proof.
  induction Xy1 as [|[k0 v0] Xy1 IH]; simpl; [done|]. case_decide; [done|]. apply IH.
Qed.

Lemma flow_get_app_r (Xy1 Xy2 : DataFlow) k :
  flow_get Xy1 k = Raise KeyError -> flow_get (Xy1 ++ Xy2) k = flow_get Xy2 k.
Proof.
  induction Xy1 as [|[k0 v0] Xy1 IH]; simpl; [done|]. case_decide; [done|]. apply IH.
Qed.

Lemma flow_get_suffixed (suffix : string) (Xy : DataFlow) k :
  flow_get (map (fun kv => (kv.1 +:+ suffix, kv.2)) Xy) (k +:+ suffix) = flow_get Xy k.
Proof.
  induction Xy as [|[k0 v0] Xy IH]; simpl; [done|].
  destruct (decide (k = k0)) as [->|Hne].
  - by rewrite decide_True.
  - rewrite decide_False; [done|]. intros ?%suffix_inj. done.
Qed.

Lemma flow_get_train_in_test (Xy : DataFlow) k :
  flow_get (map (fun kv => (kv.1 +:+ "/train", kv.2)) Xy) (k +:+ "/test")
    = Raise KeyError.
Proof.
  induction Xy as [|[k0 v0] Xy IH]; simpl; [done|].
  rewrite decide_False; [done|]. intros H. symmetry in H. by apply train_is_not_test in H.
Qed.

Section Leaf.


Variable estimator : Type.
Variable prediction : Type.
Variable est_fit : estimator -> DataFlow -> estimator * option exn.
Variable est_predict : estimator -> DataFlow -> estimator * result prediction.
Variable est_transform : estimator -> DataFlow -> estimator * result prediction.
Variable KW_SPLIT_TRAIN_TEST : string.
Variable train_test_split : DataFlow -> result (DataFlow * DataFlow).
Variable _sub_dict : DataFlow -> list string -> result DataFlow.
Variable _as_dict : prediction -> list string -> result DataFlow.

#[local] Abbreviation transform :=
  (Estimators.transform estimator prediction est_fit est_predict
     KW_SPLIT_TRAIN_TEST train_test_split _sub_dict _as_dict).

(** C8: a leaf wrapper receives a flow that carries the train/test flag.
    When the helpers and the estimator's calls return, [transform] has
    called the estimator exactly three times -- [fit] on the arguments
    taken from the train role, then [predict] on the train role, then
    [predict] on the test role -- and returns the two outputs merged: each
    name of the train output under [name/train], each name of the test
    output under [name/test], and nothing else. *)
Theorem leaf_transform_train_test
    (self : LeafEstimator) (Xy Xy_train Xy_test : DataFlow)
    (kw_fit kw_train kw_test Xy_out_tr Xy_out_te : DataFlow)
    (e0 e1 e2 e3 : estimator) (y_train y_test : prediction) (log : list (call)) :
  flow_contains Xy KW_SPLIT_TRAIN_TEST = true ->
  train_test_split Xy = Ok (Xy_train, Xy_test) ->
  _sub_dict Xy_train (in_args_fit self) = Ok kw_fit ->
  est_fit e0 kw_fit = (e1, None) ->
  _sub_dict Xy_train (in_args_predict self) = Ok kw_train ->
  est_predict e1 kw_train = (e2, Ok y_train) ->
  _as_dict y_train (out_args_predict self) = Ok Xy_out_tr ->
  _sub_dict Xy_test (in_args_predict self) = Ok kw_test ->
  est_predict e2 kw_test = (e3, Ok y_test) ->
  _as_dict y_test (out_args_predict self) = Ok Xy_out_te ->
  exists Xy_out,
    transform self Xy {| wrapped := e0; calls := log |}
      = ({| wrapped := e3;
            calls := log ++ [Fit kw_fit; Predict kw_train; Predict kw_test] |},
         Ok Xy_out) /\
    (forall k v, flow_get Xy_out_tr k = Ok v ->
                 flow_get Xy_out (k +:+ "/train") = Ok v) /\
    (forall k v, flow_get Xy_out_te k = Ok v ->
                 flow_get Xy_out (k +:+ "/test") = Ok v) /\
    (forall k', flow_contains Xy_out k' = true ->
       exists k, (k' = k +:+ "/train" /\ flow_contains Xy_out_tr k = true) \/
                 (k' = k +:+ "/test" /\ flow_contains Xy_out_te k = true)).
Proof.
  intros Hflag Hsplit Hkf Hfit Hkt Hpt Hot Hke Hpe Hoe.
  exists (train_test_merge Xy_out_tr Xy_out_te). split; [|split; [|split]].
  - unfold Estimators.transform. rewrite Hflag.
    unfold mbind, lift, ret, call_fit, call_predict. simpl.
    rewrite Hsplit, Hkf. simpl. rewrite Hfit, Hkt. simpl. rewrite Hpt, Hot, Hke. simpl.
    rewrite Hpe, Hoe. by rewrite <- !app_assoc.
  - intros k v Hk. unfold train_test_merge.
    apply flow_get_app_l. by rewrite flow_get_suffixed.
  - intros k v Hk. unfold train_test_merge.
    rewrite flow_get_app_r by apply flow_get_train_in_test.
    by rewrite flow_get_suffixed.
  - intros k'. unfold flow_contains, train_test_merge, Splitters.flow_keys.
    rewrite bool_decide_eq_true, map_app, elem_of_app, !list_elem_of_fmap.
    intros [([k v] & -> & Hin)|([k v] & -> & Hin)]; simpl in *.
    + rewrite list_elem_of_fmap in Hin. destruct Hin as ([k0 v0] & [= -> ->] & Hin).
      exists k0. left. split; [done|]. apply bool_decide_eq_true.
      apply list_elem_of_fmap. by exists (k0, v0).
    + rewrite list_elem_of_fmap in Hin. destruct Hin as ([k0 v0] & [= -> ->] & Hin).
      exists k0. right. split; [done|]. apply bool_decide_eq_true.
      apply list_elem_of_fmap. by exists (k0, v0).
Qed.
End Leaf.


Section Refit.

Variable score : Type.
Context `{EqDecision score}.
Variable score_le : score -> score -> bool.
Hypothesis score_le_total : forall a b, score_le a b = true \/ score_le b a = true.
Hypothesis score_le_trans :
  forall a b c, score_le a b = true -> score_le b c = true -> score_le a c = true.

Variable estimator : Type.
Variable cv_t : Type.
Variable pipe_t : Type.
Variable result_set : Type.
Variable search : cv_t -> string -> DataFlow -> result (cv_t * list (string * score)).
Variable key_split : string -> list string.
Variable find_estimator :
  list (node cv_t pipe_t) -> string -> result estimator.
Variable Pipe : list estimator -> pipe_t.
Variable pipe_fit : pipe_t -> DataFlow -> result pipe_t.
Variable summarize : pipe_t -> string -> result result_set.

#[local] Abbreviation fit :=
  (Estimators.fit score score_le estimator cv_t pipe_t result_set search key_split
     find_estimator Pipe pipe_fit summarize).
#[local] Abbreviation best_branch := (Estimators.best_branch score score_le).

Lemma score_le_refl a : score_le a a = true.
Proof. by destruct (score_le_total a a). Qed.

Lemma fold_max_elem (a : list score) (x : score) :
  fold_left (fun m y => if score_le m y then y else m) a x ∈ x :: a.
Proof.
  revert x. induction a as [|y a IH]; intros x; simpl; [by left|].
  pose proof (IH (if score_le x y then y else x)) as Hin.
  apply elem_of_cons in Hin as [Hin|Hin].
  - rewrite Hin. destruct (score_le x y); rewrite !elem_of_cons; auto.
  - rewrite !elem_of_cons; auto.
Qed.

Lemma fold_max_upper (a : list score) (x z : score) :
  z ∈ x :: a ->
  score_le z (fold_left (fun m y => if score_le m y then y else m) a x) = true.
Proof.
  revert x z. induction a as [|y a IH]; intros x z; simpl.
  - intros ->%list_elem_of_singleton. apply score_le_refl.
  - intros Hz. destruct (score_le x y) eqn:Hxy.
    + apply elem_of_cons in Hz as [->|Hz]; [|by apply IH].
      apply score_le_trans with y; [done|]. apply IH. by left.
    + apply elem_of_cons in Hz as [->|Hz]; [apply IH; by left|].
      apply elem_of_cons in Hz as [->|Hz]; [|apply IH; by right].
      apply score_le_trans with x; [|apply IH; by left].
      by destruct (score_le_total x y) as [?|?]; [congruence|].
Qed.

Lemma fold_min_elem (a : list score) (x : score) :
  fold_left (fun m y => if score_le y m then y else m) a x ∈ x :: a.
Proof.
  revert x. induction a as [|y a IH]; intros x; simpl; [by left|].
  pose proof (IH (if score_le y x then y else x)) as Hin.
  apply elem_of_cons in Hin as [Hin|Hin].
  - rewrite Hin. destruct (score_le y x); rewrite !elem_of_cons; auto.
  - rewrite !elem_of_cons; auto.
Qed.

Lemma fold_min_lower (a : list score) (x z : score) :
  z ∈ x :: a ->
  score_le (fold_left (fun m y => if score_le y m then y else m) a x) z = true.
Proof.
  revert x z. induction a as [|y a IH]; intros x z; simpl.
  - intros ->%list_elem_of_singleton. apply score_le_refl.
  - intros Hz. destruct (score_le y x) eqn:Hxy.
    + apply elem_of_cons in Hz as [->|Hz]; [|by apply IH].
      apply score_le_trans with y; [|done]. apply IH. by left.
    + apply elem_of_cons in Hz as [->|Hz]; [apply IH; by left|].
      apply elem_of_cons in Hz as [->|Hz]; [|apply IH; by right].
      apply score_le_trans with x; [apply IH; by left|].
      by destruct (score_le_total x y) as [?|?]; [|congruence].
Qed.

(** The branch chosen is optimal and is the first one that is. *)
Lemma best_branch_optimal (arg_max : bool) (key_val : list (string * score))
    (idx : nat) (best_key : string) :
  best_branch arg_max key_val = Ok (idx, best_key) ->
  exists s_best,
    key_val !! idx = Some (best_key, s_best) /\
    (forall j k s, key_val !! j = Some (k, s) ->
       if arg_max then score_le s s_best = true else score_le s_best s = true) /\
    (forall j k s, (j < idx)%nat -> key_val !! j = Some (k, s) -> s <> s_best).
Proof.
  unfold Estimators.best_branch.
  destruct key_val as [|[k0 s0] key_val]; [done|].
  set (kvs := (k0, s0) :: key_val). simpl.
  set (opt := if arg_max
              then fold_left (fun m y => if score_le m y then y else m) (map snd key_val) s0
              else fold_left (fun m y => if score_le y m then y else m) (map snd key_val) s0).
  assert ((if arg_max
           then Ok (fold_left (fun m y => if score_le m y then y else m)
                      (map snd key_val) s0)
           else Ok (fold_left (fun m y => if score_le y m then y else m)
                      (map snd key_val) s0)) = Ok opt) as ->.
  { unfold opt. by destruct arg_max. }
  simpl. unfold np_where_first.
  change (s0 :: map snd key_val) with (map snd kvs).
  destruct (list_find (fun y => y = opt) (map snd kvs)) as [[i y]|] eqn:Hfind; [|done].
  simpl. apply list_find_Some in Hfind as (Hi & -> & Hfirst).
  destruct (kvs !! i) as [[k s]|] eqn:Hkv; [|done]. simpl.
  intros [= <- <-].
  assert (s = opt) as ->.
  { change (map snd kvs) with (snd <$> kvs) in Hi.
    rewrite list_lookup_fmap, Hkv in Hi. simpl in Hi. congruence. }
  exists opt. split; [done|]. split.
  - intros j k' s' Hj.
    assert (s' ∈ s0 :: map snd key_val) as Hin.
    { change (s0 :: map snd key_val) with (snd <$> kvs).
      apply list_elem_of_fmap. exists (k', s'). split; [done|].
      by eapply list_elem_of_lookup_2. }
    unfold opt. destruct arg_max.
    + by apply fold_max_upper.
    + by apply fold_min_lower.
  - intros j k' s' Hlt Hj. apply (Hfirst j s'); [|done].
    change (map snd kvs) with (snd <$> kvs).
    by rewrite list_lookup_fmap, Hj.
Qed.

Lemma best_branch_total (arg_max : bool) (key_val : list (string * score)) :
  key_val <> [] -> exists idx best_key, best_branch arg_max key_val = Ok (idx, best_key).
Proof.
  intros Hne. unfold Estimators.best_branch.
  destruct key_val as [|[k0 s0] key_val]; [done|].
  set (kvs := (k0, s0) :: key_val). simpl.
  set (opt := if arg_max
              then fold_left (fun m y => if score_le m y then y else m) (map snd key_val) s0
              else fold_left (fun m y => if score_le y m then y else m) (map snd key_val) s0).
  assert ((if arg_max
           then Ok (fold_left (fun m y => if score_le m y then y else m)
                      (map snd key_val) s0)
           else Ok (fold_left (fun m y => if score_le y m then y else m)
                      (map snd key_val) s0)) = Ok opt) as ->.
  { unfold opt. by destruct arg_max. }
  simpl. unfold np_where_first.
  change (s0 :: map snd key_val) with (map snd kvs).
  assert (opt ∈ map snd kvs) as Hin.
  { unfold opt. destruct arg_max; [apply fold_max_elem|apply fold_min_elem]. }
  destruct (list_find (fun y => y = opt) (map snd kvs)) as [[i y]|] eqn:Hfind.
  - simpl. apply list_find_Some in Hfind as (Hi & -> & Hfirst).
    change (map snd kvs) with (snd <$> kvs) in Hi.
    rewrite list_lookup_fmap in Hi.
    destruct (kvs !! i) as [[k s]|] eqn:Hkv; [|done]. simpl. by eexists _, _.
  - apply list_find_None in Hfind. rewrite Forall_forall in Hfind.
    by destruct (Hfind opt Hin).
Qed.

(** C9, as the code has it: when the search returns at least one branch,
    [fit] picks a branch whose score is maximal ([arg_max]) or minimal among
    all branches, the first one of that score.  When the refit then goes
    through, the node is left with two children: the [CV] it searched with,
    kept in first place, and after it a new [Pipe] built from the
    estimators of the chosen branch's key, fitted on the same data. *)
Theorem fit_keeps_search_and_refits_best
    (self : CVBestSearchRefit cv_t pipe_t result_set) (Xy : DataFlow)
    (cv cv' : cv_t) (rest : list (node cv_t pipe_t))
    (key_val : list (string * score)) :
  children _ _ _ self = NodeCV _ _ cv :: rest ->
  search cv (score_name _ _ _ self) Xy = Ok (cv', key_val) ->
  key_val <> [] ->
  exists (idx_best : nat) (best_key : string) (s_best : score),
    key_val !! idx_best = Some (best_key, s_best) /\
    (forall j k s, key_val !! j = Some (k, s) ->
       if arg_max _ _ _ self then score_le s s_best = true
       else score_le s_best s = true) /\
    (forall j k s, (j < idx_best)%nat -> key_val !! j = Some (k, s) -> s <> s_best) /\
    forall (estimators : list estimator) (refited : pipe_t) (rs : result_set),
      mapM (find_estimator (NodeCV _ _ cv' :: rest)) (key_split best_key)
        = Ok estimators ->
      pipe_fit (Pipe estimators) Xy = Ok refited ->
      summarize refited best_key = Ok rs ->
      fit Xy self
        = ({| children := [NodeCV _ _ cv'; NodePipe _ _ refited];
              score_name := score_name _ _ _ self;
              arg_max := arg_max _ _ _ self;
              saved_result_set := Some rs |}, Ok ()).
Proof.
  intros Hch Hsearch Hne.
  destruct (best_branch_total (arg_max _ _ _ self) key_val Hne) as (idx & key & Hbest).
  destruct (best_branch_optimal _ _ _ _ Hbest) as (s_best & Hidx & Hopt & Hfirst).
  exists idx, key, s_best. split; [done|]. split; [done|]. split; [done|].
  intros ests refited rs Hests Hfit Hsum.
  unfold Estimators.fit, mbind, get, put, lift. simpl.
  rewrite Hch. simpl. rewrite Hsearch. simpl. rewrite Hbest. simpl.
  rewrite Hests. simpl. rewrite Hfit. simpl. rewrite Hsum. simpl.
  reflexivity.
Qed.

End Refit.

Lemma leaf_transform_train_test_witness :
  exists Xy_out,
    transform nat DataFlow counting_fit constant_predict "split_train_test"
        sample_split sample_sub_dict sample_as_dict sample_leaf merged_flow
        {| wrapped := 0%nat; calls := [] |}
      = ({| wrapped := 1%nat;
            calls := [] ++ [Fit [("X", Array [[1]; [2]]%Z)];
                            Predict [("X", Array [[1]; [2]]%Z)];
                            Predict [("X", Array [[3]]%Z)]] |},
         Ok Xy_out) /\
    (forall k v, flow_get [("y", Array [[1]]%Z)] k = Ok v ->
                 flow_get Xy_out (k +:+ "/train") = Ok v) /\
    (forall k v, flow_get [("y", Array [[1]]%Z)] k = Ok v ->
                 flow_get Xy_out (k +:+ "/test") = Ok v) /\
    (forall k', flow_contains Xy_out k' = true ->
       exists k, (k' = k +:+ "/train" /\
                  flow_contains [("y", Array [[1]]%Z)] k = true) \/
                 (k' = k +:+ "/test" /\
                  flow_contains [("y", Array [[1]]%Z)] k = true)).
Proof.
  apply (leaf_transform_train_test nat DataFlow counting_fit constant_predict
           "split_train_test" sample_split sample_sub_dict sample_as_dict
           sample_leaf merged_flow
           [("X", Array [[1]; [2]]%Z)] [("X", Array [[3]]%Z)]
           [("X", Array [[1]; [2]]%Z)] [("X", Array [[1]; [2]]%Z)]
           [("X", Array [[3]]%Z)]
           [("y", Array [[1]]%Z)] [("y", Array [[1]]%Z)]
           0%nat 1%nat 1%nat 1%nat
           [("y", Array [[1]]%Z)] [("y", Array [[1]]%Z)] []);
    reflexivity.
Defined.

Lemma Z_leb_total (a b : Z) : (a <=? b)%Z = true \/ (b <=? a)%Z = true.
Proof. rewrite !Z.leb_le. lia. Qed.

Lemma Z_leb_trans (a b c : Z) :
  (a <=? b)%Z = true -> (b <=? c)%Z = true -> (a <=? c)%Z = true.
Proof. rewrite !Z.leb_le. lia. Qed.

(** C9 fails as stated: after [fit] the search subtree is still the first
    child, and the refit pipeline (of branch ["B"], the first of the two
    best) is the second. *)
Example fit_keeps_search_subtree :
  fit Z Z.leb string unit (list string) string sample_search (fun k => [k])
      sample_find (fun l => l) (fun p _ => Ok p) (fun _ k => Ok k)
      merged_flow sample_refit
  = ({| children := [NodeCV unit (list string) (); NodePipe unit (list string) ["B"]];
        score_name := "mean_score_te"; arg_max := true;
        saved_result_set := Some "B" |}, Ok ()).
Proof. vm_compute. reflexivity. Qed.

Lemma fit_keeps_search_and_refits_best_witness :
  exists (idx_best : nat) (best_key : string) (s_best : Z),
    [("A", 3%Z); ("B", 5%Z); ("C", 5%Z)] !! idx_best = Some (best_key, s_best) /\
    (forall j k s, [("A", 3%Z); ("B", 5%Z); ("C", 5%Z)] !! j = Some (k, s) ->
       if arg_max _ _ _ sample_refit then (s <=? s_best)%Z = true
       else (s_best <=? s)%Z = true) /\
    (forall j k s, (j < idx_best)%nat ->
       [("A", 3%Z); ("B", 5%Z); ("C", 5%Z)] !! j = Some (k, s) -> s <> s_best) /\
    forall (estimators : list string) (refited : list string) (rs : string),
      mapM (sample_find [NodeCV unit (list string) ()]) [best_key] = Ok estimators ->
      Ok estimators = Ok refited ->
      Ok best_key = Ok rs ->
      fit Z Z.leb string unit (list string) string sample_search (fun k => [k])
          sample_find (fun l => l) (fun p _ => Ok p) (fun _ k => Ok k)
          merged_flow sample_refit
        = ({| children := [NodeCV unit (list string) ();
                           NodePipe unit (list string) refited];
              score_name := score_name _ _ _ sample_refit;
              arg_max := arg_max _ _ _ sample_refit;
              saved_result_set := Some rs |}, Ok ()).
Proof.
  apply (fit_keeps_search_and_refits_best Z Z.leb Z_leb_total Z_leb_trans
           string unit (list string) string sample_search (fun k => [k])
           sample_find (fun l => l) (fun p _ => Ok p) (fun _ k => Ok k)
           sample_refit merged_flow () () [] [("A", 3%Z); ("B", 5%Z); ("C", 5%Z)]);
    [reflexivity|reflexivity|discriminate].
Defined.

End EstimatorsSpec.

(** ** [Methods] and the keys of its tree *)

Module MethodsSplitterSpec.
Import Py MethodsSplitter.

Section Methods.

Variable params : Type.
Variable get_signature : string -> option params -> string.
Variable dict_diff_keys : list params -> list string.
Variable _sub_dict : params -> list string -> params.
Variable set_iter : list string -> list string.

#[local] Abbreviation node := (MethodsSplitter.node params).
#[local] Abbreviation tree := (MethodsSplitter.tree params).
#[local] Abbreviation get_key := (MethodsSplitter.get_key params get_signature).
#[local] Abbreviation get_key_from := (MethodsSplitter.get_key_from params get_signature).
#[local] Abbreviation leaves_key := (MethodsSplitter.leaves_key params get_signature).
#[local] Abbreviation leaves_key_from :=
  (MethodsSplitter.leaves_key_from params get_signature).


Lemma height_child (t t' : node) (c : nat) :
  children _ t !! c = Some t' -> (height _ t' < height _ t)%nat.
Proof.
  destruct t as [cl ps sa cs]. simpl. intros Hc.
  assert (height _ t' ∈ map (height params) cs) as Hin.
  { change (map (height params) cs) with (height params <$> cs).
    apply list_elem_of_fmap. exists t'. split; [done|].
    by eapply list_elem_of_lookup_2. }
  apply max_list_elem_of_le in Hin. lia.
Qed.

Lemma height_pos (t : node) : (1 <= height _ t)%nat.
Proof. destruct t. simpl. lia. Qed.

Lemma node_at_snoc (t : node) (p : path) (c : nat) :
  node_at _ t (p ++ [c]) = node_at _ t p ≫= fun t' => children _ t' !! c.
Proof.
  revert t. induction p as [|c0 p IH]; intros t; simpl.
  - by destruct (children _ t !! c).
  - destruct (children _ t !! c0); [apply IH|done].
Qed.

#[local] Abbreviation walk self k p :=
  (walk_children params (leaves_key_from self (Some k)) p).





Section Twins.

(** Two children of the root, at [i] and [j], whose assigned arguments
    agree all the way down. *)
Variables (i j : nat).
Variable self : tree.
Hypothesis twins : forall p, assigned _ self !! (i :: p) = assigned _ self !! (j :: p).




End Twins.



Lemma omap_lookup_total {A B} (f : A -> option B) (l : list A) (n : nat) :
  (forall x, x ∈ l -> is_Some (f x)) -> omap f l !! n = l !! n ≫= f.
Proof.
  revert n. induction l as [|x l IH]; intros n Hall; [done|].
  destruct (Hall x) as [y Hy]; [by left|]. simpl. rewrite Hy.
  destruct n as [|n]; simpl; [done|].
  apply IH. intros x' Hx'. apply Hall. by right.
Qed.

Lemma children_of_root (self self' : tree) (p : path) :
  root _ self' = root _ self -> children_of _ self' p = children_of _ self p.
Proof. intros Hr. unfold children_of. by rewrite Hr. Qed.

Lemma elem_of_children_of (self : tree) (p q : path) :
  q ∈ children_of _ self p <->
  exists t c, node_at _ (root _ self) p = Some t /\
              (c < length (children _ t))%nat /\ q = p ++ [c].
Proof.
  unfold children_of. destruct (node_at _ (root _ self) p) as [t|].
  - change (map (fun c => p ++ [c]) (seq 0 (length (children _ t))))
      with ((fun c => p ++ [c]) <$> seq 0 (length (children _ t))).
    rewrite list_elem_of_fmap. split.
    + intros (c & -> & Hc). apply elem_of_seq in Hc. exists t, c. split; [done|]. split; [lia|done].
    + intros (t' & c & [= <-] & Hc & ->). exists c. split; [done|]. apply elem_of_seq. lia.
  - split; [by intros ?%elem_of_nil|]. by intros (? & ? & ? & _).
Qed.

Section Level.

(** One pass, from the tree [self0] and the nodes [curr], all of them in
    the tree. *)
Variable self0 : tree.
Variable curr : list path.
Hypothesis curr_valid :
  forall p, p ∈ curr -> is_Some (node_at _ (root _ self0) p).

#[local] Abbreviation keys := (map (get_key self0) curr).
#[local] Abbreviation states := (omap (get_parameters params self0) curr).
#[local] Abbreviation idxs key := (_list_indices keys key).
#[local] Abbreviation diff key :=
  (dict_diff_keys (omap (fun i => states !! i) (idxs key))).
#[local] Abbreviation nodes_of indices := (omap (fun i => curr !! i) indices).
#[local] Abbreviation collide_node :=
  (MethodsSplitter.collide_node params _sub_dict curr states).
#[local] Abbreviation collide_key :=
  (MethodsSplitter.collide_key params dict_diff_keys _sub_dict curr keys states).

Lemma states_lookup (idx : nat) (p : path) :
  curr !! idx = Some p ->
  exists ps, get_parameters _ self0 p = Some ps /\ states !! idx = Some ps.
Proof.
  intros Hp. assert (p ∈ curr) as Hin by (by eapply list_elem_of_lookup_2).
  destruct (curr_valid p Hin) as [t Ht].
  exists (parameters _ t). split.
  - unfold get_parameters. by rewrite Ht.
  - rewrite omap_lookup_total, Hp; simpl.
    + unfold get_parameters. by rewrite Ht.
    + intros q Hq. destruct (curr_valid q Hq) as [t' Ht'].
      unfold get_parameters. rewrite Ht'. by eexists.
Qed.

Lemma elem_of_idxs (idx : nat) (key : string) :
  idx ∈ idxs key <-> exists p, curr !! idx = Some p /\ get_key self0 p = key.
Proof.
  unfold _list_indices. rewrite list_elem_of_filter, elem_of_seq.
  change (map (get_key self0) curr) with (get_key self0 <$> curr).
  rewrite list_lookup_fmap, length_fmap. split.
  - intros [Hk _]. destruct (curr !! idx) as [p|]; [|done].
    exists p. split; [done|]. simpl in Hk. congruence.
  - intros (p & Hp & <-). rewrite Hp. split; [done|].
    apply lookup_lt_Some in Hp. lia.
Qed.

Lemma elem_of_nodes_of_idxs (q : path) (key : string) :
  q ∈ nodes_of (idxs key) <-> q ∈ curr /\ get_key self0 q = key.
Proof.
  rewrite list_elem_of_omap. split.
  - intros (idx & Hidx & Hq). apply elem_of_idxs in Hidx as (p & Hp & Hk).
    rewrite Hp in Hq. injection Hq as <-. split; [|done].
    by eapply list_elem_of_lookup_2.
  - intros [Hq Hk]. apply list_elem_of_lookup_1 in Hq as [idx Hidx].
    exists idx. split; [|done]. apply elem_of_idxs. by exists q.
Qed.

(** The inner loop, over any indices. *)
Lemma collide_nodes_spec (d : list string) (indices : list nat)
    (st : tree * list path) :
  root _ st.1 = root _ self0 ->
  let st' := fold_left (collide_node d) indices st in
  root _ st'.1 = root _ self0 /\
  (forall q,
     assigned _ st'.1 !! q =
     if decide (d <> [] /\ q ∈ nodes_of indices)
     then (fun ps => _sub_dict ps d) <$> get_parameters _ self0 q
     else assigned _ st.1 !! q) /\
  st'.2 = st.2 ++ (nodes_of indices ≫= children_of _ self0).
Proof.
  revert st. induction indices as [|idx indices IH]; intros st Hroot.
  - simpl. split; [done|]. split.
    + intros q. rewrite decide_False; [done|]. intros [_ ?%elem_of_nil]. done.
    + by rewrite app_nil_r.
  - cbn [fold_left]. destruct (curr !! idx) as [p|] eqn:Hp.
    + assert (nodes_of (idx :: indices) = p :: nodes_of indices) as ->.
      { simpl. by rewrite Hp. }
      destruct (states_lookup idx p Hp) as (ps & Hps & Hst).
      assert (collide_node d st idx
              = (if bool_decide (d = []) then st.1
                 else set_signature_args _ st.1 p (_sub_dict ps d),
                 st.2 ++ children_of _ self0 p)) as Hstep.
      { unfold MethodsSplitter.collide_node. rewrite Hp, Hst. f_equal. f_equal.
        apply children_of_root. by case_bool_decide. }
      rewrite Hstep. clear Hstep.
      match goal with |- context [fold_left _ _ ?s] => destruct (IH s) as (IH1 & IH2 & IH3) end.
      { simpl. by case_bool_decide. }
      split; [done|]. split.
      * intros q. rewrite IH2. cbn [fst].
        destruct (decide (d <> [] /\ q ∈ nodes_of indices)) as [[Hd Hq]|Hn];
          destruct (decide (d <> [] /\ q ∈ p :: nodes_of indices)) as [[Hd' Hq']|Hn'];
          try done.
        -- destruct Hn'. split; [done|]. apply elem_of_cons. by right.
        -- apply elem_of_cons in Hq' as [->|Hq']; [|by destruct Hn].
           rewrite bool_decide_eq_false_2 by done. simpl.
           by rewrite lookup_insert_eq, Hps.
        -- case_bool_decide as Hd; [done|]. simpl.
           rewrite lookup_insert_ne; [done|]. intros <-. apply Hn'.
           split; [done|]. apply elem_of_cons. by left.
      * rewrite IH3. cbn [snd]. rewrite bind_cons. by rewrite <- app_assoc.
    + assert (nodes_of (idx :: indices) = nodes_of indices) as ->.
      { simpl. by rewrite Hp. }
      assert (collide_node d st idx = st) as ->.
      { unfold MethodsSplitter.collide_node. by rewrite Hp. }
      apply IH. done.
Qed.

(** A key is treated when it is not that of exactly one node. *)
#[local] Abbreviation live key := (length (idxs key) <> 1%nat).

(** The outer loop, over any keys. *)
Lemma collide_keys_spec (Ks : list string) (st : tree * list path) :
  root _ st.1 = root _ self0 ->
  let st' := fold_left collide_key Ks st in
  root _ st'.1 = root _ self0 /\
  (forall q,
     assigned _ st'.1 !! q =
     if decide (q ∈ curr /\ get_key self0 q ∈ Ks /\ live (get_key self0 q) /\
                diff (get_key self0 q) <> [])
     then (fun ps => _sub_dict ps (diff (get_key self0 q))) <$> get_parameters _ self0 q
     else assigned _ st.1 !! q) /\
  (forall q,
     q ∈ st'.2 <->
     q ∈ st.2 \/
     exists p, p ∈ curr /\ get_key self0 p ∈ Ks /\ live (get_key self0 p) /\
               q ∈ children_of _ self0 p).
Proof.
  revert st. induction Ks as [|key Ks IH]; intros st Hroot; simpl.
  - split; [done|]. split.
    + intros q. rewrite decide_False; [done|]. intros (_ & ?%elem_of_nil & _). done.
    + intros q. split; [by left|]. intros [?|(p & _ & ?%elem_of_nil & _)]; done.
  - assert (exists st1, collide_key st key = st1 /\
              root _ st1.1 = root _ self0 /\
              (forall q, assigned _ st1.1 !! q =
                 if decide (live key /\ diff key <> [] /\ q ∈ curr /\ get_key self0 q = key)
                 then (fun ps => _sub_dict ps (diff key)) <$> get_parameters _ self0 q
                 else assigned _ st.1 !! q) /\
              (forall q, q ∈ st1.2 <->
                 q ∈ st.2 \/ (live key /\ exists p, p ∈ curr /\ get_key self0 p = key /\
                                q ∈ children_of _ self0 p)))
      as (st1 & -> & Hr1 & Ha1 & Hn1).
    { eexists. split; [done|]. unfold MethodsSplitter.collide_key.
      destruct (length (idxs key) =? 1)%nat eqn:Hlen.
      - apply Nat.eqb_eq in Hlen. split; [done|]. split.
        + intros q. rewrite decide_False; [done|]. intros [Hl _]. by apply Hl.
        + intros q. split; [by left|]. intros [?|[Hl _]]; [done|]. by destruct Hl.
      - apply Nat.eqb_neq in Hlen.
        destruct (collide_nodes_spec (diff key) (idxs key) st Hroot) as (H1 & H2 & H3).
        split; [done|]. split.
        + intros q. rewrite H2.
          destruct (decide (diff key <> [] /\ q ∈ nodes_of (idxs key))) as [[Hd Hq]|Hn].
          * apply elem_of_nodes_of_idxs in Hq as [Hq Hk]. by rewrite decide_True.
          * rewrite decide_False; [done|]. intros (_ & Hd & Hq & Hk). apply Hn.
            split; [done|]. by apply elem_of_nodes_of_idxs.
        + intros q. rewrite H3, elem_of_app, list_elem_of_bind.
          split; (intros [?|Hq]; [by left|right]).
          * destruct Hq as (p & Hq & Hp). apply elem_of_nodes_of_idxs in Hp as [Hp Hk].
            split; [done|]. by exists p.
          * destruct Hq as (_ & p & Hp & Hk & Hq). exists p. split; [done|].
            by apply elem_of_nodes_of_idxs. }
    destruct (IH st1 Hr1) as (IH1 & IH2 & IH3).
    split; [done|]. split.
    + intros q. rewrite IH2, Ha1.
      destruct (decide (q ∈ curr /\ get_key self0 q ∈ Ks /\ live (get_key self0 q) /\
                        diff (get_key self0 q) <> [])) as [(Hq & Hk & Hl & Hd)|Hn].
      * rewrite decide_True; [done|]. repeat split; try done. by right.
      * destruct (decide (live key /\ diff key <> [] /\ q ∈ curr /\ get_key self0 q = key))
          as [(Hl & Hd & Hq & <-)|Hn'].
        -- rewrite decide_True; [done|]. repeat split; try done. by left.
        -- rewrite decide_False; [done|]. intros (Hq & Hk & Hl & Hd).
           apply elem_of_cons in Hk as [Hk|Hk].
           ++ apply Hn'. by rewrite <- Hk.
           ++ by apply Hn.
    + intros q. rewrite IH3, Hn1. split.
      * intros [[?|(Hl & p & Hp & Hk & Hq)]|(p & Hp & Hk & Hl & Hq)]; [by left|right..].
        -- exists p. rewrite Hk. repeat split; try done. by left.
        -- exists p. repeat split; try done. by right.
      * intros [?|(p & Hp & Hk & Hl & Hq)]; [by left; left|].
        apply elem_of_cons in Hk as [Hk|Hk].
        -- left. right. rewrite <- Hk. split; [done|]. by exists p.
        -- right. by exists p.
Qed.

End Level.


(** The loop has passes enough: each pass goes one level down the tree. *)
Lemma resolve_level_within (passes : nat) (self : tree) (curr : list path) :
  (forall p, p ∈ curr ->
     exists t', node_at params (root params self) p = Some t' /\
                (height params t' <= S passes)%nat) ->
  let st := resolve_level params dict_diff_keys _sub_dict set_iter
              self curr (map (get_key self) curr) in
  root _ st.1 = root _ self /\
  forall p, p ∈ st.2 ->
    exists t', node_at params (root params st.1) p = Some t' /\
               (height params t' <= passes)%nat.
Proof.
  intros Hin. unfold resolve_level.
  assert (forall p, p ∈ curr -> is_Some (node_at _ (root _ self) p)) as Hvalid.
  { intros p Hp. destruct (Hin p Hp) as (t' & -> & _). by eexists. }
  destruct (collide_keys_spec self curr Hvalid
              (set_iter (map (get_key self) curr)) (self, []) eq_refl)
    as (Hr & _ & Hn).
  cbv zeta. split; [by rewrite Hr|].
  intros q. rewrite Hn. intros [?%elem_of_nil|(p & Hp & _ & _ & Hq)]; [done|].
  apply elem_of_children_of in Hq as (t0 & c & Ht0 & Hc & ->).
  destruct (Hin p Hp) as (t0' & Ht0' & Hh). rewrite Ht0 in Ht0'. injection Ht0' as <-.
  destruct (lookup_lt_is_Some_2 (children _ t0) c Hc) as [t1 Ht1].
  exists t1. split.
  - rewrite Hr. cbn [fst]. rewrite node_at_snoc, Ht0. done.
  - apply height_child in Ht1. lia.
Qed.

Lemma resolve_unfold (passes : nat) (self : tree) (curr : list path) :
  resolve params get_signature dict_diff_keys _sub_dict set_iter passes self curr =
  if has_duplicates (leaves_key self) && negb (bool_decide (curr = [])) then
    match passes with
    | O => None
    | S passes =>
        let st := resolve_level params dict_diff_keys _sub_dict
                    set_iter self curr (map (get_key self) curr) in
        resolve params get_signature dict_diff_keys _sub_dict set_iter
          passes st.1 st.2
    end
  else Some self.
Proof.
  destruct passes; simpl; [done|].
  by destruct (resolve_level _ _ _ _ _ _ _).
Qed.

Lemma resolve_returns (passes : nat) (self : tree) (curr : list path) :
  (forall p, p ∈ curr ->
     exists t', node_at params (root params self) p = Some t' /\
                (height params t' <= passes)%nat) ->
  is_Some (resolve params get_signature dict_diff_keys _sub_dict set_iter
             passes self curr).
Proof.
  revert self curr. induction passes as [|passes IH]; intros self curr Hin;
    rewrite resolve_unfold.
  - assert (curr = []) as ->.
    { destruct curr as [|p curr]; [done|]. destruct (Hin p) as (t' & _ & Hh); [by left|].
      pose proof (height_pos t'). lia. }
    rewrite bool_decide_eq_true_2 by done. rewrite andb_false_r. by eexists.
  - destruct (has_duplicates (leaves_key self) && negb (bool_decide (curr = [])));
      [|by eexists].
    apply IH. by apply resolve_level_within.
Qed.

Lemma children_of_root_within (self : tree) :
  forall p, p ∈ children_of params self [] ->
    exists t', node_at params (root params self) p = Some t' /\
               (height params t' <= height params (root params self))%nat.
Proof.
  intros p. rewrite elem_of_children_of. intros (t0 & c & [= <-] & Hc & ->).
  destruct (lookup_lt_is_Some_2 _ c Hc) as [t1 Ht1]. exists t1. split.
  - simpl. by rewrite Ht1.
  - apply height_child in Ht1. lia.
Qed.

(** [Methods.__init__] always comes to an end: it returns or raises. *)
Lemma Methods_init_returns (parameters : params) (nodes : list node) :
  is_Some (Methods_init params get_signature dict_diff_keys _sub_dict set_iter
             parameters nodes).
Proof.
  unfold Methods_init.
  set (self := {| root := Node params "Methods" parameters None nodes; assigned := ∅ |}).
  destruct (resolve_returns (height _ (root _ self)) self (children_of _ self []))
    as [self' ->]; [apply children_of_root_within|].
  by eexists.
Qed.

Section Identical.

(** [Methods( *nodes)] with the same node [t] given at [i] and at [j]. *)
Variable parameters : params.
Variable nodes : list node.
Variable t : node.
Variables (i j : nat).
Hypothesis different : i <> j.
Hypothesis node_i : nodes !! i = Some t.
Hypothesis node_j : nodes !! j = Some t.

#[local] Abbreviation Methods := (Node params "Methods" parameters None nodes).

(** What the loop keeps true: the two copies carry the same assigned
    arguments, they are in [curr_nodes] together, and the nodes of
    [curr_nodes] are in the tree, with no more levels below them than
    passes are left. *)
#[local] Abbreviation twins self :=
  (forall p, assigned params self !! (i :: p) = assigned params self !! (j :: p)).
#[local] Abbreviation together curr :=
  (forall p : path, (i :: p) ∈ (curr : list path) <-> (j :: p) ∈ (curr : list path)).
#[local] Abbreviation within passes self curr :=
  (forall p, p ∈ curr ->
     exists t', node_at params (root params self) p = Some t' /\
                (height params t' <= passes)%nat).







End Identical.

End Methods.



End MethodsSplitterSpec.

(** ** More on the in-memory store *)

Module StoresMore.
Import Py Stores StoresSpec.

Lemma load_insert_ne (m : gmap string pyobj) (k k' : string) (v : pyobj) :
  k <> k' -> load {| dict := <[k := v]> m |} k' = load {| dict := m |} k'.
Proof. intros Hne. unfold load. simpl. by rewrite lookup_insert_ne. Qed.

Lemma load_eta (s : StoreMem) (k : string) : load {| dict := dict s |} k = load s k.
Proof. done. Qed.

Section Store.

Variable dict_iter : gmap atom pyobj -> list atom.

#[local] Abbreviation save := (Stores.save dict_iter).

(** X1: a plain save ([merge=False]) raises nothing and replaces whatever
    the key held: [load] then returns the object saved. *)
Theorem save_load_round_trip (s : StoreMem) (k : string) (obj : pyobj) :
  (save s k obj false).2 = None /\
  load (save s k obj false).1 k = obj.
Proof.
  unfold Stores.save. simpl. split; [done|]. apply load_insert.
Qed.

(** X2: a save that updates no stored object in place (a plain save, a
    merging save under a key that is not bound, or under a key bound to a
    scalar) raises nothing and leaves what [load] returns for every other
    key as it was. *)
Theorem save_without_update_keeps_other_keys
    (s : StoreMem) (k k' : string) (obj : pyobj) (merge : bool) :
  k <> k' ->
  merge = false \/ dict s !! k = None \/ (exists a, dict s !! k = Some (PyAtom a)) ->
  (save s k obj merge).2 = None /\
  load (save s k obj merge).1 k' = load s k'.
Proof.
  intros Hne Hcase. unfold Stores.save.
  destruct (negb merge || negb (bool_decide (is_Some (dict s !! k)))) eqn:Hb.
  { simpl. split; [done|]. rewrite load_insert_ne by done. apply load_eta. }
  apply orb_false_iff in Hb as [Hm Hk]. apply negb_false_iff in Hm, Hk.
  apply bool_decide_eq_true in Hk as [v Hv].
  destruct Hcase as [->|[Hnone|[a Ha]]]; [done|congruence|].
  by rewrite Ha.
Qed.

(** X3: merging a mapping into a stored mapping gives, under each
    sub-key, the new value when the new mapping has one and the stored
    value otherwise. *)
Theorem save_merge_mapping_entries
    (s : StoreMem) (k : string) (v m : gmap atom pyobj) :
  dict s !! k = Some (PyDict v) ->
  exists s' d,
    save s k (PyDict m) true = (s', None) /\
    load s' k = PyDict d /\
    forall j, d !! j = match m !! j with
                       | Some x => Some x
                       | None => v !! j
                       end.
Proof.
  intros Hk. eexists _, (m ∪ v). split; [by apply save_merge_dict|].
  split; [apply load_insert|].
  intros j. destruct (m !! j) as [x|] eqn:Hj.
  - by apply lookup_union_Some_l.
  - by rewrite lookup_union_r.
Qed.

(** X4: merging saves onto a stored list accumulate: after the objects
    [objs] have been saved one after the other under the key, the list
    holds them at its end in the order of the calls, each as one item. *)
Theorem save_merge_list_accumulates
    (objs : list pyobj) (s : StoreMem) (k : string) (l : list pyobj) :
  dict s !! k = Some (PyList l) ->
  load (fold_left (fun s o => (save s k o true).1) objs s) k = PyList (l ++ objs).
Proof.
  revert s l. induction objs as [|o objs IH]; intros s l Hk.
  - simpl. rewrite app_nil_r. unfold load. by rewrite Hk.
  - cbn [fold_left]. rewrite (save_merge_list _ _ _ _ o Hk). cbn [fst].
    rewrite (IH {| dict := <[k := PyList (l ++ [o])]> (dict s) |} (l ++ [o])).
    + by rewrite <- app_assoc.
    + simpl. apply lookup_insert_eq.
Qed.

Lemma merge_from_seq2_keeps (items : list pyobj) (d : gmap atom pyobj) (j : atom) :
  is_Some (d !! j) -> is_Some ((merge_from_seq2 dict_iter d items).1 !! j).
Proof.
  revert d. induction items as [|item items IH]; intros d Hj; [done|].
  cbn [merge_from_seq2].
  destruct (kv <- as_pair dict_iter item ;; a <- hashable (fst kv) ;; Ok (a, snd kv))
    as [[a v]|e]; [|done].
  apply IH. destruct (decide (a = j)) as [->|Hne].
  - rewrite lookup_insert_eq. by eexists.
  - by rewrite lookup_insert_ne.
Qed.

Lemma dict_update_keeps (d : gmap atom pyobj) (obj : pyobj) (j : atom) :
  is_Some (d !! j) -> is_Some ((dict_update dict_iter d obj).1 !! j).
Proof.
  intros Hj. destruct obj as [[| |str]|l|m]; cbn [dict_update fst]; try done.
  - by apply merge_from_seq2_keeps.
  - by apply merge_from_seq2_keeps.
  - apply lookup_union_is_Some. by right.
Qed.

(** X5: a merging save onto a stored mapping never removes a sub-key and
    leaves a mapping, whatever object is merged and also when the merge
    raises. *)
Theorem save_merge_never_drops_subkeys
    (s : StoreMem) (k : string) (v : gmap atom pyobj) (obj : pyobj) :
  dict s !! k = Some (PyDict v) ->
  exists v',
    load (save s k obj true).1 k = PyDict v' /\
    forall j, is_Some (v !! j) -> is_Some (v' !! j).
Proof.
  intros Hk. unfold Stores.save. rewrite Hk. cbn [negb orb].
  rewrite bool_decide_eq_true_2 by (by eexists). cbn [negb].
  pose proof (dict_update_keeps v obj) as Hkeep.
  destruct (dict_update dict_iter v obj) as [v' e]. cbn [fst] in *.
  exists v'. split; [apply load_insert|done].
Qed.

End Store.

Lemma save_without_update_keeps_other_keys_witness :
  (Stores.save map_order {| dict := {[ "b" := PyList [] ]} |} "a"
     (PyAtom (AInt 1)) false).2 = None /\
  load (Stores.save map_order {| dict := {[ "b" := PyList [] ]} |} "a"
          (PyAtom (AInt 1)) false).1 "b"
    = load {| dict := {[ "b" := PyList [] ]} |} "b".
Proof.
  apply (save_without_update_keeps_other_keys map_order
           {| dict := {[ "b" := PyList [] ]} |} "a" "b");
    [discriminate|by left].
Defined.

Lemma save_merge_mapping_entries_witness :
  exists s' d,
    Stores.save map_order
        {| dict := {[ "k" := PyDict {[ AStr "a" := PyAtom (AInt 1) ]} ]} |} "k"
        (PyDict {[ AStr "b" := PyAtom (AInt 2) ]}) true = (s', None) /\
    load s' "k" = PyDict d /\
    forall j, d !! j = match ({[ AStr "b" := PyAtom (AInt 2) ]} : gmap atom pyobj) !! j with
                       | Some x => Some x
                       | None => ({[ AStr "a" := PyAtom (AInt 1) ]} : gmap atom pyobj) !! j
                       end.
Proof.
  apply (save_merge_mapping_entries map_order
           {| dict := {[ "k" := PyDict {[ AStr "a" := PyAtom (AInt 1) ]} ]} |} "k").
  reflexivity.
Defined.

Lemma save_merge_list_accumulates_witness :
  load (fold_left (fun s o => (Stores.save map_order s "k" o true).1)
          [PyAtom (AInt 1); PyList []] {| dict := {[ "k" := PyList [] ]} |}) "k"
    = PyList ([] ++ [PyAtom (AInt 1); PyList []]).
Proof.
  apply (save_merge_list_accumulates map_order [PyAtom (AInt 1); PyList []]
           {| dict := {[ "k" := PyList [] ]} |} "k" []).
  reflexivity.
Defined.

Lemma save_merge_never_drops_subkeys_witness :
  exists v',
    load (Stores.save map_order
            {| dict := {[ "k" := PyDict {[ AStr "a" := PyAtom (AInt 1) ]} ]} |} "k"
            (PyAtom (AInt 7)) true).1 "k" = PyDict v' /\
    forall j, is_Some (({[ AStr "a" := PyAtom (AInt 1) ]} : gmap atom pyobj) !! j) ->
              is_Some (v' !! j).
Proof.
  apply (save_merge_never_drops_subkeys map_order
           {| dict := {[ "k" := PyDict {[ AStr "a" := PyAtom (AInt 1) ]} ]} |} "k").
  reflexivity.
Defined.

End StoresMore.

(** ** Conversion between objects and dicts *)

Module ConversionSpec.
Import Py Conversion.

Lemma size_elem (x : pyval) (l : list pyval) :
  x ∈ l -> (size x <= list_sum (map size l))%nat.
Proof.
  induction 1 as [x l|x y l _ IH]; simpl; lia.
Qed.

Lemma size_lookup (d : gmap atom pyval) (k : atom) (v : pyval) :
  d !! k = Some v ->
  (size v <= map_fold (fun _ x acc => size x + acc)%nat 0%nat d)%nat.
Proof.
  intros Hk. rewrite (map_fold_delete_L _ _ k v d); [lia| |done].
  intros. lia.
Qed.

Lemma pyval_size_ind (P : pyval -> Prop) :
  (forall v, (forall v', (size v' < size v)%nat -> P v') -> P v) ->
  forall v, P v.
Proof.
  intros H v. remember (size v) as n eqn:Hn. revert v Hn.
  induction n as [n IH] using lt_wf_ind. intros v ->.
  apply H. intros v' Hlt. by apply (IH (size v')).
Qed.

Section RoundTrip.

Variable dict_iter : gmap atom pyval -> list atom.
Variable import_eval : pyval -> pyval -> option exn.
Variable object_new : string -> string -> option exn.

(** Iterating a dict visits each of its keys once. *)
Hypothesis dict_iter_keys : forall d k, k ∈ dict_iter d <-> is_Some (d !! k).
Hypothesis dict_iter_NoDup : forall d, NoDup (dict_iter d).

#[local] Abbreviation dict_to_obj :=
  (Conversion.dict_to_obj dict_iter import_eval object_new).
#[local] Abbreviation portable := (Conversion.portable import_eval object_new).

Lemma comprehension_Ok (keys : list atom) (calls : gmap atom (result pyval))
    (d : gmap atom pyval) :
  NoDup keys ->
  (forall k, k ∈ keys <-> is_Some (d !! k)) ->
  (forall k v, d !! k = Some v -> calls !! k = Some (Ok v)) ->
  comprehension keys calls = Ok d.
Proof.
  intros Hnd Hkeys Hcalls. unfold comprehension.
  assert (Hm : forall ks, (forall k, k ∈ ks -> is_Some (d !! k)) ->
            mapM (fun k => match calls !! k with
                           | Some r => v <- r ;; Ok (k, v)
                           | None => Raise KeyError
                           end) ks
            = Ok (omap (fun k => (k,.) <$> d !! k) ks)).
  { induction ks as [|k ks IH]; intros Hks; [done|].
    destruct (Hks k) as [v Hv]; [by left|].
    cbn [mapM omap list_omap]. rewrite (Hcalls _ _ Hv), Hv. cbn.
    rewrite IH; [done|]. intros k' Hk'. apply Hks. by right. }
  rewrite Hm by (intros k Hk; by apply Hkeys). cbn. f_equal.
  apply map_eq. intros i.
  destruct (d !! i) as [v|] eqn:Hi.
  - apply elem_of_list_to_map_1.
    + clear Hm. assert (Hsub : forall k, k ∈ keys -> is_Some (d !! k))
        by (intros k Hk; by apply Hkeys).
      clear Hkeys. induction Hnd as [|k ks Hk Hnd IH]; [constructor|].
      destruct (Hsub k) as [w Hw]; [by left|].
      cbn. rewrite Hw. cbn. constructor.
      * intros Hin. apply Hk. apply list_elem_of_fmap in Hin as [[k' w'] [-> Hin]].
        apply list_elem_of_omap in Hin as (k'' & Hk'' & Heq).
        destruct (d !! k''); simplify_eq/=. done.
      * apply IH. intros k' Hk'. apply Hsub. by right.
    + apply list_elem_of_omap. exists i. split; [|by rewrite Hi].
      apply Hkeys. by rewrite Hi.
  - apply not_elem_of_list_to_map_1. intros Hin.
    apply list_elem_of_fmap in Hin as [[k' w'] [-> Hin]].
    apply list_elem_of_omap in Hin as (k'' & Hk'' & Heq).
    destruct (d !! k'') eqn:E; simplify_eq/=; congruence.
Qed.

Lemma sequence_Ok (l : list pyval) :
  (forall v, v ∈ l -> dict_to_obj (obj_to_dict v) = Ok v) ->
  mapM id (map dict_to_obj (map obj_to_dict l)) = Ok l.
Proof.
  induction l as [|v l IH]; intros H; [done|].
  cbn [map mapM]. unfold id at 1. rewrite H by (by left). cbn.
  rewrite IH; [done|]. intros v' Hv'. apply H. by right.
Qed.

Lemma portable_lookup (d : gmap atom pyval) k v :
  map_Forall (fun _ b => b = true) (portable <$> d) ->
  d !! k = Some v -> portable v = true.
Proof.
  intros Hall Hk. apply (Hall k). by rewrite lookup_fmap, Hk.
Qed.

Lemma comprehension_round_trip (d : gmap atom pyval) (calls : gmap atom (result pyval)) :
  (forall k v, d !! k = Some v -> calls !! k = Some (Ok v)) ->
  comprehension (dict_iter (obj_to_dict <$> d)) calls = Ok d.
Proof.
  intros H. apply comprehension_Ok; [apply dict_iter_NoDup| |done].
  intros k. rewrite dict_iter_keys, lookup_fmap. by rewrite fmap_is_Some.
Qed.

Lemma dict_to_obj_obj_to_dict (obj : pyval) :
  portable obj = true -> dict_to_obj (obj_to_dict obj) = Ok obj.
Proof.
  induction obj as [obj IH] using pyval_size_ind. intros Hp.
  destruct obj as [a|l|l|d|t|f m|c m attrs].
  - done.
  - cbn [obj_to_dict Conversion.dict_to_obj].
    rewrite sequence_Ok; [done|]. intros v Hv. apply IH.
    + simpl. pose proof (size_elem _ _ Hv). lia.
    + cbn in Hp. rewrite forallb_forall in Hp. apply Hp. by apply list_elem_of_In.
  - done.
  - cbn in Hp. apply andb_prop in Hp as [Hk Hall].
    apply bool_decide_eq_true in Hk as (Hk1 & Hk2 & Hk3).
    apply bool_decide_eq_true in Hall.
    cbn [obj_to_dict Conversion.dict_to_obj].
    rewrite !lookup_fmap, Hk1, Hk2, Hk3. cbn [fmap option_fmap option_map].
    rewrite comprehension_round_trip; [done|].
    intros k v Hv. rewrite !lookup_fmap, Hv. cbn. f_equal. apply IH.
    + simpl. pose proof (size_lookup _ _ _ Hv). lia.
    + by eapply portable_lookup.
  - done.
  - cbn in Hp. apply bool_decide_eq_true in Hp.
    cbn [obj_to_dict Conversion.dict_to_obj].
    rewrite lookup_insert_ne by done. rewrite lookup_singleton_ne by done.
    rewrite lookup_insert_ne by done. rewrite lookup_singleton_eq.
    rewrite lookup_delete_ne by done. rewrite lookup_insert_eq.
    unfold named. by rewrite Hp.
  - cbn in Hp. apply andb_prop in Hp as [Hp Hall]. apply andb_prop in Hp as [Hp Hk].
    apply andb_prop in Hp as [Hi Hnew].
    apply bool_decide_eq_true in Hi. apply bool_decide_eq_true in Hnew.
    apply bool_decide_eq_true in Hk as [Hk1 Hk2].
    apply bool_decide_eq_true in Hall.
    cbn [obj_to_dict Conversion.dict_to_obj]. cbv zeta.
    rewrite lookup_insert_ne by done. rewrite lookup_insert_eq.
    rewrite lookup_delete_ne by done. rewrite lookup_insert_eq.
    assert (Hd : delete KClassModule
                   (delete KClassName
                      (<[KClassModule:=VScalar (AStr m)]>
                         (<[KClassName:=VScalar (AStr c)]> (obj_to_dict <$> attrs))))
                 = obj_to_dict <$> attrs).
    { rewrite delete_insert_ne by done. rewrite delete_insert_eq.
      rewrite delete_insert_eq.
      rewrite (delete_id (obj_to_dict <$> attrs)) by (by rewrite lookup_fmap, Hk1).
      apply delete_id. by rewrite lookup_fmap, Hk2. }
    rewrite Hd. rewrite comprehension_round_trip.
    + cbn. unfold named, new_instance. by rewrite Hi, Hnew.
    + intros k v Hv. rewrite lookup_fmap.
      rewrite lookup_insert_ne by (intros <-; congruence).
      rewrite lookup_insert_ne by (intros <-; congruence).
      rewrite lookup_fmap, Hv. cbn. f_equal. apply IH.
      * simpl. pose proof (size_lookup _ _ _ Hv). lia.
      * by eapply portable_lookup.
Qed.

(** X6: converting an object to its JSON-ready form and back gives the
    object again, when the object is portable: built from scalars, lists,
    dicts, arrays, functions and instances, without tuples and without the
    reserved keys, its classes and functions being importable and its
    classes being ones that [object.__new__] instantiates (under Python 2,
    not the old-style classes). *)
Theorem obj_dict_round_trip (obj : pyval) :
  portable obj = true -> dict_to_obj (obj_to_dict obj) = Ok obj.
Proof. apply dict_to_obj_obj_to_dict. Qed.

(** X7: a tuple does not survive the conversion: it comes back as the list
    of its items. *)
Theorem tuple_comes_back_as_list (l : list pyval) :
  forallb portable l = true ->
  dict_to_obj (obj_to_dict (VTuple l)) = Ok (VList l).
Proof.
  intros Hl. change (obj_to_dict (VTuple l)) with (obj_to_dict (VList l)).
  by apply dict_to_obj_obj_to_dict.
Qed.

End RoundTrip.

(** X8: a plain dict that holds the key ["__array__"] (and neither
    ["__class_name__"] nor ["__func_name__"]) is read back as an array made
    from the value under that key; its other entries are lost. *)
Theorem array_key_captured dict_iter import_eval object_new
    (d : gmap atom pyval) (t : pyval) :
  d !! KClassName = None ->
  d !! KFuncName = None ->
  d !! KArray = Some t ->
  Conversion.dict_to_obj dict_iter import_eval object_new (obj_to_dict (VDict d))
    = Ok (VArray (obj_to_dict t)).
Proof.
  intros H1 H2 H3. cbn [obj_to_dict Conversion.dict_to_obj].
  by rewrite !lookup_fmap, H1, H2, H3.
Qed.

(** X9: a plain dict that holds the key ["__class_name__"] is taken for
    an object: without the key ["__class_module__"] reading it back raises
    [KeyError]. *)
Theorem class_name_key_raises dict_iter import_eval object_new
    (d : gmap atom pyval) (c : pyval) :
  d !! KClassName = Some c ->
  d !! KClassModule = None ->
  Conversion.dict_to_obj dict_iter import_eval object_new (obj_to_dict (VDict d))
    = Raise KeyError.
Proof.
  intros H1 H2. cbn [obj_to_dict Conversion.dict_to_obj].
  rewrite !lookup_fmap, H1. cbn.
  rewrite lookup_delete_ne by done. by rewrite lookup_fmap, H2.
Qed.

Lemma key_order_keys (d : gmap atom pyval) (k : atom) :
  k ∈ key_order d <-> is_Some (d !! k).
Proof.
  unfold key_order. rewrite list_elem_of_fmap. split.
  - intros [[k' v] [-> Hin]]. apply elem_of_map_to_list in Hin. by exists v.
  - intros [v Hv]. exists (k, v). split; [done|]. by apply elem_of_map_to_list.
Qed.

Lemma key_order_NoDup (d : gmap atom pyval) : NoDup (key_order d).
Proof. apply NoDup_fst_map_to_list. Qed.

Lemma obj_dict_round_trip_witness :
  portable importable new_style sample_instance = true /\
  Conversion.dict_to_obj key_order importable new_style (obj_to_dict sample_instance)
    = Ok sample_instance.
Proof.
  assert (H : portable importable new_style sample_instance = true) by (by vm_compute).
  split; [exact H|].
  exact (obj_dict_round_trip key_order importable new_style key_order_keys
           key_order_NoDup sample_instance H).
Defined.

(** An instance of an old-style class is not portable: reading it back
    raises the [TypeError] of [object.__new__]. *)
Example old_style_instance_raises :
  portable importable new_style old_style_instance = false /\
  Conversion.dict_to_obj key_order importable new_style (obj_to_dict old_style_instance)
    = Raise TypeError.
Proof. split; vm_compute; reflexivity. Qed.

Lemma tuple_comes_back_as_list_witness :
  Conversion.dict_to_obj key_order importable new_style
      (obj_to_dict (VTuple [VScalar (AInt 1); sample_instance]))
    = Ok (VList [VScalar (AInt 1); sample_instance]).
Proof.
  apply (tuple_comes_back_as_list key_order importable new_style key_order_keys
           key_order_NoDup).
  by vm_compute.
Defined.

Lemma array_key_captured_witness :
  Conversion.dict_to_obj key_order importable new_style
      (obj_to_dict (VDict {[ KArray := VTuple [VScalar (AInt 1)];
                              AStr "unit" := VScalar (AStr "mm") ]}))
    = Ok (VArray (VList [VScalar (AInt 1)])).
Proof.
  apply (array_key_captured key_order importable new_style
           {[ KArray := VTuple [VScalar (AInt 1)]; AStr "unit" := VScalar (AStr "mm") ]}
           (VTuple [VScalar (AInt 1)])); by vm_compute.
Defined.

Lemma class_name_key_raises_witness :
  Conversion.dict_to_obj key_order importable new_style
      (obj_to_dict (VDict {[ KClassName := VScalar (AStr "SVC") ]}))
    = Raise KeyError.
Proof.
  apply (class_name_key_raises key_order importable new_style
           {[ KClassName := VScalar (AStr "SVC") ]} (VScalar (AStr "SVC")));
    by vm_compute.
Defined.

End ConversionSpec.

(** ** More on slicers and splitters *)

Module SplittersMore.
Import Py Splitters SplittersSpec.

(** X10: the primary signatures of the folds of one slicer differ from
    fold to fold, and their secondary signatures are all the same, which
    is what makes the results of the folds meet under one key. *)
Theorem slicer_signatures (self : RowSlicer) (i j : Z) :
  (get_signature (set_nb self i) 1 = get_signature (set_nb self j) 1 -> i = j) /\
  get_signature (set_nb self i) 2 = get_signature (set_nb self j) 2.
Proof.
  split; [|done].
  unfold get_signature. simpl. intros H.
  apply (inj (String.app _)) in H. apply (inj (String.app _)) in H.
  apply EstimatorsSpec.suffix_inj in H. by apply (inj pretty) in H.
Qed.

Lemma fold_at_last (fs : list (list Z * list Z)) (last : list Z * list Z)
    (cpt nb : Z) bound :
  (nb < cpt \/ cpt + Z.of_nat (length fs) <= nb)%Z ->
  fold_at cpt nb (fs ++ [last]) bound = Some last.
Proof.
  revert cpt bound. induction fs as [|f fs IH]; intros cpt bound H; simpl.
  - destruct (cpt =? nb)%Z; done.
  - destruct (Z.eqb_spec cpt nb) as [->|Hne]; [simpl in H; lia|].
    apply IH. simpl in H. lia.
Qed.

(** X11: with the folds cached, an index below the size of the list but
    outside the folds (negative, or past the last fold) is not refused:
    the slicer is given that number and the rows of the last fold. *)
Theorem getitem_beyond_folds_gives_last
    (cv : CV) (h : heap) (l : loc) (s : RowSlicer) (i : Z)
    (fs : list (list Z * list Z)) (train test : list Z) :
  slicer (cv_children cv) = Some l ->
  h !! l = Some s ->
  _sclices cv = Some (fs ++ [(train, test)]) ->
  (i < size (cv_children cv))%Z ->
  (i < 0 \/ Z.of_nat (length fs) <= i)%Z ->
  exists s',
    getitem cv i h = (<[l := s']> h, Ok l) /\
    nb s' = i /\
    slices s' = SlicesDict {[ "train" := train; "test" := test ]}.
Proof.
  intros Hl Hs Hf Hi Hout. unfold getitem.
  destruct (Z.leb_spec (size (cv_children cv)) i) as [?|_]; [lia|].
  rewrite Hl. unfold move_to_child. rewrite Hs, Hf.
  rewrite fold_at_last by lia. simpl. eexists. split; [done|]. done.
Qed.

Lemma getitem_Ok (cv : CV) (l : loc) (i : Z) (h : heap) (s : RowSlicer) :
  slicer (cv_children cv) = Some l ->
  h !! l = Some s ->
  _sclices cv <> Some [] ->
  (i < size (cv_children cv))%Z ->
  exists s',
    getitem cv i h = (<[l := s']> h, Ok l) /\
    (signature_name s' = signature_name s /\ apply_on s' = apply_on s /\
     children s' = children s /\
     (_sclices cv = None -> slices s' = slices s /\ n s' = n s)) /\
    forall h0 s0,
      h0 !! l = Some s0 ->
      signature_name s0 = signature_name s /\ apply_on s0 = apply_on s /\
      children s0 = children s /\
      (_sclices cv = None -> slices s0 = slices s /\ n s0 = n s) ->
      getitem cv i h0 = (<[l := s']> h0, Ok l).
Proof.
  intros Hl Hs Hf Hi. unfold getitem.
  destruct (Z.leb_spec (size (cv_children cv)) i) as [?|_]; [lia|].
  rewrite Hl. unfold move_to_child. rewrite Hs.
  destruct (_sclices cv) as [folds|].
  - destruct (fold_at_is_Some 0 i folds None) as [[train test] Hfold].
    { left. congruence. }
    rewrite Hfold. simpl. eexists. split; [reflexivity|].
    split; [done|].
    intros h0 s0 Hs0 (H1 & H2 & H3 & _). rewrite Hs0. simpl. by rewrite H1, H2, H3.
  - eexists. split; [reflexivity|].
    split; [done|].
    intros h0 s0 Hs0 (H1 & H2 & H3 & H4). rewrite Hs0. unfold set_nb.
    destruct H4 as [H4 H5]; [done|]. by rewrite H1, H2, H3, H4, H5.
Qed.

Lemma iter_from_S (cv : CV) (i : Z) (count : nat) (h : heap) :
  iter_from cv i (S count) h =
  match getitem cv i h with
  | (h, Raise e) => (h, Raise e)
  | (h, Ok item) =>
      match iter_from cv (i + 1) count h with
      | (h, Raise e) => (h, Raise e)
      | (h, Ok items) => (h, Ok (item :: items))
      end
  end.
Proof. done. Qed.

Lemma iter_from_same (cv : CV) (l : loc) (count : nat) :
  slicer (cv_children cv) = Some l ->
  _sclices cv <> Some [] ->
  forall (i : Z) (h : heap) (s : RowSlicer),
    h !! l = Some s ->
    (i + Z.of_nat count < size (cv_children cv))%Z ->
    iter_from cv i (S count) h
      = ((getitem cv (i + Z.of_nat count) h).1, Ok (replicate (S count) l)).
Proof.
  intros Hl Hf. induction count as [|count IH]; intros i h s Hs Hi.
  - rewrite iter_from_S. replace (i + Z.of_nat 0)%Z with i by lia.
    destruct (getitem_Ok cv l i h s Hl Hs Hf) as (s' & -> & _); [lia|]. done.
  - rewrite iter_from_S.
    destruct (getitem_Ok cv l i h s Hl Hs Hf) as (s' & -> & Hsame & _); [lia|].
    rewrite (IH (i + 1)%Z (<[l:=s']> h) s') by (rewrite ?lookup_insert_eq; done || lia).
    replace (i + 1 + Z.of_nat count)%Z with (i + Z.of_nat (S count))%Z by lia.
    cbn [fst].
    destruct (getitem_Ok cv l (i + Z.of_nat (S count)) h s Hl Hs Hf)
      as (s'' & Hg & _ & Hany); [lia|].
    rewrite (Hany (<[l:=s']> h) s') by (rewrite ?lookup_insert_eq; done).
    rewrite Hg. cbn [fst replicate]. by rewrite insert_insert_eq.
Qed.

(** X12: iterating over the children of a [CV] of [k + 1] folds yields
    the same slicer [k + 1] times, and leaves it as [children[k]] alone
    does: collecting the children does not keep the folds apart. *)
Theorem iter_yields_one_slicer
    (cv : CV) (l : loc) (h : heap) (s : RowSlicer) (k : nat) :
  slicer (cv_children cv) = Some l ->
  h !! l = Some s ->
  _sclices cv <> Some [] ->
  size (cv_children cv) = Z.of_nat (S k) ->
  iter cv h = ((getitem cv (Z.of_nat k) h).1, Ok (replicate (S k) l)).
Proof.
  intros Hl Hs Hf Hk. unfold iter. rewrite Hk, Nat2Z.id.
  rewrite (iter_from_same cv l k Hl Hf 0 h s Hs) by lia.
  by rewrite Z.add_0_l.
Qed.

(** X13: an empty index list and an empty dict of roles are accepted by
    [set_sclices], but [transform] then treats the slicer as one that was
    never set. *)
Theorem empty_slices_are_unset
    (top_down : RowSlicer -> string -> bool -> DataFlow -> RowSlicer * result DataFlow)
    (self : RowSlicer) (recursion : bool) (sample_set : option string)
    (Xy : DataFlow) :
  exists s1 s2,
    set_sclices self (SlicesList []) = Ok s1 /\
    set_sclices self (SlicesDict ∅) = Ok s2 /\
    transform top_down s1 recursion sample_set Xy
      = (s1, Raise (ValueError "Slicing hasn't been initialized")) /\
    transform top_down s2 recursion sample_set Xy
      = (s2, Raise (ValueError "Slicing hasn't been initialized")).
Proof. by eexists _, _. Qed.

Lemma list_remove_middle (k : string) (pre suf : list string) :
  k ∉ pre -> list_remove k (pre ++ k :: suf) = Some (pre ++ suf).
Proof.
  induction pre as [|x pre IH]; intros Hk; simpl.
  - by rewrite decide_True.
  - rewrite decide_False by (intros ->; apply Hk; by left).
    rewrite IH; [done|]. intros Hin. apply Hk. by right.
Qed.

Lemma lookup_app_length (pre suf : list string) :
  (pre ++ suf) !! length pre = suf !! 0%nat.
Proof.
  rewrite lookup_app_r by lia. by rewrite Nat.sub_diag.
Qed.

(** The first loop of [transform] drops exactly the names of the wrong
    dimension, when no two of them follow each other in the list. *)
Lemma filter_loop_exact (self : RowSlicer) (Xy : DataFlow) (suf pre : list string) :
  NoDup (pre ++ suf) ->
  (forall k, k ∈ suf -> flow_contains Xy k = true) ->
  (forall i k k', suf !! i = Some k -> suf !! S i = Some k' ->
     wrong_dimension self Xy k = Ok true -> wrong_dimension self Xy k' = Ok false) ->
  filter_loop self Xy (length pre) (pre ++ suf)
    = (pre ++ filter (fun k => wrong_dimension self Xy k = Ok false) suf, None).
Proof.
  remember (length suf) as m eqn:Hm. revert suf pre Hm.
  induction m as [m IH] using lt_wf_ind. intros suf pre -> Hnd Hin Hadj.
  rewrite filter_loop_unfold, lookup_app_length.
  destruct suf as [|k suf]; [done|]. cbn [lookup list_lookup].
  destruct (wrong_dimension_contains self Xy k) as [b Hb].
  { apply Hin. by left. }
  rewrite Hb. destruct b.
  - rewrite list_remove_middle.
    2:{ apply NoDup_app in Hnd as (_ & Hd & _). intros Hk. apply (Hd _ Hk). by left. }
    rewrite filter_cons_False by (rewrite Hb; congruence).
    assert (Hnd' : NoDup (pre ++ suf)).
    { apply NoDup_app in Hnd as (H1 & H2 & H3). apply NoDup_app. split; [done|].
      split; [|by apply NoDup_cons in H3 as [_ ?]].
      intros x Hx Hx'. apply (H2 _ Hx). by right. }
    destruct suf as [|k' suf].
    + rewrite filter_loop_unfold. rewrite lookup_ge_None_2; [done|].
      rewrite length_app. simpl. lia.
    + assert (Hk' : wrong_dimension self Xy k' = Ok false) by (by apply (Hadj 0%nat k k')).
      rewrite filter_cons_True by done.
      replace (pre ++ k' :: suf) with ((pre ++ [k']) ++ suf) by (by rewrite <- app_assoc).
      replace (S (length pre)) with (length (pre ++ [k'])) by (rewrite length_app; simpl; lia).
      rewrite (IH (length suf)); [by rewrite <- app_assoc|simpl; lia|done| | |].
      * by rewrite <- app_assoc.
      * intros x Hx. apply Hin. right. by right.
      * intros i x x' Hx Hx'. by apply (Hadj (S (S i))).
  - rewrite filter_cons_True by done.
    replace (pre ++ k :: suf) with ((pre ++ [k]) ++ suf) by (by rewrite <- app_assoc).
    replace (S (length pre)) with (length (pre ++ [k])) by (rewrite length_app; simpl; lia).
    rewrite (IH (length suf)); [by rewrite <- app_assoc|simpl; lia|done| | |].
    + by rewrite <- app_assoc.
    + intros x Hx. apply Hin. by right.
    + intros i x x' Hx Hx'. by apply (Hadj (S i)).
Qed.

Section SlicerMore.

Variable top_down :
  RowSlicer -> string -> bool -> DataFlow -> RowSlicer * result DataFlow.

#[local] Abbreviation transform := (Splitters.transform top_down).

(** The two loops of [transform] when no two entries of the wrong
    dimension follow each other in the flow. *)
Lemma transform_separated (self : RowSlicer) (indices : list Z)
    (sample_set : option string) (Xy : DataFlow) :
  apply_on self = ApplyNone ->
  slices self = SlicesList indices ->
  indices <> [] ->
  (forall i, i ∈ indices -> (- Z.of_nat (n self) <= i < Z.of_nat (n self))%Z) ->
  NoDup (flow_keys Xy) ->
  (forall i k k', flow_keys Xy !! i = Some k -> flow_keys Xy !! S i = Some k' ->
     wrong_dimension self Xy k = Ok true -> wrong_dimension self Xy k' = Ok false) ->
  exists Xy',
    transform self false sample_set Xy = (self, Ok Xy') /\
    forall k,
      (wrong_dimension self Xy k = Ok true -> flow_get Xy' k = flow_get Xy k) /\
      (forall rows, flow_get Xy k = Ok (Array rows) -> length rows = n self ->
         exists rows', take_rows rows indices = Ok rows' /\
                       flow_get Xy' k = Ok (Array rows')).
Proof.
  intros Ha Hs Hne Hrange Hnd Hadj. unfold Splitters.transform.
  rewrite Hs. cbn [slices_unset]. rewrite bool_decide_eq_false_2 by done.
  rewrite (select_keys_fresh _ _ Ha).
  pose proof (filter_loop_exact self Xy (flow_keys Xy) [] Hnd) as Hex.
  cbn [length app] in Hex. rewrite Hex; [|by intros; apply bool_decide_eq_true|done].
  cbn [fst].
  assert (Hidx : indices_of self sample_set = Ok indices)
    by (unfold indices_of; by rewrite Hs).
  assert (Hnd' : NoDup (filter (fun k => wrong_dimension self Xy k = Ok false)
                          (flow_keys Xy))) by (by apply NoDup_filter).
  destruct (slice_loop_total self sample_set indices _ Xy Hidx Hnd') as [Xy' Ht].
  { intros k Hk _. apply list_elem_of_filter in Hk as [Hgood Hk].
    unfold wrong_dimension in Hgood.
    destruct (flow_get Xy k) as [[rows|o]|] eqn:Hget; [|done..].
    cbn in Hgood. injection Hgood as Hgood. apply negb_false_iff in Hgood.
    apply Nat.eqb_eq in Hgood.
    destruct (take_rows_total rows indices) as [rs Hrs]; [by rewrite Hgood|].
    exists (Array rows), (Array rs). split; [done|]. cbn. by rewrite Hrs. }
  exists Xy'. split; [by rewrite Ht|]. intros k.
  pose proof (slice_loop_get self sample_set indices _ Xy Xy' Hidx Hnd' Ht k)
    as [Hin Hout].
  split.
  - intros Hbad. apply Hout. intros Hk. apply list_elem_of_filter in Hk as [Hk _].
    congruence.
  - intros rows Hk Hlen.
    assert (Hgood : wrong_dimension self Xy k = Ok false).
    { unfold wrong_dimension. rewrite Hk. cbn. rewrite Hlen. by rewrite Nat.eqb_refl. }
    assert (Hc : flow_contains Xy k = true) by (apply flow_get_Ok; eauto).
    destruct Hin as (v & v' & Hv & Hv' & Hget).
    { apply list_elem_of_filter. split; [done|]. by apply bool_decide_eq_true in Hc. }
    { done. }
    rewrite Hk in Hv. injection Hv as <-. cbn in Hv'.
    destruct (take_rows rows indices) as [rows'|] eqn:Hr; [|done].
    cbn in Hv'. injection Hv' as <-. eauto.
Qed.

(** X14: on a flow whose entries are all arrays with a first axis, when no
    two arrays of the wrong length follow each other in the flow (and the
    slicing applies to the whole flow, with one index list in range),
    [transform] returns, every array of the wrong length is unchanged, and
    every array of the expected length is reduced to the rows at the
    indices. *)
Theorem transform_skips_separated_mismatches
    (self : RowSlicer) (indices : list Z) (sample_set : option string)
    (Xy : DataFlow) :
  apply_on self = ApplyNone ->
  slices self = SlicesList indices ->
  indices <> [] ->
  (forall i, i ∈ indices -> (- Z.of_nat (n self) <= i < Z.of_nat (n self))%Z) ->
  NoDup (flow_keys Xy) ->
  (forall k, k ∈ flow_keys Xy -> exists rows, flow_get Xy k = Ok (Array rows)) ->
  (forall i k k' rows rows',
     flow_keys Xy !! i = Some k -> flow_keys Xy !! S i = Some k' ->
     flow_get Xy k = Ok (Array rows) -> flow_get Xy k' = Ok (Array rows') ->
     length rows <> n self -> length rows' = n self) ->
  exists Xy',
    transform self false sample_set Xy = (self, Ok Xy') /\
    forall k rows, flow_get Xy k = Ok (Array rows) ->
      (length rows <> n self -> flow_get Xy' k = Ok (Array rows)) /\
      (length rows = n self ->
         exists rows', take_rows rows indices = Ok rows' /\
                       flow_get Xy' k = Ok (Array rows')).
Proof.
  intros Ha Hs Hne Hrange Hnd Harr Hadj.
  destruct (transform_separated self indices sample_set Xy Ha Hs Hne Hrange Hnd)
    as (Xy' & Ht & Hres).
  { intros i k k' Hk Hk' Hbad.
    destruct (Harr k) as [rows Hrows]; [by eapply list_elem_of_lookup_2|].
    destruct (Harr k') as [rows' Hrows']; [by eapply list_elem_of_lookup_2|].
    unfold wrong_dimension in *. rewrite Hrows in Hbad. rewrite Hrows'. cbn in *.
    injection Hbad as Hbad. apply negb_true_iff, Nat.eqb_neq in Hbad.
    by rewrite (Hadj i k k' rows rows' Hk Hk' Hrows Hrows' Hbad), Nat.eqb_refl. }
  exists Xy'. split; [done|]. intros k rows Hk.
  destruct (Hres k) as [Hbad Hgood]. split.
  - intros Hlen. rewrite Hbad; [done|].
    unfold wrong_dimension. rewrite Hk. cbn.
    by rewrite (proj2 (Nat.eqb_neq _ _) Hlen).
  - intros Hlen. by apply Hgood.
Qed.

(** X15: an [apply_on] that is a [str] is read character by character:
    when there is no entry named by its first character, [transform]
    raises [KeyError], whether or not the flow has an entry of the whole
    name. *)
Theorem transform_reads_str_by_character
    (self : RowSlicer) (c : ascii) (rest : string) (sample_set : option string)
    (Xy : DataFlow) :
  apply_on self = ApplyStr (String c rest) ->
  slices_unset (slices self) = false ->
  flow_contains Xy (String c EmptyString) = false ->
  transform self false sample_set Xy = (self, Raise KeyError).
Proof.
  intros Ha Hs Hc. unfold Splitters.transform, select_keys, data_keys_of.
  rewrite Hs, Ha. cbn [chars list_ascii_of_string map filter_str].
  unfold wrong_dimension. by rewrite (flow_get_Raise _ _ Hc).
Qed.

Lemma filter_loop_same_n (self self' : RowSlicer) (Xy : DataFlow) (m : nat) :
  n self' = n self ->
  forall i l, (length l - i <= m)%nat ->
    filter_loop self' Xy i l = filter_loop self Xy i l.
Proof.
  intros Hn. induction m as [|m IH]; intros i l Hm.
  - rewrite (filter_loop_unfold self' Xy i l), (filter_loop_unfold self Xy i l).
    rewrite lookup_ge_None_2 by lia. done.
  - rewrite (filter_loop_unfold self' Xy i l), (filter_loop_unfold self Xy i l).
    destruct (l !! i) as [k|] eqn:Hk; [|done].
    apply lookup_lt_Some in Hk.
    unfold wrong_dimension. rewrite Hn.
    destruct (flow_get Xy k) as [v|e]; cbn; [|done].
    destruct (match v with
              | Array rows => negb (length rows =? n self)%nat
              | NonArray _ => true
              end).
    + destruct (list_remove k l) as [l'|] eqn:Hl; [|done].
      apply IH. apply list_remove_length in Hl. lia.
    + apply IH. lia.
Qed.

Lemma slice_loop_same_slices (self self' : RowSlicer) sample_set l Xy :
  slices self' = slices self ->
  slice_loop self' sample_set l Xy = slice_loop self sample_set l Xy.
Proof.
  intros Hs. revert Xy. induction l as [|k l IH]; intros Xy; [done|].
  cbn [slice_loop]. unfold indices_of. rewrite Hs.
  destruct (negb (flow_contains Xy k)); [apply IH|].
  destruct (match slices self with
            | SlicesNone => Raise TypeError
            | SlicesList l0 => Ok l0
            | SlicesDict d =>
                if no_sample_set sample_set
                then Raise (ValueError "sample_set should be provided")
                else match d !! default EmptyString sample_set with
                     | Some indices => Ok indices
                     | None => Raise KeyError
                     end
            end) as [idx|]; cbn; [|done].
  destruct (flow_get Xy k) as [v|]; cbn; [|done].
  destruct (fancy_index v idx) as [v'|]; cbn; [|done]. apply IH.
Qed.

(** X16: the list given as [apply_on] is consumed: when its only name is
    an entry of the wrong dimension, [transform] returns the flow
    unchanged and leaves the slicer with an empty [apply_on], after which
    the slicer treats every flow as one with [apply_on=None] does. *)
Theorem apply_on_list_is_consumed
    (self : RowSlicer) (k : string) (sample_set : option string) (Xy : DataFlow) :
  apply_on self = ApplyList [k] ->
  slices_unset (slices self) = false ->
  wrong_dimension self Xy k = Ok true ->
  transform self false sample_set Xy = (set_apply_on self (ApplyList []), Ok Xy) /\
  forall sample_set' Xy',
    transform (set_apply_on self (ApplyList [])) false sample_set' Xy'
    = (set_apply_on self (ApplyList []),
       (transform (set_apply_on self ApplyNone) false sample_set' Xy').2).
Proof.
  intros Ha Hs Hbad. split.
  - unfold Splitters.transform, select_keys, data_keys_of. rewrite Hs, Ha.
    rewrite filter_loop_unfold. cbn [lookup list_lookup]. rewrite Hbad.
    cbn [list_remove]. rewrite decide_True by done.
    rewrite filter_loop_unfold. done.
  - intros ss Xy'. unfold Splitters.transform, select_keys, data_keys_of.
    cbn [set_apply_on slices apply_on]. rewrite Hs.
    rewrite (filter_loop_same_n (set_apply_on self ApplyNone)
               (set_apply_on self (ApplyList [])) Xy' _ eq_refl 0 _ (le_n _)).
    destruct (filter_loop (set_apply_on self ApplyNone) Xy' 0 (flow_keys Xy'))
      as [l' [e|]]; [done|].
    cbn [snd]. f_equal. by apply slice_loop_same_slices.
Qed.

Lemma perm_at_lookup (cpt nb : Z) (perms : list (list Z)) bound p :
  (cpt <= nb)%Z ->
  perms !! Z.to_nat (nb - cpt) = Some p ->
  perm_at cpt nb perms bound = Some p.
Proof.
  revert cpt bound. induction perms as [|q perms IH]; intros cpt bound Hle Hp; [done|].
  simpl. destruct (Z.eqb_spec cpt nb) as [->|Hne].
  - rewrite Z.sub_diag in Hp. simpl in Hp. congruence.
  - apply IH; [lia|].
    replace (Z.to_nat (nb - cpt)) with (S (Z.to_nat (nb - (cpt + 1)))) in Hp by lia.
    done.
Qed.

(** X17: the child number [i] of a [Perms] whose slicer applies to a
    one-character name is the slicer set to permutation [i]; its
    [transform] reorders that entry by the permutation and leaves every
    other entry of the flow as it was. *)
Theorem Perms_child_permutes_one_entry
    (self : Perms) (h : heap) (l : loc) (s : RowSlicer) (c : ascii)
    (perms : list (list Z)) (i : Z) (perm : list Z)
    (Xy : DataFlow) (rows rows' : list row) :
  slicer (perms_children self) = Some l ->
  h !! l = Some s ->
  apply_on s = ApplyStr (String c EmptyString) ->
  perms__sclices self = Some perms ->
  (0 <= i < size (perms_children self))%Z ->
  perms !! Z.to_nat i = Some perm ->
  perm <> [] ->
  flow_get Xy (String c EmptyString) = Ok (Array rows) ->
  length rows = length perm ->
  take_rows rows perm = Ok rows' ->
  exists s',
    Perms_getitem self i h = (<[l := s']> h, Ok l) /\
    nb s' = i /\
    transform s' false None Xy
      = (s', Ok (flow_set Xy (String c EmptyString) (Array rows'))) /\
    forall k, k <> String c EmptyString ->
      flow_get (flow_set Xy (String c EmptyString) (Array rows')) k = flow_get Xy k.
Proof.
  intros Hl Hs Ha Hp Hi Hperm Hne Hget Hlen Hrows.
  unfold Perms_getitem. rewrite (proj2 (Z.leb_gt _ _)) by lia.
  rewrite Hl. unfold Perms_move_to_child. rewrite Hs, Hp.
  rewrite (perm_at_lookup 0 i perms None perm) by (rewrite ?Z.sub_0_r; done || lia).
  cbn [set_sclices]. eexists. split; [reflexivity|]. split; [reflexivity|].
  split.
  - unfold Splitters.transform, select_keys, data_keys_of.
    cbn [slices slices_unset apply_on set_nb signature_name n children].
    rewrite bool_decide_eq_false_2 by done. rewrite Ha.
    cbn [chars list_ascii_of_string map filter_str].
    unfold wrong_dimension. rewrite Hget. cbn [bind n].
    rewrite Hlen, Nat.eqb_refl. cbn [negb slice_loop].
    assert (Hc : flow_contains Xy (String c EmptyString) = true)
      by (apply flow_get_Ok; eauto).
    rewrite Hc. cbn [negb indices_of slices bind]. rewrite Hget. cbn [bind fancy_index].
    rewrite Hrows. done.
  - intros k Hk. rewrite flow_get_set. by rewrite decide_False.
Qed.

Lemma n_train_test (train test : list Z) :
  map_fold (fun (_ : string) (v : list Z) acc => (length v + acc)%nat) 0%nat
    ({[ "train" := train; "test" := test ]} : gmap string (list Z))
  = (length train + length test)%nat.
Proof.
  rewrite map_fold_insert_L; [|intros; lia|done].
  rewrite map_fold_singleton. lia.
Qed.

End SlicerMore.

Section FoldsMore.

Variable StratifiedKFold : value -> Z -> result (list (list Z * list Z)).
Variable KFold : nat -> Z -> option Z -> result (list (list Z * list Z)).
Variable LeaveOneOut : nat -> result (list (list Z * list Z)).
Variable CV_top_down :
  CV -> string -> bool -> DataFlow -> heap -> (CV * heap) * result DataFlow.
Variable top_down :
  RowSlicer -> string -> bool -> DataFlow -> RowSlicer * result DataFlow.

#[local] Abbreviation CV_transform :=
  (Splitters.CV_transform StratifiedKFold KFold LeaveOneOut CV_top_down).
#[local] Abbreviation CV_fit :=
  (Splitters.CV_fit StratifiedKFold KFold LeaveOneOut CV_top_down).

(** X18: a [CV] of a [cv_type] other than the three known ones is
    accepted: its own step stores no fold and returns the flow, and the
    failure only shows in the children, whose [transform] raises the
    error of a slicing that was not initialized. *)
Theorem CV_unknown_type_fails_in_the_slicer
    (subtree : loc) (k : Z) (random_state : option Z) (cv_type : string)
    (h : heap) (Xy : DataFlow) :
  cv_type <> "stratified" -> cv_type <> "random" -> cv_type <> "loo" ->
  flow_contains Xy "y" = true ->
  let cv := (CV_init subtree k random_state cv_type h).1 in
  let h0 := (CV_init subtree k random_state cv_type h).2 in
  CV_transform cv false Xy h0 = ((cv, h0), Ok Xy) /\
  forall i recursion sample_set Xy',
    (i < k)%Z ->
    exists l s,
      getitem cv i h0 = (<[l := s]> h0, Ok l) /\
      Splitters.transform top_down s recursion sample_set Xy'
        = (s, Raise (ValueError "Slicing hasn't been initialized")).
Proof.
  intros H1 H2 H3 Hy cv h0. subst cv h0. unfold CV_init. cbn [fst snd]. split.
  - unfold Splitters.CV_transform, make_folds. rewrite Hy. cbn.
    by rewrite !decide_False by done.
  - intros i recursion ss Xy' Hi. unfold getitem. cbn.
    rewrite (proj2 (Z.leb_gt _ _)) by lia.
    unfold move_to_child. rewrite lookup_insert_eq. cbn.
    eexists _, _. split; [reflexivity|]. done.
Qed.

(** X19: after the own step of a leave-one-out [CV] on a flow whose
    entries all have the length of [y], the child number [i] is the
    slicer set to fold [i], and its [fit] returns the flow with every
    entry reduced to the training rows of that fold. *)
Theorem CV_fold_fit_takes_train_rows
    (cv : CV) (h : heap) (l : loc) (s : RowSlicer) (Xy : DataFlow)
    (y : list row) (folds : list (list Z * list Z)) (i : Z) (train test : list Z) :
  cv_type cv = "loo" ->
  slicer (cv_children cv) = Some l ->
  h !! l = Some s ->
  apply_on s = ApplyNone ->
  flow_get Xy "y" = Ok (Array y) ->
  LeaveOneOut (length y) = Ok folds ->
  (0 <= i < size (cv_children cv))%Z ->
  folds !! Z.to_nat i = Some (train, test) ->
  (length train + length test)%nat = length y ->
  (forall j, j ∈ train -> (- Z.of_nat (length y) <= j < Z.of_nat (length y))%Z) ->
  NoDup (flow_keys Xy) ->
  (forall k, k ∈ flow_keys Xy ->
     exists rows, flow_get Xy k = Ok (Array rows) /\ length rows = length y) ->
  exists cv' s' Xy',
    CV_fit cv false Xy h = ((cv', h), Ok Xy) /\
    getitem cv' i h = (<[l := s']> h, Ok l) /\
    fit top_down s' false Xy = (s', Ok Xy') /\
    forall k rows, flow_get Xy k = Ok (Array rows) ->
      exists rows', take_rows rows train = Ok rows' /\ flow_get Xy' k = Ok (Array rows').
Proof.
  intros Hty Hl Hs Ha Hy Hloo Hi Hfold Hlen Hrange Hnd Hall.
  assert (Hc : flow_contains Xy "y" = true) by (apply flow_get_Ok; eauto).
  assert (Hfit : CV_fit cv false Xy h = ((set__sclices cv (Some folds), h), Ok Xy)).
  { unfold Splitters.CV_fit, Splitters.CV_transform, make_folds.
    rewrite Hc, Hty. cbn [negb]. rewrite decide_False by done.
    rewrite decide_False by done. rewrite decide_True by done.
    rewrite Hy. cbn [bind shape0]. rewrite Hloo. done. }
  assert (Hget : exists s',
            getitem (set__sclices cv (Some folds)) i h = (<[l := s']> h, Ok l) /\
            n s' = length y /\
            slices s' = SlicesDict {[ "train" := train; "test" := test ]} /\
            apply_on s' = ApplyNone).
  { unfold getitem. cbn [set__sclices cv_children].
    rewrite (proj2 (Z.leb_gt _ _)) by lia.
    rewrite Hl. unfold move_to_child. rewrite Hs. cbn [_sclices set__sclices].
    rewrite (fold_at_lookup 0 i folds None (train, test))
      by (rewrite ?Z.sub_0_r; done || lia).
    cbn [set_sclices]. eexists. split; [reflexivity|]. cbn [n slices apply_on set_nb].
    split; [by rewrite n_train_test|]. done. }
  destruct Hget as (s' & Hget & Hn & Hsl & Hap).
  assert (Hio : indices_of s' (Some "train") = Ok train).
  { unfold indices_of. rewrite Hsl. cbn [no_sample_set].
    rewrite bool_decide_eq_false_2 by done. cbn [default].
    by rewrite lookup_insert_eq. }
  assert (Htr : fit top_down s' false Xy
            = (s', slice_loop s' (Some "train")
                     (filter_loop s' Xy 0 (flow_keys Xy)).1 Xy)).
  { unfold fit, Splitters.transform. rewrite Hsl. cbn [slices_unset].
    rewrite bool_decide_eq_false_2 by apply insert_non_empty.
    by rewrite select_keys_fresh by done. }
  pose proof (filter_loop_NoDup s' Xy 0 _ Hnd) as Hnd'.
  destruct (slice_loop_total s' (Some "train") train
              (filter_loop s' Xy 0 (flow_keys Xy)).1 Xy Hio Hnd') as [Xy' HXy'].
  { intros k Hin _. apply filter_loop_subset in Hin.
    destruct (Hall k Hin) as (rows & Hk & Hlen').
    destruct (take_rows_total rows train) as [rs Hrs]; [by rewrite Hlen'|].
    exists (Array rows), (Array rs). split; [done|]. cbn. by rewrite Hrs. }
  rewrite HXy' in Htr.
  exists (set__sclices cv (Some folds)), s', Xy'.
  split; [exact Hfit|]. split; [exact Hget|]. split; [exact Htr|].
  intros k rows Hk.
  assert (Hck : flow_contains Xy k = true) by (apply flow_get_Ok; eauto).
  assert (Hin : k ∈ flow_keys Xy) by (by apply bool_decide_eq_true in Hck).
  destruct (Hall k Hin) as (rows0 & Hk0 & Hlen0).
  rewrite Hk in Hk0. injection Hk0 as <-.
  destruct (slice_loop_get _ _ _ _ _ _ Hio Hnd' HXy' k) as [Hgetk _].
  destruct Hgetk as (v & v' & Hv & Hf & Hg).
  - apply filter_loop_keeps; [done|].
    unfold wrong_dimension. rewrite Hk. cbn. by rewrite Hn, Hlen0, Nat.eqb_refl.
  - done.
  - rewrite Hk in Hv. injection Hv as <-. cbn in Hf.
    destruct (take_rows rows train) as [rows'|]; [|done].
    injection Hf as <-. by exists rows'.
Qed.

End FoldsMore.

Lemma getitem_beyond_folds_gives_last_witness :
  exists s',
    getitem sample_cv_cached 2 sample_heap
      = (<[fresh (dom (∅ : heap)) := s']> sample_heap, Ok (fresh (dom (∅ : heap)))) /\
    nb s' = 2%Z /\
    slices s' = SlicesDict {[ "train" := [0]%Z; "test" := [1]%Z ]}.
Proof.
  apply (getitem_beyond_folds_gives_last sample_cv_cached sample_heap
           (fresh (dom (∅ : heap)))
           (add_child (RowSlicer_init "CV" 0 ApplyNone) 1%positive) 2
           [([1], [0])]%Z [0]%Z [1]%Z);
    [reflexivity|reflexivity|reflexivity|reflexivity|right; cbn; lia].
Defined.

Lemma iter_yields_one_slicer_witness :
  iter sample_cv_cached sample_heap
    = ((getitem sample_cv_cached (Z.of_nat 2) sample_heap).1,
       Ok (replicate 3 (fresh (dom (∅ : heap))))).
Proof.
  apply (iter_yields_one_slicer sample_cv_cached (fresh (dom (∅ : heap))) sample_heap
           (add_child (RowSlicer_init "CV" 0 ApplyNone) 1%positive) 2);
    [reflexivity|reflexivity|discriminate|reflexivity].
Defined.

Lemma transform_skips_separated_mismatches_witness :
  exists Xy',
    transform no_recursion two_rows false None
      [("a", Array [[1]; [2]; [3]]%Z); ("X", Array [[4]; [5]]%Z);
       ("b", Array [[6]; [7]; [8]]%Z)]
      = (two_rows, Ok Xy') /\
    forall k rows,
      flow_get [("a", Array [[1]; [2]; [3]]%Z); ("X", Array [[4]; [5]]%Z);
                ("b", Array [[6]; [7]; [8]]%Z)] k = Ok (Array rows) ->
      (length rows <> n two_rows -> flow_get Xy' k = Ok (Array rows)) /\
      (length rows = n two_rows ->
         exists rows', take_rows rows [0; 1]%Z = Ok rows' /\
                       flow_get Xy' k = Ok (Array rows')).
Proof.
  apply (transform_skips_separated_mismatches no_recursion two_rows [0; 1]%Z None
           [("a", Array [[1]; [2]; [3]]%Z); ("X", Array [[4]; [5]]%Z);
            ("b", Array [[6]; [7]; [8]]%Z)]).
  - reflexivity.
  - reflexivity.
  - discriminate.
  - intros i Hi. apply (bool_decide_unpack _).
    apply elem_of_cons in Hi as [->|Hi]; [reflexivity|].
    apply elem_of_cons in Hi as [->|Hi]; [reflexivity|].
    by apply elem_of_nil in Hi.
  - apply (bool_decide_unpack _). reflexivity.
  - intros k Hk.
    apply elem_of_cons in Hk as [->|Hk]; [by eexists|].
    apply elem_of_cons in Hk as [->|Hk]; [by eexists|].
    apply elem_of_cons in Hk as [->|Hk]; [by eexists|].
    by apply elem_of_nil in Hk.
  - intros [|[|[|i]]] k k' rows rows' Hk Hk' Hrows Hrows' Hlen; simplify_eq/=; done.
Defined.

Lemma transform_reads_str_by_character_witness :
  transform no_recursion target_rows false None
    [("X", Array [[1]; [2]]%Z); ("target", Array [[0]; [1]]%Z)]
  = (target_rows, Raise KeyError).
Proof.
  apply (transform_reads_str_by_character no_recursion target_rows "t"%char "arget");
    reflexivity.
Defined.

Lemma apply_on_list_is_consumed_witness :
  transform no_recursion listed_rows false None [("X", Array [[1]; [2]; [3]]%Z)]
    = (set_apply_on listed_rows (ApplyList []), Ok [("X", Array [[1]; [2]; [3]]%Z)]) /\
  forall sample_set' Xy',
    transform no_recursion (set_apply_on listed_rows (ApplyList [])) false sample_set' Xy'
    = (set_apply_on listed_rows (ApplyList []),
       (transform no_recursion (set_apply_on listed_rows ApplyNone) false sample_set' Xy').2).
Proof.
  apply (apply_on_list_is_consumed no_recursion listed_rows "X" None
           [("X", Array [[1]; [2]; [3]]%Z)]); reflexivity.
Defined.

Lemma Perms_child_permutes_one_entry_witness :
  exists s',
    Perms_getitem sample_perms 0 (Perms_init 1%positive 2 "y" None ∅).2
      = (<[fresh (dom (∅ : heap)) := s']> (Perms_init 1%positive 2 "y" None ∅).2,
         Ok (fresh (dom (∅ : heap)))) /\
    nb s' = 0%Z /\
    transform no_recursion s' false None
        [("X", Array [[10]; [20]]%Z); ("y", Array [[0]; [1]]%Z)]
      = (s', Ok (flow_set [("X", Array [[10]; [20]]%Z); ("y", Array [[0]; [1]]%Z)]
                   "y" (Array [[1]; [0]]%Z))) /\
    forall k, k <> "y" ->
      flow_get (flow_set [("X", Array [[10]; [20]]%Z); ("y", Array [[0]; [1]]%Z)]
                  "y" (Array [[1]; [0]]%Z)) k
      = flow_get [("X", Array [[10]; [20]]%Z); ("y", Array [[0]; [1]]%Z)] k.
Proof.
  apply (Perms_child_permutes_one_entry no_recursion sample_perms
           (Perms_init 1%positive 2 "y" None ∅).2 (fresh (dom (∅ : heap)))
           (add_child (RowSlicer_init "Perm" 0 (ApplyStr "y")) 1%positive) "y"%char
           [[1; 0]; [0; 1]]%Z 0 [1; 0]%Z
           [("X", Array [[10]; [20]]%Z); ("y", Array [[0]; [1]]%Z)]
           [[0]; [1]]%Z [[1]; [0]]%Z);
    [reflexivity|reflexivity|reflexivity|reflexivity|by apply (bool_decide_unpack _)
    |reflexivity|discriminate|reflexivity|reflexivity|reflexivity].
Defined.

Lemma CV_unknown_type_fails_in_the_slicer_witness :
  CV_transform no_StratifiedKFold no_KFold leave_one_out no_recursion_CV
      (CV_init 1%positive 3 None "kfold" ∅).1 false [("y", Array [[0]; [1]; [1]]%Z)]
      (CV_init 1%positive 3 None "kfold" ∅).2
    = (((CV_init 1%positive 3 None "kfold" ∅).1, (CV_init 1%positive 3 None "kfold" ∅).2),
       Ok [("y", Array [[0]; [1]; [1]]%Z)]) /\
  forall i recursion sample_set Xy',
    (i < 3)%Z ->
    exists l s,
      getitem (CV_init 1%positive 3 None "kfold" ∅).1 i
          (CV_init 1%positive 3 None "kfold" ∅).2
        = (<[l := s]> (CV_init 1%positive 3 None "kfold" ∅).2, Ok l) /\
      transform no_recursion s recursion sample_set Xy'
        = (s, Raise (ValueError "Slicing hasn't been initialized")).
Proof.
  apply (CV_unknown_type_fails_in_the_slicer no_StratifiedKFold no_KFold leave_one_out
           no_recursion_CV no_recursion 1%positive 3 None "kfold" ∅
           [("y", Array [[0]; [1]; [1]]%Z)]);
    [discriminate|discriminate|discriminate|reflexivity].
Defined.

Lemma CV_fold_fit_takes_train_rows_witness :
  exists cv' s' Xy',
    CV_fit no_StratifiedKFold no_KFold leave_one_out no_recursion_CV
        (CV_init 1%positive 2 None "loo" ∅).1 false
        [("X", Array [[10]; [20]]%Z); ("y", Array [[0]; [1]]%Z)]
        (CV_init 1%positive 2 None "loo" ∅).2
      = ((cv', (CV_init 1%positive 2 None "loo" ∅).2),
         Ok [("X", Array [[10]; [20]]%Z); ("y", Array [[0]; [1]]%Z)]) /\
    getitem cv' 0 (CV_init 1%positive 2 None "loo" ∅).2
      = (<[fresh (dom (∅ : heap)) := s']> (CV_init 1%positive 2 None "loo" ∅).2,
         Ok (fresh (dom (∅ : heap)))) /\
    fit no_recursion s' false [("X", Array [[10]; [20]]%Z); ("y", Array [[0]; [1]]%Z)]
      = (s', Ok Xy') /\
    forall k rows,
      flow_get [("X", Array [[10]; [20]]%Z); ("y", Array [[0]; [1]]%Z)] k
        = Ok (Array rows) ->
      exists rows', take_rows rows [1]%Z = Ok rows' /\ flow_get Xy' k = Ok (Array rows').
Proof.
  apply (CV_fold_fit_takes_train_rows no_StratifiedKFold no_KFold leave_one_out
           no_recursion_CV no_recursion (CV_init 1%positive 2 None "loo" ∅).1
           (CV_init 1%positive 2 None "loo" ∅).2 (fresh (dom (∅ : heap)))
           (add_child (RowSlicer_init "CV" 0 ApplyNone) 1%positive)
           [("X", Array [[10]; [20]]%Z); ("y", Array [[0]; [1]]%Z)]
           [[0]; [1]]%Z [([1], [0]); ([0], [1])]%Z 0 [1]%Z [0]%Z).
  - reflexivity.
  - reflexivity.
  - reflexivity.
  - reflexivity.
  - reflexivity.
  - reflexivity.
  - by apply (bool_decide_unpack _).
  - reflexivity.
  - reflexivity.
  - intros j Hj. apply list_elem_of_singleton in Hj as ->. by apply (bool_decide_unpack _).
  - apply (bool_decide_unpack _). reflexivity.
  - intros k Hk.
    apply elem_of_cons in Hk as [->|Hk]; [by eexists|].
    apply elem_of_cons in Hk as [->|Hk]; [by eexists|].
    by apply elem_of_nil in Hk.
Defined.

End SplittersMore.

(** ** More on the estimator wrappers *)

Module EstimatorsMore.
Import Py.
Import Splitters (value, Array, NonArray, DataFlow, flow_get, flow_set, flow_contains, flow_keys).
Import Estimators SplittersSpec EstimatorsSpec.

Section LeafMore.

Variable estimator : Type.
Variable prediction : Type.
Variable est_fit : estimator -> DataFlow -> estimator * option exn.
Variable est_predict : estimator -> DataFlow -> estimator * result prediction.
Variable est_transform : estimator -> DataFlow -> estimator * result prediction.
Variable KW_SPLIT_TRAIN_TEST : string.
Variable train_test_split : DataFlow -> result (DataFlow * DataFlow).
Variable _sub_dict : DataFlow -> list string -> result DataFlow.
Variable _as_dict : prediction -> list string -> result DataFlow.

#[local] Abbreviation transform :=
  (Estimators.transform estimator prediction est_fit est_predict
     KW_SPLIT_TRAIN_TEST train_test_split _sub_dict _as_dict).
#[local] Abbreviation internal_transform :=
  (Estimators.internal_transform estimator prediction est_fit est_transform
     KW_SPLIT_TRAIN_TEST train_test_split _sub_dict _as_dict).

(** X20: whatever the flow and the estimator, [LeafEstimator.transform]
    only adds calls to the log of the estimator: none when it raises
    before the fit, else one [fit] followed by at most two [predict]; when
    it returns, the predictions are two with the train/test flag and one
    without.  It never calls [transform] and never predicts before the
    fit. *)
Theorem leaf_transform_fits_before_it_predicts
    (self : LeafEstimator) (Xy : DataFlow) (w : world estimator) :
  exists new,
    calls _ (transform self Xy w).1 = calls _ w ++ new /\
    ((new = [] /\ exists e, (transform self Xy w).2 = Raise e) \/
     exists kw_fit kws,
       new = Fit kw_fit :: map Predict kws /\ (length kws <= 2)%nat /\
       ((exists Xy_out, (transform self Xy w).2 = Ok Xy_out) ->
        length kws = if flow_contains Xy KW_SPLIT_TRAIN_TEST then 2%nat else 1%nat)).
Proof.
  unfold Estimators.transform, mbind, lift, ret, call_fit, call_predict.
  destruct (flow_contains Xy KW_SPLIT_TRAIN_TEST).
  - destruct (train_test_split Xy) as [[Xy_train Xy_test]|]; cbn;
      [|exists []; rewrite app_nil_r; split; [done|left; split; [done|by eexists]]].
    destruct (_sub_dict Xy_train (in_args_fit self)) as [kw|]; cbn;
      [|exists []; rewrite app_nil_r; split; [done|left; split; [done|by eexists]]].
    destruct (est_fit (wrapped _ w) kw) as [e1 [x|]]; cbn.
    { exists [Fit kw]. split; [done|]. right. exists kw, []. cbn.
      split; [done|]. split; [lia|]. by intros [? ?]. }
    destruct (_sub_dict Xy_train (in_args_predict self)) as [kw1|]; cbn.
    2:{ exists [Fit kw]. split; [done|]. right. exists kw, []. cbn.
        split; [done|]. split; [lia|]. by intros [? ?]. }
    destruct (est_predict e1 kw1) as [e2 [y1|]]; cbn.
    2:{ exists [Fit kw; Predict kw1]. split; [by rewrite <- app_assoc|].
        right. exists kw, [kw1]. cbn.
        split; [done|]. split; [lia|]. by intros [? ?]. }
    destruct (_as_dict y1 (out_args_predict self)) as [o1|]; cbn.
    2:{ exists [Fit kw; Predict kw1]. split; [by rewrite <- app_assoc|].
        right. exists kw, [kw1]. cbn.
        split; [done|]. split; [lia|]. by intros [? ?]. }
    destruct (_sub_dict Xy_test (in_args_predict self)) as [kw2|]; cbn.
    2:{ exists [Fit kw; Predict kw1]. split; [by rewrite <- app_assoc|].
        right. exists kw, [kw1]. cbn.
        split; [done|]. split; [lia|]. by intros [? ?]. }
    exists [Fit kw; Predict kw1; Predict kw2].
    destruct (est_predict e2 kw2) as [e3 [y2|]]; cbn.
    2:{ split; [by rewrite <- !app_assoc|].
        right. exists kw, [kw1; kw2]. cbn.
        split; [done|]. split; [lia|]. by intros [? ?]. }
    destruct (_as_dict y2 (out_args_predict self)) as [o2|]; cbn.
    2:{ split; [by rewrite <- !app_assoc|].
        right. exists kw, [kw1; kw2]. cbn.
        split; [done|]. split; [lia|]. by intros [? ?]. }
    split; [by rewrite <- !app_assoc|].
    right. exists kw, [kw1; kw2]. cbn. split; [done|]. split; [lia|]. done.
  - destruct (_sub_dict Xy (in_args_fit self)) as [kw|]; cbn;
      [|exists []; rewrite app_nil_r; split; [done|left; split; [done|by eexists]]].
    destruct (est_fit (wrapped _ w) kw) as [e1 [x|]]; cbn.
    { exists [Fit kw]. split; [done|]. right. exists kw, []. cbn.
      split; [done|]. split; [lia|]. by intros [? ?]. }
    destruct (_sub_dict Xy (in_args_predict self)) as [kw1|]; cbn.
    2:{ exists [Fit kw]. split; [done|]. right. exists kw, []. cbn.
        split; [done|]. split; [lia|]. by intros [? ?]. }
    exists [Fit kw; Predict kw1].
    destruct (est_predict e1 kw1) as [e2 [y1|]]; cbn.
    2:{ split; [by rewrite <- app_assoc|].
        right. exists kw, [kw1]. cbn.
        split; [done|]. split; [lia|]. by intros [? ?]. }
    destruct (_as_dict y1 (out_args_predict self)) as [o1|]; cbn.
    2:{ split; [by rewrite <- app_assoc|].
        right. exists kw, [kw1]. cbn.
        split; [done|]. split; [lia|]. by intros [? ?]. }
    split; [by rewrite <- !app_assoc|].
    right. exists kw, [kw1]. cbn. split; [done|]. split; [lia|]. done.
Qed.

(** X21: when [fit] raises, [LeafEstimator.transform] raises and does
    not call [predict]: the log gains nothing or the failed [fit] only. *)
Theorem failing_fit_stops_leaf_transform
    (self : LeafEstimator) (Xy : DataFlow) (w : world estimator) :
  (forall e kw, exists x, (est_fit e kw).2 = Some x) ->
  (exists x, (transform self Xy w).2 = Raise x) /\
  (calls _ (transform self Xy w).1 = calls _ w \/
   exists kw, calls _ (transform self Xy w).1 = calls _ w ++ [Fit kw]).
Proof.
  intros Hfit.
  unfold Estimators.transform, mbind, lift, ret, call_fit, call_predict.
  destruct (flow_contains Xy KW_SPLIT_TRAIN_TEST).
  - destruct (train_test_split Xy) as [[Xy_train Xy_test]|]; cbn;
      [|split; [by eexists|by left]].
    destruct (_sub_dict Xy_train (in_args_fit self)) as [kw|]; cbn;
      [|split; [by eexists|by left]].
    destruct (Hfit (wrapped _ w) kw) as [x Hx].
    destruct (est_fit (wrapped _ w) kw) as [e1 r]. cbn in Hx. subst r. cbn.
    split; [by eexists|right; by eexists].
  - destruct (_sub_dict Xy (in_args_fit self)) as [kw|]; cbn;
      [|split; [by eexists|by left]].
    destruct (Hfit (wrapped _ w) kw) as [x Hx].
    destruct (est_fit (wrapped _ w) kw) as [e1 r]. cbn in Hx. subst r. cbn.
    split; [by eexists|right; by eexists].
Qed.

Lemma flow_get_raises_KeyError (Xy : DataFlow) k e :
  flow_get Xy k = Raise e -> e = KeyError.
Proof.
  induction Xy as [|[k' v] Xy IH]; simpl; [by intros [= <-]|].
  case_decide; [done|]. apply IH.
Qed.

Lemma flow_get_update (Xy_out Xy : DataFlow) k :
  flow_get (flow_update Xy Xy_out) k =
  match flow_get (reverse Xy_out) k with
  | Ok v => Ok v
  | Raise _ => flow_get Xy k
  end.
Proof.
  revert Xy. induction Xy_out as [|[k' v'] Xy_out IH]; intros Xy.
  - cbn. done.
  - unfold flow_update in *. cbn [fold_left]. rewrite IH. rewrite reverse_cons.
    destruct (flow_get (reverse Xy_out) k) as [v|e] eqn:Hr.
    + by rewrite (flow_get_app_l _ _ _ _ Hr).
    + rewrite (flow_get_raises_KeyError _ _ _ Hr) in Hr.
      rewrite (flow_get_app_r _ _ _ Hr). cbn. rewrite flow_get_set.
      case_decide; [done|]. done.
Qed.

Lemma flow_get_reverse (Xy : DataFlow) k :
  NoDup (flow_keys Xy) -> flow_get (reverse Xy) k = flow_get Xy k.
Proof.
  induction Xy as [|[k' v'] Xy IH]; intros Hnd; [done|].
  apply NoDup_cons in Hnd as [Hk' Hnd]. rewrite reverse_cons. cbn [flow_get].
  specialize (IH Hnd).
  destruct (flow_get Xy k) as [v|e] eqn:Hg.
  - rewrite decide_False.
    2:{ intros ->. apply Hk'. 
        assert (flow_contains Xy k' = true) as Hc by (apply flow_get_Ok; eauto).
        by apply bool_decide_eq_true in Hc. }
    by apply flow_get_app_l.
  - pose proof (flow_get_raises_KeyError _ _ _ Hg) as ->.
    rewrite flow_get_app_r by done. cbn. by case_decide.
Qed.

Lemma flow_get_not_key (Xy : DataFlow) k :
  k ∉ flow_keys Xy -> flow_get Xy k = Raise KeyError.
Proof.
  intros Hk. apply flow_get_Raise. by apply bool_decide_eq_false.
Qed.

Lemma suffixed_keys (suffix : string) (Xy : DataFlow) k :
  k ∈ flow_keys (map (fun kv => (kv.1 +:+ suffix, kv.2)) Xy) <->
  exists k0, k0 ∈ flow_keys Xy /\ k = k0 +:+ suffix.
Proof.
  induction Xy as [|[k1 v] Xy IH]; cbn.
  - split; [by intros ?%elem_of_nil|by intros (? & ?%elem_of_nil & _)].
  - rewrite elem_of_cons, IH. split.
    + intros [->|(k0 & Hk0 & ->)]; [exists k1|exists k0]; (split; [|done]).
      * by left.
      * by right.
    + intros (k0 & [->|Hk0]%elem_of_cons & ->); [by left|right; eauto].
Qed.

Lemma suffixed_NoDup (suffix : string) (Xy : DataFlow) :
  NoDup (flow_keys Xy) ->
  NoDup (flow_keys (map (fun kv => (kv.1 +:+ suffix, kv.2)) Xy)).
Proof.
  induction Xy as [|[k1 v] Xy IH]; intros Hnd; [constructor|].
  apply NoDup_cons in Hnd as [Hk Hnd]. cbn. constructor; [|by apply IH].
  intros (k0 & Hk0 & Heq)%suffixed_keys. cbn in Heq.
  apply suffix_inj in Heq as ->. done.
Qed.

Lemma merge_keys (Xy_train Xy_test : DataFlow) k :
  k ∈ flow_keys (train_test_merge Xy_train Xy_test) <->
  (exists k0, k0 ∈ flow_keys Xy_train /\ k = k0 +:+ "/train") \/
  (exists k0, k0 ∈ flow_keys Xy_test /\ k = k0 +:+ "/test").
Proof.
  unfold train_test_merge. unfold flow_keys at 1. rewrite map_app, elem_of_app.
  by rewrite <- !suffixed_keys.
Qed.

Lemma merge_NoDup (Xy_train Xy_test : DataFlow) :
  NoDup (flow_keys Xy_train) -> NoDup (flow_keys Xy_test) ->
  NoDup (flow_keys (train_test_merge Xy_train Xy_test)).
Proof.
  intros H1 H2. unfold train_test_merge. unfold flow_keys at 1. rewrite map_app.
  apply NoDup_app. split; [by apply suffixed_NoDup|]. split; [|by apply suffixed_NoDup].
  intros k (k0 & _ & ->)%suffixed_keys (k1 & _ & Heq)%suffixed_keys.
  by apply train_is_not_test in Heq.
Qed.

Lemma flow_contains_update (Xy_out Xy : DataFlow) k :
  flow_contains Xy k = true -> flow_contains (flow_update Xy Xy_out) k = true.
Proof.
  revert Xy. induction Xy_out as [|[k' v'] Xy_out IH]; intros Xy Hk; [done|].
  unfold flow_update in *. cbn [fold_left]. apply IH. by apply flow_contains_set.
Qed.

(** X22: with the train/test flag, [InternalEstimator.transform] fits on
    the training part, transforms the training part and then the test
    part, and returns the flow it was given updated with the outputs under
    their names suffixed by [/train] and [/test]: every other entry is
    unchanged, and every entry of the flow, the flag among them, is still
    there. *)
Theorem internal_transform_train_test
    (self : InternalEstimator) (Xy Xy_train Xy_test : DataFlow)
    (kw_fit kw_train kw_test Xy_out_tr Xy_out_te : DataFlow)
    (e0 e1 e2 e3 : estimator) (y_train y_test : prediction) (log : list call) :
  flow_contains Xy KW_SPLIT_TRAIN_TEST = true ->
  train_test_split Xy = Ok (Xy_train, Xy_test) ->
  _sub_dict Xy_train (internal_in_args_fit self) = Ok kw_fit ->
  est_fit e0 kw_fit = (e1, None) ->
  _sub_dict Xy_train (in_args_transform self) = Ok kw_train ->
  est_transform e1 kw_train = (e2, Ok y_train) ->
  _as_dict y_train (in_args_transform self) = Ok Xy_out_tr ->
  _sub_dict Xy_test (in_args_transform self) = Ok kw_test ->
  est_transform e2 kw_test = (e3, Ok y_test) ->
  _as_dict y_test (in_args_transform self) = Ok Xy_out_te ->
  NoDup (flow_keys Xy_out_tr) ->
  NoDup (flow_keys Xy_out_te) ->
  exists Xy',
    internal_transform self Xy {| wrapped := e0; calls := log |}
      = ({| wrapped := e3;
            calls := log ++ [Fit kw_fit; Transform kw_train; Transform kw_test] |},
         Ok Xy') /\
    (forall k v, flow_get Xy_out_tr k = Ok v -> flow_get Xy' (k +:+ "/train") = Ok v) /\
    (forall k v, flow_get Xy_out_te k = Ok v -> flow_get Xy' (k +:+ "/test") = Ok v) /\
    (forall k,
       (forall k0, k0 ∈ flow_keys Xy_out_tr -> k <> k0 +:+ "/train") ->
       (forall k0, k0 ∈ flow_keys Xy_out_te -> k <> k0 +:+ "/test") ->
       flow_get Xy' k = flow_get Xy k) /\
    (forall k, flow_contains Xy k = true -> flow_contains Xy' k = true).
Proof.
  intros Hflag Hsplit Hkf Hfit Hkt Htr Hotr Hkte Hte Hote Hnd1 Hnd2.
  exists (flow_update Xy (train_test_merge Xy_out_tr Xy_out_te)). split.
  { unfold Estimators.internal_transform, mbind, lift, ret, call_fit, call_transform.
    rewrite Hflag, Hsplit. cbn. rewrite Hkf. cbn. rewrite Hfit. cbn.
    rewrite Hkt. cbn. rewrite Htr. cbn. rewrite Hotr. cbn. rewrite Hkte. cbn.
    rewrite Hte. cbn. rewrite Hote. cbn. by rewrite <- !app_assoc. }
  pose proof (merge_NoDup _ _ Hnd1 Hnd2) as Hnd.
  assert (Hget : forall k, flow_get (flow_update Xy (train_test_merge Xy_out_tr Xy_out_te)) k
            = match flow_get (train_test_merge Xy_out_tr Xy_out_te) k with
              | Ok v => Ok v
              | Raise _ => flow_get Xy k
              end).
  { intros k. rewrite flow_get_update. by rewrite flow_get_reverse. }
  split; [|split; [|split]].
  - intros k v Hk. rewrite Hget. unfold train_test_merge.
    erewrite flow_get_app_l; [done|]. by rewrite flow_get_suffixed.
  - intros k v Hk. rewrite Hget. unfold train_test_merge.
    rewrite flow_get_app_r by apply flow_get_train_in_test.
    by rewrite flow_get_suffixed, Hk.
  - intros k H1 H2. rewrite Hget. rewrite flow_get_not_key; [done|].
    intros [(k0 & Hk0 & ->)|(k0 & Hk0 & ->)]%merge_keys.
    + by apply (H1 k0).
    + by apply (H2 k0).
  - intros k. apply flow_contains_update.
Qed.

End LeafMore.

(** X23: a [LeafEstimator] built without [out_args_predict] names its
    outputs after the arguments of [fit] that are not arguments of
    [predict], and after the arguments of [predict] when there is none. *)
Theorem LeafEstimator_default_outputs
    (estimator : Type) (has_fit has_predict : estimator -> bool)
    (fit_args predict_args : estimator -> list string)
    (set_difference : list string -> list string -> list string)
    (e : estimator) (in_args_fit in_args_predict : option (list string)) :
  (forall a b x, x ∈ set_difference a b <-> x ∈ a /\ x ∉ b) ->
  has_fit e = true ->
  has_predict e = true ->
  exists self,
    LeafEstimator_init estimator has_fit has_predict fit_args predict_args
      set_difference e in_args_fit in_args_predict None = Ok self /\
    Estimators.in_args_fit self = default (fit_args e) in_args_fit /\
    Estimators.in_args_predict self = default (predict_args e) in_args_predict /\
    ((exists x, x ∈ Estimators.in_args_fit self /\ x ∉ Estimators.in_args_predict self) ->
     forall x, x ∈ out_args_predict self <->
               x ∈ Estimators.in_args_fit self /\ x ∉ Estimators.in_args_predict self) /\
    ((forall x, x ∈ Estimators.in_args_fit self -> x ∈ Estimators.in_args_predict self) ->
     out_args_predict self = Estimators.in_args_predict self).
Proof.
  intros Hdiff Hf Hp. unfold LeafEstimator_init. rewrite Hf, Hp. cbn.
  eexists. split; [reflexivity|]. cbn. split; [done|]. split; [done|].
  set (a := default (fit_args e) in_args_fit).
  set (b := default (predict_args e) in_args_predict).
  split.
  - intros (x & Hx & Hx') y.
    destruct (set_difference a b) as [|z l] eqn:Hd.
    + assert (x ∈ set_difference a b) as Hin by (by apply Hdiff).
      rewrite Hd in Hin. by apply elem_of_nil in Hin.
    + cbn. rewrite <- Hd. apply Hdiff.
  - intros Hsub. destruct (set_difference a b) as [|z l] eqn:Hd; [done|].
    assert (z ∈ set_difference a b) as Hin by (rewrite Hd; by left).
    apply Hdiff in Hin as [Hz Hz']. by apply Hsub in Hz.
Qed.

Section RefitMore.

Variable score : Type.
Context `{EqDecision score}.
Variable score_le : score -> score -> bool.
Variable estimator : Type.
Variable cv_t : Type.
Variable pipe_t : Type.
Variable result_set : Type.
Variable search : cv_t -> string -> DataFlow -> result (cv_t * list (string * score)).
Variable key_split : string -> list string.
Variable find_estimator :
  list (node cv_t pipe_t) -> string -> result estimator.
Variable Pipe : list estimator -> pipe_t.
Variable pipe_fit : pipe_t -> DataFlow -> result pipe_t.
Variable summarize : pipe_t -> string -> result result_set.
Variable payload_t : Type.
Variable node_predict :
  node cv_t pipe_t -> DataFlow -> result (node cv_t pipe_t * DataFlow).
Variable refit_payload : node cv_t pipe_t -> result payload_t.
Variable load_state_unset : result result_set.
Variable update_result : result_set -> payload_t -> result_set.

#[local] Abbreviation fit :=
  (Estimators.fit score score_le estimator cv_t pipe_t result_set search key_split
     find_estimator Pipe pipe_fit summarize).
#[local] Abbreviation predict :=
  (Estimators.predict cv_t pipe_t result_set payload_t node_predict refit_payload
     load_state_unset update_result).

(** X24: a [CVBestSearchRefit] as its constructor leaves it has the [CV]
    as only child, so [predict] before any [fit] raises [IndexError] and
    changes nothing. *)
Theorem predict_before_fit_raises
    (cv : cv_t) (score_arg : option string) (arg_max_arg : option bool)
    (Xy : DataFlow) :
  predict Xy (CVBestSearchRefit_init cv_t pipe_t result_set cv score_arg arg_max_arg)
    = (CVBestSearchRefit_init cv_t pipe_t result_set cv score_arg arg_max_arg,
       Raise IndexError).
Proof. done. Qed.

(** X25: when the search finds no branch, [fit] raises [IndexError]; the
    searched [CV] is the first child and the children after it, a refit
    pipeline of an earlier [fit] among them, stay where they were. *)
Theorem fit_without_branch_keeps_children
    (self : CVBestSearchRefit cv_t pipe_t result_set) (Xy : DataFlow)
    (cv cv' : cv_t) (rest : list (node cv_t pipe_t)) :
  children _ _ _ self = NodeCV _ _ cv :: rest ->
  search cv (score_name _ _ _ self) Xy = Ok (cv', []) ->
  fit Xy self = (set_children _ _ _ self (NodeCV _ _ cv' :: rest), Raise IndexError).
Proof.
  intros Hc Hs. unfold Estimators.fit, mbind, lift, get, put, ret.
  rewrite Hc. cbn. rewrite Hs. done.
Qed.

(** X26: whenever [fit] returns, the node has exactly two children, the
    [CV] and a refit pipeline, and a result set is saved; [predict] then
    asks the refit pipeline, keeps it as second child and returns its
    prediction. *)
Theorem fit_then_predict
    (self self' : CVBestSearchRefit cv_t pipe_t result_set) (Xy : DataFlow) :
  fit Xy self = (self', Ok ()) ->
  exists cv' refited rs,
    children _ _ _ self' = [NodeCV _ _ cv'; NodePipe _ _ refited] /\
    saved_result_set _ _ _ self' = Some rs /\
    score_name _ _ _ self' = score_name _ _ _ self /\
    arg_max _ _ _ self' = arg_max _ _ _ self /\
    forall Xy_test refited' pred payload,
      node_predict (NodePipe _ _ refited) Xy_test = Ok (refited', pred) ->
      refit_payload refited' = Ok payload ->
      (predict Xy_test self').2 = Ok pred /\
      children _ _ _ (predict Xy_test self').1 = [NodeCV _ _ cv'; refited'].
Proof.
  unfold Estimators.fit, mbind, lift, get, put, ret.
  destruct (children _ _ _ self) as [|[cv| |] rest] eqn:Hc; cbn; try done.
  destruct (search cv (score_name _ _ _ self) Xy) as [[cv' key_val]|]; cbn; [|done].
  destruct (best_branch score score_le (arg_max _ _ _ self) key_val) as [[idx best_key]|];
    cbn; [|done].
  destruct (mapM (find_estimator (NodeCV _ _ cv' :: rest)) (key_split best_key))
    as [estimators|]; cbn; [|done].
  destruct (pipe_fit (Pipe estimators) Xy) as [refited|]; cbn; [|done].
  destruct (summarize refited best_key) as [rs|]; cbn; [|done].
  intros [= <-]. exists cv', refited, rs. cbn.
  split; [done|]. split; [done|]. split; [done|]. split; [done|].
  intros Xy_test refited' pred payload Hp Hr.
  unfold Estimators.predict, mbind, lift, get, put, ret. cbn.
  rewrite Hp. cbn. rewrite Hr. done.
Qed.

End RefitMore.
Lemma failing_fit_stops_leaf_transform_witness :
  (exists x,
     (transform nat DataFlow failing_fit constant_predict "split_train_test"
        sample_split sample_sub_dict sample_as_dict sample_leaf merged_flow
        {| wrapped := 0%nat; calls := [] |}).2 = Raise x) /\
  (calls _ (transform nat DataFlow failing_fit constant_predict "split_train_test"
              sample_split sample_sub_dict sample_as_dict sample_leaf merged_flow
              {| wrapped := 0%nat; calls := [] |}).1
     = calls _ {| wrapped := 0%nat; calls := [] |} \/
   exists kw,
     calls _ (transform nat DataFlow failing_fit constant_predict "split_train_test"
                sample_split sample_sub_dict sample_as_dict sample_leaf merged_flow
                {| wrapped := 0%nat; calls := [] |}).1
       = calls _ {| wrapped := 0%nat; calls := [] |} ++ [Fit kw]).
Proof.
  apply (failing_fit_stops_leaf_transform nat DataFlow failing_fit constant_predict
           "split_train_test" sample_split sample_sub_dict sample_as_dict
           sample_leaf merged_flow {| wrapped := 0%nat; calls := [] |}).
  intros e kw. by eexists.
Defined.

Lemma internal_transform_train_test_witness :
  exists Xy',
    internal_transform nat DataFlow counting_fit constant_predict "split_train_test"
        sample_split sample_sub_dict sample_as_dict sample_internal merged_flow
        {| wrapped := 0%nat; calls := [] |}
      = ({| wrapped := 1%nat;
            calls := [] ++ [Fit [("X", Array [[1]; [2]]%Z)];
                            Transform [("X", Array [[1]; [2]]%Z)];
                            Transform [("X", Array [[3]]%Z)]] |},
         Ok Xy') /\
    (forall k v, flow_get [("y", Array [[1]]%Z)] k = Ok v ->
                 flow_get Xy' (k +:+ "/train") = Ok v) /\
    (forall k v, flow_get [("y", Array [[1]]%Z)] k = Ok v ->
                 flow_get Xy' (k +:+ "/test") = Ok v) /\
    (forall k,
       (forall k0, k0 ∈ flow_keys [("y", Array [[1]]%Z)] -> k <> k0 +:+ "/train") ->
       (forall k0, k0 ∈ flow_keys [("y", Array [[1]]%Z)] -> k <> k0 +:+ "/test") ->
       flow_get Xy' k = flow_get merged_flow k) /\
    (forall k, flow_contains merged_flow k = true -> flow_contains Xy' k = true).
Proof.
  apply (internal_transform_train_test nat DataFlow counting_fit constant_predict
           "split_train_test" sample_split sample_sub_dict sample_as_dict
           sample_internal merged_flow
           [("X", Array [[1]; [2]]%Z)] [("X", Array [[3]]%Z)]
           [("X", Array [[1]; [2]]%Z)] [("X", Array [[1]; [2]]%Z)]
           [("X", Array [[3]]%Z)]
           [("y", Array [[1]]%Z)] [("y", Array [[1]]%Z)]
           0%nat 1%nat 1%nat 1%nat
           [("y", Array [[1]]%Z)] [("y", Array [[1]]%Z)] []);
    try reflexivity; apply (bool_decide_unpack _); reflexivity.
Defined.

Lemma ordered_difference_spec (a b : list string) (x : string) :
  x ∈ ordered_difference a b <-> x ∈ a /\ x ∉ b.
Proof.
  unfold ordered_difference. by rewrite elem_of_remove_dups, list_elem_of_difference.
Qed.

Lemma LeafEstimator_default_outputs_witness :
  exists self,
    LeafEstimator_init unit (fun _ => true) (fun _ => true)
      (fun _ => ["X"; "y"]) (fun _ => ["X"]) ordered_difference () None None None
      = Ok self /\
    Estimators.in_args_fit self = ["X"; "y"] /\
    Estimators.in_args_predict self = ["X"] /\
    ((exists x, x ∈ Estimators.in_args_fit self /\ x ∉ Estimators.in_args_predict self) ->
     forall x, x ∈ out_args_predict self <->
               x ∈ Estimators.in_args_fit self /\ x ∉ Estimators.in_args_predict self) /\
    ((forall x, x ∈ Estimators.in_args_fit self -> x ∈ Estimators.in_args_predict self) ->
     out_args_predict self = Estimators.in_args_predict self).
Proof.
  apply (LeafEstimator_default_outputs unit (fun _ => true) (fun _ => true)
           (fun _ => ["X"; "y"]) (fun _ => ["X"]) ordered_difference () None None
           ordered_difference_spec); reflexivity.
Defined.

Lemma fit_without_branch_keeps_children_witness :
  Estimators.fit Z Z.leb string unit (list string) string empty_search (fun k => [k])
      sample_find (fun l => l) (fun p _ => Ok p) (fun _ k => Ok k)
      merged_flow sample_refit
  = (set_children _ _ _ sample_refit [NodeCV unit (list string) ()], Raise IndexError).
Proof.
  apply (fit_without_branch_keeps_children Z Z.leb string unit (list string) string
           empty_search (fun k => [k]) sample_find (fun l => l) (fun p _ => Ok p)
           (fun _ k => Ok k) sample_refit merged_flow () () []); reflexivity.
Defined.

Lemma fit_then_predict_witness :
  exists cv' refited rs,
    [NodeCV unit (list string) (); NodePipe unit (list string) ["B"]]
      = [NodeCV _ _ cv'; NodePipe _ _ refited] /\
    Some "B" = Some rs /\
    "mean_score_te" = score_name _ _ _ sample_refit /\
    true = arg_max _ _ _ sample_refit /\
    forall Xy_test refited' pred payload,
      sample_node_predict (NodePipe _ _ refited) Xy_test = Ok (refited', pred) ->
      Ok "payload" = Ok payload ->
      (Estimators.predict unit (list string) string string sample_node_predict
          (fun _ => Ok "payload") (Raise KeyError) (fun rs p => rs +:+ p) Xy_test
          {| children := [NodeCV unit (list string) (); NodePipe unit (list string) ["B"]];
             score_name := "mean_score_te"; arg_max := true;
             saved_result_set := Some "B" |}).2 = Ok pred /\
      children _ _ _
        (Estimators.predict unit (list string) string string sample_node_predict
          (fun _ => Ok "payload") (Raise KeyError) (fun rs p => rs +:+ p) Xy_test
          {| children := [NodeCV unit (list string) (); NodePipe unit (list string) ["B"]];
             score_name := "mean_score_te"; arg_max := true;
             saved_result_set := Some "B" |}).1
        = [NodeCV _ _ cv'; refited'].
Proof.
  apply (fit_then_predict Z Z.leb string unit (list string) string sample_search
           (fun k => [k]) sample_find (fun l => l) (fun p _ => Ok p) (fun _ k => Ok k)
           string sample_node_predict (fun _ => Ok "payload") (Raise KeyError)
           (fun rs p => rs +:+ p) sample_refit
           {| children := [NodeCV unit (list string) (); NodePipe unit (list string) ["B"]];
              score_name := "mean_score_te"; arg_max := true;
              saved_result_set := Some "B" |}
           merged_flow).
  vm_compute. reflexivity.
Defined.

End EstimatorsMore.

(** ** Wrapper nodes *)

Module WrappersSpec.
Import Py.
Import Splitters (value, Array, NonArray, DataFlow, flow_get, flow_set, flow_contains).
Import Estimators Wrappers EstimatorsSpec.

Section Node.

Variable wrapped_node : Type.
Variable node_transform : wrapped_node -> DataFlow -> wrapped_node * result output.
Variable KW_SPLIT_TRAIN_TEST : string.
Variable train_test_split : DataFlow -> result (DataFlow * DataFlow).
Variable _sub_dict : DataFlow -> list string -> result DataFlow.

#[local] Abbreviation transform :=
  (Wrappers.transform wrapped_node node_transform KW_SPLIT_TRAIN_TEST
     train_test_split _sub_dict).

(** X27: with the train/test flag, [TransformNode.transform] calls the
    [transform] of the wrapped object on the training part and then on
    the test part, and only then looks at what they returned: two dicts
    are merged under the suffixed names, anything else is a
    [ValueError]. *)
Theorem TransformNode_checks_outputs_after_both_calls
    (self : TransformNode) (Xy Xy_train Xy_test kw_train kw_test : DataFlow)
    (e0 e1 e2 : wrapped_node) (out_tr out_te : output) (log : list call) :
  flow_contains Xy KW_SPLIT_TRAIN_TEST = true ->
  train_test_split Xy = Ok (Xy_train, Xy_test) ->
  _sub_dict Xy_train (in_args_transform self) = Ok kw_train ->
  node_transform e0 kw_train = (e1, Ok out_tr) ->
  _sub_dict Xy_test (in_args_transform self) = Ok kw_test ->
  node_transform e1 kw_test = (e2, Ok out_te) ->
  transform self Xy {| wrapped := e0; calls := log |}
    = ({| wrapped := e2; calls := log ++ [Transform kw_train; Transform kw_test] |},
       match out_tr, out_te with
       | OutDict Xy_out_tr, OutDict Xy_out_te =>
           Ok (train_test_merge Xy_out_tr Xy_out_te)
       | _, _ => Raise (ValueError "transform should return a dictionary")
       end).
Proof.
  intros Hflag Hsplit Hk1 Ht1 Hk2 Ht2.
  unfold Wrappers.transform, call_wrapped, call_transform, mbind, lift, ret.
  rewrite Hflag, Hsplit. cbn. rewrite Hk1. cbn. rewrite Ht1. cbn. rewrite Hk2. cbn.
  rewrite Ht2. cbn. rewrite <- app_assoc. cbn.
  destruct out_tr, out_te; done.
Qed.

(** X28: whatever the flow and the wrapped object,
    [TransformNode.transform] only adds [transform] calls to the log, at
    most two; when it returns they are two with the train/test flag and
    one without.  It never fits and never predicts. *)
Theorem TransformNode_only_transforms
    (self : TransformNode) (Xy : DataFlow) (w : world wrapped_node) :
  exists kws,
    calls _ (transform self Xy w).1 = calls _ w ++ map Transform kws /\
    (length kws <= 2)%nat /\
    ((exists Xy_out, (transform self Xy w).2 = Ok Xy_out) ->
     length kws = if flow_contains Xy KW_SPLIT_TRAIN_TEST then 2%nat else 1%nat).
Proof.
  unfold Wrappers.transform, call_wrapped, call_transform, mbind, lift, ret.
  destruct (flow_contains Xy KW_SPLIT_TRAIN_TEST).
  - destruct (train_test_split Xy) as [[Xy_train Xy_test]|]; cbn;
      [|exists []; rewrite app_nil_r; split; [done|split; [cbn; lia|by intros [? ?]]]].
    destruct (_sub_dict Xy_train (in_args_transform self)) as [kw1|]; cbn;
      [|exists []; rewrite app_nil_r; split; [done|split; [cbn; lia|by intros [? ?]]]].
    destruct (node_transform (wrapped _ w) kw1) as [e1 [o1|]]; cbn;
      [|exists [kw1]; split; [done|split; [cbn; lia|by intros [? ?]]]].
    destruct (_sub_dict Xy_test (in_args_transform self)) as [kw2|]; cbn;
      [|exists [kw1]; split; [done|split; [cbn; lia|by intros [? ?]]]].
    exists [kw1; kw2].
    destruct (node_transform e1 kw2) as [e2 [o2|]]; cbn;
      [|split; [by rewrite <- app_assoc|split; [lia|by intros [? ?]]]].
    destruct o1, o2; cbn; (split; [by rewrite <- app_assoc|split; [lia|done]]).
  - destruct (_sub_dict Xy (in_args_transform self)) as [kw1|]; cbn;
      [|exists []; rewrite app_nil_r; split; [done|split; [cbn; lia|by intros [? ?]]]].
    exists [kw1].
    destruct (node_transform (wrapped _ w) kw1) as [e1 [o1|]]; cbn;
      [|split; [done|split; [lia|by intros [? ?]]]].
    destruct o1; cbn; (split; [done|split; [lia|done]]).
Qed.

End Node.

Lemma TransformNode_checks_outputs_after_both_calls_witness :
  Wrappers.transform unit sample_node_transform "split_train_test"
      sample_train_test_split sample_sub_dict {| in_args_transform := ["x"; "y"] |}
      [("x/train", Array [[1]]%Z); ("y/train", Array [[2]]%Z);
       ("x/test", Array [[33]]%Z); ("y/test", Array [[44]]%Z);
       ("split_train_test", NonArray (PyAtom (AInt 1)))]
      {| wrapped := (); calls := [] |}
  = ({| wrapped := ();
        calls := [] ++ [Transform [("x", Array [[1]]%Z); ("y", Array [[2]]%Z)];
                        Transform [("x", Array [[33]]%Z); ("y", Array [[44]]%Z)]] |},
     Ok (train_test_merge [("res", Array [[5]]%Z)] [("res", Array [[121]]%Z)])).
Proof.
  apply (TransformNode_checks_outputs_after_both_calls unit sample_node_transform
           "split_train_test" sample_train_test_split sample_sub_dict
           {| in_args_transform := ["x"; "y"] |}
           [("x/train", Array [[1]]%Z); ("y/train", Array [[2]]%Z);
            ("x/test", Array [[33]]%Z); ("y/test", Array [[44]]%Z);
            ("split_train_test", NonArray (PyAtom (AInt 1)))]
           [("x", Array [[1]]%Z); ("y", Array [[2]]%Z)]
           [("x", Array [[33]]%Z); ("y", Array [[44]]%Z)]
           [("x", Array [[1]]%Z); ("y", Array [[2]]%Z)]
           [("x", Array [[33]]%Z); ("y", Array [[44]]%Z)]
           () () () (OutDict [("res", Array [[5]]%Z)]) (OutDict [("res", Array [[121]]%Z)])
           []); reflexivity.
Defined.

End WrappersSpec.

(** ** More on [Methods] *)

Module MethodsSplitterMore.
Import Py MethodsSplitter MethodsSplitterSpec.

Section MethodsMore.

Variable params : Type.
Variable get_signature : string -> option params -> string.
Variable dict_diff_keys : list params -> list string.
Variable _sub_dict : params -> list string -> params.
Variable set_iter : list string -> list string.

#[local] Abbreviation node := (MethodsSplitter.node params).
#[local] Abbreviation tree := (MethodsSplitter.tree params).
#[local] Abbreviation leaves_key := (MethodsSplitter.leaves_key params get_signature).
#[local] Abbreviation get_key := (MethodsSplitter.get_key params get_signature).
#[local] Abbreviation resolve :=
  (MethodsSplitter.resolve params get_signature dict_diff_keys _sub_dict set_iter).
#[local] Abbreviation Methods_init :=
  (MethodsSplitter.Methods_init params get_signature dict_diff_keys _sub_dict set_iter).

Lemma resolve_keeps_root (passes : nat) (self : tree) (curr : list path) :
  (forall p, p ∈ curr ->
     exists t', node_at params (root params self) p = Some t' /\
                (height params t' <= passes)%nat) ->
  exists self', resolve passes self curr = Some self' /\ root _ self' = root _ self.
Proof.
  revert self curr. induction passes as [|passes IH]; intros self curr Hin;
    rewrite resolve_unfold.
  - assert (curr = []) as ->.
    { destruct curr as [|p curr]; [done|]. destruct (Hin p) as (t' & _ & Hh); [by left|].
      pose proof (height_pos _ t'). lia. }
    rewrite bool_decide_eq_true_2 by done. rewrite andb_false_r. by eexists.
  - destruct (has_duplicates (leaves_key self) && negb (bool_decide (curr = [])));
      [|by eexists].
    pose proof (resolve_level_within params get_signature dict_diff_keys _sub_dict
                  set_iter passes self curr Hin) as [Hroot Hw].
    destruct (IH _ _ Hw) as (self' & Hres & Hr).
    exists self'. split; [done|]. by rewrite Hr.
Qed.

(** X29: [Methods.__init__] always comes to an end; the tree it has
    built holds the nodes it was given, in their order, and the
    constructor returns exactly when the keys of the leaves of that tree
    are pairwise distinct, and raises the error of identical methods
    otherwise. *)
Theorem Methods_init_outcome (parameters : params) (nodes : list node) :
  exists self,
    root _ self = Node params "Methods" parameters None nodes /\
    Methods_init parameters nodes
      = Some (if bool_decide (NoDup (leaves_key self)) then Ok self
              else Raise (ValueError "Some methods are identical")).
Proof.
  unfold MethodsSplitter.Methods_init.
  set (self := {| root := Node params "Methods" parameters None nodes; assigned := ∅ |}).
  destruct (resolve_keeps_root (height _ (root _ self)) self (children_of _ self []))
    as (self' & -> & Hroot); [apply children_of_root_within|].
  exists self'. split; [done|]. cbn. unfold has_duplicates.
  by destruct (bool_decide (NoDup (leaves_key self'))).
Qed.

Lemma key_push_inj (k s1 s2 : string) :
  key_push (Some k) s1 = key_push (Some k) s2 -> s1 = s2.
Proof.
  unfold key_push. intros H.
  apply (inj (String.app _)) in H. by apply (inj (String.app _)) in H.
Qed.

(** X30: two leaf nodes of the same class whose parameters differ are
    told apart: each gets as signature arguments its parameters that
    differ, and the constructor returns, provided the two signatures so
    obtained are different. *)
Theorem Methods_tells_two_leaves_apart
    (parameters : params) (c : string) (p1 p2 : params) (a : option params) :
  (forall l k, k ∈ set_iter l <-> k ∈ l) ->
  (forall l, NoDup (set_iter l)) ->
  let d := dict_diff_keys [p1; p2] in
  d <> [] ->
  get_signature c (Some (_sub_dict p1 d)) <> get_signature c (Some (_sub_dict p2 d)) ->
  Methods_init parameters [Node params c p1 a []; Node params c p2 a []]
    = Some (Ok {| root := Node params "Methods" parameters None
                            [Node params c p1 a []; Node params c p2 a []];
                  assigned := <[[1%nat] := _sub_dict p2 d]>
                                (<[[0%nat] := _sub_dict p1 d]> ∅) |}).
Proof.
  intros Hset Hnd d Hd Hsig.
  unfold MethodsSplitter.Methods_init. cbn [height map max_list root].
  set (self := {| root := _; assigned := ∅ |}).
  set (K := key_push (Some (get_signature "Methods" None)) (get_signature c a)).
  assert (Hleaves : leaves_key self = [K; K]) by done.
  assert (Hcurr : children_of _ self [] = [[0%nat]; [1%nat]]) by done.
  assert (Hkeys : map (get_key self) [[0%nat]; [1%nat]] = [K; K]) by done.
  assert (Hiter : set_iter [K; K] = [K]).
  { pose proof (Hnd [K; K]) as Hn. 
    assert (Hall : forall k, k ∈ set_iter [K; K] -> k = K).
    { intros k Hk. apply (proj1 (Hset _ _)) in Hk.
      apply elem_of_cons in Hk as [->|Hk]; [done|].
      apply elem_of_cons in Hk as [->|Hk]; [done|]. by apply elem_of_nil in Hk. }
    assert (HK : K ∈ set_iter [K; K]) by (apply Hset; by left).
    destruct (set_iter [K; K]) as [|k1 [|k2 l]].
    - by apply elem_of_nil in HK.
    - f_equal. apply Hall. by left.
    - exfalso. apply NoDup_cons in Hn as [Hn _]. apply Hn.
      rewrite (Hall k1) by (by left). rewrite (Hall k2) by (right; by left). by left. }
  rewrite Hcurr. rewrite resolve_unfold. rewrite Hleaves.
  assert (Hdup : has_duplicates [K; K] = true).
  { unfold has_duplicates. rewrite bool_decide_eq_false_2; [done|].
    intros [Hn _]%NoDup_cons. apply Hn. by left. }
  rewrite Hdup. cbn [andb negb]. rewrite bool_decide_eq_false_2 by done. cbn [negb].
  cbv zeta. rewrite Hkeys.
  assert (Hidx : _list_indices [K; K] K = [0%nat; 1%nat]).
  { unfold _list_indices. cbn. rewrite !decide_True by done. done. }
  assert (Hlevel :
    resolve_level params dict_diff_keys _sub_dict set_iter self [[0%nat]; [1%nat]] [K; K]
    = ({| root := root _ self;
          assigned := <[[1%nat] := _sub_dict p2 d]> (<[[0%nat] := _sub_dict p1 d]> ∅) |},
       [])).
  { unfold resolve_level. rewrite Hiter. cbn [fold_left].
    unfold collide_key. rewrite Hidx. cbn [length Nat.eqb].
    change (omap (get_parameters params self) [[0%nat]; [1%nat]]) with [p1; p2].
    change (omap (fun i : nat => [p1; p2] !! i) [0%nat; 1%nat]) with [p1; p2].
    fold d. cbn [fold_left]. unfold collide_node. cbn [lookup list_lookup fst snd].
    rewrite (bool_decide_eq_false_2 (d = []) Hd). done. }
  rewrite Hlevel. cbn [fst snd].
  rewrite resolve_unfold.
  replace (bool_decide (([] : list path) = [])) with true by done.
  rewrite andb_false_r. change (Some ?x ≫= ?f) with (f x). cbv beta. f_equal.
  unfold has_duplicates. rewrite bool_decide_eq_true_2; [done|].
  change (NoDup [key_push (Some (get_signature "Methods" None))
                   (get_signature c (Some (_sub_dict p1 d)));
                 key_push (Some (get_signature "Methods" None))
                   (get_signature c (Some (_sub_dict p2 d)))]).
  apply NoDup_cons. split; [|apply NoDup_singleton].
  intros Hin. apply list_elem_of_singleton in Hin. by apply key_push_inj in Hin.
Qed.


End MethodsMore.
Lemma Methods_tells_two_leaves_apart_witness :
  Methods_init (list (string * Z)) show_signature differing restrict remove_dups
    [] [svc 1; svc 2]
  = Some (Ok {| root := Node _ "Methods" [] None [svc 1; svc 2];
                assigned := <[[1%nat] := [("C", 2%Z)]]> (<[[0%nat] := [("C", 1%Z)]]> ∅) |}).
Proof.
  apply (Methods_tells_two_leaves_apart (list (string * Z)) show_signature differing
           restrict remove_dups [] "SVC" [("C", 1%Z)] [("C", 2%Z)] None).
  - intros l k. apply elem_of_remove_dups.
  - intros l. apply NoDup_remove_dups.
  - discriminate.
  - discriminate.
Defined.

End MethodsSplitterMore.
